(** * Storage-slot resolution and value encoding of the EVM state setter

    A shallow embedding of the TypeScript sources [storage-layout.ts],
    [path-utils.ts], [slot-utils.ts] and [index.ts] (function [setState] and
    the methods of [hre.stateSetter]), followed by the properties of the
    storage-layout resolution, of the value codec and of whole calls.

    Conventions of the embedding.
    - A JavaScript string whose UTF-16 code units are all below 256 is a
      [string] (one [ascii] per code unit).  The value handed to the string
      encoders is a list of 16-bit code units ([ustring]), because the
      string encoder reads [charCodeAt].
    - A [bigint] is a [Z].  An integral [number] is a [JS.JNum]; numbers
      with a fractional part do not occur in the embedding.
    - A thrown exception is the [Err] branch of [result]. *)

From Stdlib Require Import ZArith List String Ascii Bool Lia.
Import ListNotations.

Open Scope string_scope.
Open Scope Z_scope.

(** ** Errors *)

Inductive error : Type :=
| SyntaxError          (* BigInt(...) of a string that is no integer literal *)
| RangeError           (* BigInt(...) of NaN or of an infinity *)
| TypeError            (* property access on undefined *)
| InvalidBytesLike     (* ethers: the argument is no even-length hex string *)
| InvalidBigNumberish  (* ethers.getBigInt of a malformed string *)
| MappingSlotError     (* "Error calculating mapping slot: ..." *)
| InvalidArrayType     (* "Invalid array type: ..." *)
| UnsupportedArrayElement  (* "Unsupported nested array element type: ..." *)
| UnsupportedStructField   (* "Unsupported nested struct field type: ..." *)
| NoStructMembers      (* "No struct members information found for ..." *)
| FieldNotFound        (* "Field not found in struct: ..." *)
| TypeInfoNotFound     (* "Type information not found for variable ..." *)
| VariableNotFound     (* "Variable ... not found in contract ..." *)
| UnsupportedVariableType  (* "Unsupported variable type for path access" *)
| LayoutNotFound       (* "Error loading storage layout for ..." *)
| LongStringNotSupported.  (* "Long strings not supported ..." *)

Inductive result (A : Type) : Type :=
| Ok  (a : A)
| Err (e : error).
Arguments Ok {A} a.
Arguments Err {A} e.

Definition bind {A B : Type} (r : result A) (k : A -> result B) : result B :=
  match r with
  | Ok a => k a
  | Err e => Err e
  end.

Notation "'let*' x ':=' r 'in' k" := (bind r (fun x => k))
  (at level 10, x name, r at level 100, k at level 200).

Definition isOk {A : Type} (r : result A) : bool :=
  match r with Ok _ => true | Err _ => false end.

(** ** The JavaScript primitives the sources use *)

Module JS.

(** *** Numbers *)

Inductive jsnum : Type :=
| JNum (z : Z)          (* a finite, integral number *)
| JNaN
| JInf (negative : bool).  (* +Infinity, or -Infinity when [negative] *)

(** The integer [z] as the nearest double (round to nearest, ties to even);
    integers of magnitude below [2^53] are exact. *)
Definition roundToDouble (z : Z) : jsnum :=
  let a := Z.abs z in
  if a <? 2 ^ 53 then JNum z
  else
    let e := Z.log2 a - 52 in
    let q := Z.shiftr a e in
    let r := Z.land a (Z.ones e) in
    let half := 2 ^ (e - 1) in
    let q' := if (half <? r) || ((r =? half) && Z.odd q) then q + 1 else q in
    let v := Z.shiftl q' e in
    if 2 ^ 1024 <=? v then JInf (z <? 0) else JNum (Z.sgn z * v).

(** [BigInt(n)] for a number. *)
Definition BigInt_of_number (n : jsnum) : result Z :=
  match n with
  | JNum z => Ok z
  | JNaN | JInf _ => Err RangeError
  end.

(** [n * k] for an integral constant [k > 0]. *)
Definition mul_num (n : jsnum) (k : Z) : jsnum :=
  match n with
  | JNum z => JNum (z * k)
  | other => other
  end.

(** *** Characters and strings *)

Definition code (c : ascii) : Z := Z.of_nat (nat_of_ascii c).
Definition chr (z : Z) : ascii := ascii_of_nat (Z.to_nat z).

Definition isDigit (c : ascii) : bool := (48 <=? code c) && (code c <=? 57).

(** StrWhiteSpaceChar restricted to code units below 256. *)
Definition isWhite (c : ascii) : bool :=
  let k := code c in
  ((9 <=? k) && (k <=? 13)) || (k =? 32) || (k =? 160).

(** [s.startsWith(p)]. *)
Fixpoint startsWith (s p : string) {struct p} : bool :=
  match p with
  | EmptyString => true
  | String a p' =>
      match s with
      | EmptyString => false
      | String b s' => Ascii.eqb a b && startsWith s' p'
      end
  end.

Fixpoint drop (n : nat) (s : string) : string :=
  match n, s with
  | O, _ => s
  | S n', String _ s' => drop n' s'
  | S _, EmptyString => EmptyString
  end.

Fixpoint take (n : nat) (s : string) : string :=
  match n, s with
  | S n', String c s' => String c (take n' s')
  | _, _ => EmptyString
  end.

(** [s.slice(n)] for [n >= 0]. *)
Definition slice (s : string) (n : nat) : string := drop n s.

(** [s.substring(a, b)] for [0 <= a <= b]. *)
Definition substring (s : string) (a b : nat) : string := take (b - a) (drop a s).

Fixpoint repeatChar (c : ascii) (n : nat) : string :=
  match n with
  | O => EmptyString
  | S n' => String c (repeatChar c n')
  end.

(** [s.padStart(n, c)] and [s.padEnd(n, c)] with a one-character filler. *)
Definition padStart (s : string) (n : nat) (c : ascii) : string :=
  repeatChar c (n - String.length s) ++ s.

Definition padEnd (s : string) (n : nat) (c : ascii) : string :=
  s ++ repeatChar c (n - String.length s).

(** [s.indexOf(p)]. *)
Fixpoint indexOf (s p : string) : option nat :=
  if startsWith s p then Some O
  else match s with
       | EmptyString => None
       | String _ s' => option_map S (indexOf s' p)
       end.

Definition includes (s p : string) : bool :=
  match indexOf s p with Some _ => true | None => false end.

(** [s.lastIndexOf(c)] for a single character. *)
Fixpoint lastIndexOfChar (s : string) (c : ascii) : option nat :=
  match s with
  | EmptyString => None
  | String a s' =>
      match lastIndexOfChar s' c with
      | Some i => Some (S i)
      | None => if Ascii.eqb a c then Some O else None
      end
  end.

(** The first two pieces of [s.split(sep)] for a separator that occurs in
    [s]: the text before the first occurrence and the text between the first
    and the second occurrence (or the end). *)
Definition splitFirstTwo (s sep : string) : string * string :=
  match indexOf s sep with
  | None => (s, EmptyString)
  | Some i =>
      let rest := drop (i + String.length sep) s in
      (take i s,
       match indexOf rest sep with
       | None => rest
       | Some j => take j rest
       end)
  end.

Fixpoint dropWhile (f : ascii -> bool) (s : string) : string :=
  match s with
  | EmptyString => EmptyString
  | String c s' => if f c then dropWhile f s' else s
  end.

Fixpoint takeWhile (f : ascii -> bool) (s : string) : string :=
  match s with
  | EmptyString => EmptyString
  | String c s' => if f c then String c (takeWhile f s') else EmptyString
  end.

Fixpoint rev (s acc : string) : string :=
  match s with
  | EmptyString => acc
  | String c s' => rev s' (String c acc)
  end.

Definition trimStart (s : string) : string := dropWhile isWhite s.
Definition trim (s : string) : string :=
  rev (dropWhile isWhite (rev (trimStart s) EmptyString)) EmptyString.

Fixpoint allChars (f : ascii -> bool) (s : string) : bool :=
  match s with
  | EmptyString => true
  | String c s' => f c && allChars f s'
  end.

Definition nonEmpty (s : string) : bool :=
  match s with EmptyString => false | _ => true end.

(** The regular expression [/^\d+$/]. *)
Definition allDigits (s : string) : bool := nonEmpty s && allChars isDigit s.

(** *** Digits in a radix up to 16 *)

(** The value of a digit character, upper or lower case. *)
Definition digitVal (c : ascii) : option Z :=
  let k := code c in
  if (48 <=? k) && (k <=? 57) then Some (k - 48)
  else if (97 <=? k) && (k <=? 102) then Some (k - 87)
  else if (65 <=? k) && (k <=? 70) then Some (k - 55)
  else None.

Definition digitChar (d : Z) : ascii :=
  if d <? 10 then chr (48 + d) else chr (87 + d).

Fixpoint parseDigits (radix : Z) (s : string) (acc : Z) : option Z :=
  match s with
  | EmptyString => Some acc
  | String c s' =>
      match digitVal c with
      | Some d => if d <? radix then parseDigits radix s' (acc * radix + d) else None
      | None => None
      end
  end.

Fixpoint toDigits (fuel : nat) (radix z : Z) (acc : string) : string :=
  match fuel with
  | O => acc
  | S f =>
      let acc' := String (digitChar (z mod radix)) acc in
      if z / radix =? 0 then acc' else toDigits f radix (z / radix) acc'
  end.

(** The digits of [z >= 0]; ["0"] for zero. *)
Definition natToString (radix z : Z) : string :=
  toDigits (S (Z.to_nat (Z.log2 z))) radix z EmptyString.

(** [z.toString(radix)] for a bigint (and for an integral number). *)
Definition toString (radix z : Z) : string :=
  if z <? 0 then String "-" (natToString radix (- z)) else natToString radix z.

(** *** BigInt(string) and parseInt(string, 10) *)

Definition parseNonEmpty (radix : Z) (s : string) : option Z :=
  if nonEmpty s then parseDigits radix s 0 else None.

(** StringToBigInt: white space is trimmed, the empty string is 0, a decimal
    literal may carry a sign, and the prefixes 0x, 0o and 0b (either case)
    introduce unsigned literals. *)
Definition StringToBigInt (s : string) : option Z :=
  let t := trim s in
  match t with
  | EmptyString => Some 0
  | String c r =>
      if Ascii.eqb c "-" then option_map Z.opp (parseNonEmpty 10 r)
      else if Ascii.eqb c "+" then parseNonEmpty 10 r
      else if Ascii.eqb c "0" then
        match r with
        | String p r' =>
            if Ascii.eqb p "x" || Ascii.eqb p "X" then parseNonEmpty 16 r'
            else if Ascii.eqb p "o" || Ascii.eqb p "O" then parseNonEmpty 8 r'
            else if Ascii.eqb p "b" || Ascii.eqb p "B" then parseNonEmpty 2 r'
            else parseNonEmpty 10 t
        | EmptyString => parseNonEmpty 10 t
        end
      else parseNonEmpty 10 t
  end.

Definition BigInt_of_string (s : string) : result Z :=
  match StringToBigInt s with
  | Some z => Ok z
  | None => Err SyntaxError
  end.

(** [parseInt(s, 10)]: leading white space, an optional sign, then the
    longest run of decimal digits; NaN when that run is empty.  The
    mathematical value is rounded to a double. *)
Definition parseInt10 (s : string) : jsnum :=
  let t := trimStart s in
  let '(neg, body) :=
    match t with
    | String c r =>
        if Ascii.eqb c "-" then (true, r)
        else if Ascii.eqb c "+" then (false, r)
        else (false, t)
    | EmptyString => (false, t)
    end in
  let ds := takeWhile isDigit body in
  match parseNonEmpty 10 ds with
  | Some z => roundToDouble (if neg then - z else z)
  | None => JNaN
  end.

End JS.

(** ** Keccak-256

    The hash behind [ethers.keccak256]: the Keccak sponge with rate 1088 and
    capacity 512 and the original padding (domain byte 0x01).  Bytes are
    integers in [0, 256); a lane is a 64-bit integer; the state is the list
    of its 25 lanes, lane [(x, y)] at index [x + 5 * y]. *)

Module Keccak.

Definition lane (st : list Z) (i : nat) : Z := nth i st 0.

Definition rotl64 (x n : Z) : Z :=
  Z.lor (Z.land (Z.shiftl x n) (Z.ones 64)) (Z.shiftr x (64 - n)).

Definition roundConstants : list Z :=
  [ 0x0000000000000001; 0x0000000000008082; 0x800000000000808A;
    0x8000000080008000; 0x000000000000808B; 0x0000000080000001;
    0x8000000080008081; 0x8000000000008009; 0x000000000000008A;
    0x0000000000000088; 0x0000000080008009; 0x000000008000000A;
    0x000000008000808B; 0x800000000000008B; 0x8000000000008089;
    0x8000000000008003; 0x8000000000008002; 0x8000000000000080;
    0x000000000000800A; 0x800000008000000A; 0x8000000080008081;
    0x8000000000008080; 0x0000000080000001; 0x8000000080008008 ].

Definition rotationOffsets : list Z :=
  [  0;  1; 62; 28; 27;
    36; 44;  6; 55; 20;
     3; 10; 43; 25; 39;
    41; 45; 15; 21;  8;
    18;  2; 61; 56; 14 ].

Definition theta (st : list Z) : list Z :=
  let c := map (fun x => Z.lxor (lane st x)
                        (Z.lxor (lane st (x + 5))
                        (Z.lxor (lane st (x + 10))
                        (Z.lxor (lane st (x + 15)) (lane st (x + 20))))))
               (seq 0 5) in
  let d := map (fun x => Z.lxor (nth ((x + 4) mod 5) c 0)
                                (rotl64 (nth ((x + 1) mod 5) c 0) 1))
               (seq 0 5) in
  map (fun i => Z.lxor (lane st i) (nth (i mod 5) d 0)) (seq 0 25).

(** rho and pi together: the lane that lands at [(x', y')] comes from
    [(x, y) = ((x' + 3 * y') mod 5, x')], rotated by its own offset. *)
Definition rhoPi (st : list Z) : list Z :=
  map (fun j =>
         let x' := (j mod 5)%nat in
         let y' := (j / 5)%nat in
         let src := (((x' + 3 * y') mod 5) + 5 * x')%nat in
         rotl64 (lane st src) (nth src rotationOffsets 0))
      (seq 0 25).

Definition chi (st : list Z) : list Z :=
  map (fun i =>
         let x := (i mod 5)%nat in
         let row := (5 * (i / 5))%nat in
         let b1 := lane st (row + (x + 1) mod 5) in
         let b2 := lane st (row + (x + 2) mod 5) in
         Z.lxor (lane st i) (Z.land (Z.lxor b1 (Z.ones 64)) b2))
      (seq 0 25).

Definition iota (rc : Z) (st : list Z) : list Z :=
  match st with
  | [] => []
  | a :: rest => Z.lxor a rc :: rest
  end.

Definition round (st : list Z) (rc : Z) : list Z :=
  iota rc (chi (rhoPi (theta st))).

Definition keccak_f (st : list Z) : list Z := fold_left round roundConstants st.

Definition rateBytes : nat := 136.

(** Little-endian value of a run of bytes. *)
Fixpoint le_value (bs : list Z) : Z :=
  match bs with
  | [] => 0
  | b :: rest => b + 256 * le_value rest
  end.

Fixpoint le_bytes (n : nat) (v : Z) : list Z :=
  match n with
  | O => []
  | S n' => (v mod 256) :: le_bytes n' (v / 256)
  end.

(** The 17 lanes of a block of 136 bytes. *)
Definition blockLanes (block : list Z) : list Z :=
  map (fun i => le_value (firstn 8 (skipn (8 * i) block))) (seq 0 17).

Definition absorbBlock (st block : list Z) : list Z :=
  let ls := blockLanes block in
  keccak_f (map (fun i => Z.lxor (lane st i) (nth i ls 0)) (seq 0 25)).

Definition pad (msg : list Z) : list Z :=
  let q := (rateBytes - (List.length msg mod rateBytes))%nat in
  match q with
  | 1%nat => app msg [0x81]
  | _ => app msg (app (0x01 :: repeat 0 (q - 2)) [0x80])
  end.

Fixpoint absorb (fuel : nat) (st msg : list Z) : list Z :=
  match fuel, msg with
  | S f, _ :: _ => absorb f (absorbBlock st (firstn rateBytes msg)) (skipn rateBytes msg)
  | _, _ => st
  end.

(** The 32-byte digest of a byte string. *)
Definition keccak256 (msg : list Z) : list Z :=
  let p := pad msg in
  let st := absorb (List.length p) (repeat 0 25) p in
  flat_map (fun i => le_bytes 8 (lane st i)) (seq 0 4).

End Keccak.

(** ** The functions of the ethers library the sources call *)

Module Ethers.

(** The bytes of a run of hexadecimal digit pairs; [None] when a character
    is no hexadecimal digit or the run has odd length. *)
Fixpoint bytesOfHex (s : string) : option (list Z) :=
  match s with
  | EmptyString => Some []
  | String _ EmptyString => None
  | String a (String b rest) =>
      match JS.digitVal a, JS.digitVal b, bytesOfHex rest with
      | Some h, Some l, Some bs => Some ((16 * h + l) :: bs)
      | _, _, _ => None
      end
  end.

Fixpoint hexOfBytes (bs : list Z) : string :=
  match bs with
  | [] => EmptyString
  | b :: rest => String (JS.digitChar (b / 16)) (String (JS.digitChar (b mod 16)) (hexOfBytes rest))
  end.

(** [getBytes] on a string: it must read [0x] (in either case) followed by
    pairs of hexadecimal digits. *)
Definition getBytes (data : string) : result (list Z) :=
  match data with
  | String c0 (String c1 body) =>
      if Ascii.eqb c0 "0" && (Ascii.eqb c1 "x" || Ascii.eqb c1 "X") then
        match bytesOfHex body with
        | Some bs => Ok bs
        | None => Err InvalidBytesLike
        end
      else Err InvalidBytesLike
  | _ => Err InvalidBytesLike
  end.

Definition hexlify (bs : list Z) : string := "0x" ++ hexOfBytes bs.

(** [ethers.keccak256] on a hex string and on a byte array. *)
Definition keccak256Bytes (bs : list Z) : string := hexlify (Keccak.keccak256 bs).

Definition keccak256 (data : string) : result string :=
  let* bs := getBytes data in Ok (keccak256Bytes bs).

(** [ethers.concat([a, b])]. *)
Definition concat2 (a b : string) : result string :=
  let* x := getBytes a in
  let* y := getBytes b in
  Ok (hexlify (app x y)).

(** [ethers.toUtf8Bytes] on a string of code units below 256: one byte for a
    code unit below 128, two bytes otherwise. *)
Fixpoint toUtf8Bytes (s : string) : list Z :=
  match s with
  | EmptyString => []
  | String c rest =>
      let k := JS.code c in
      if k <? 128 then k :: toUtf8Bytes rest
      else Z.lor 192 (Z.shiftr k 6) :: Z.lor 128 (Z.land k 63) :: toUtf8Bytes rest
  end.

(** [ethers.getBigInt] on a string. *)
Definition getBigInt (value : string) : result Z :=
  match value with
  | EmptyString => Err InvalidBigNumberish
  | String "-" rest =>
      if JS.startsWith rest "-" then Err InvalidBigNumberish
      else match JS.StringToBigInt rest with
           | Some z => Ok (- z)
           | None => Err InvalidBigNumberish
           end
  | _ => match JS.StringToBigInt value with
         | Some z => Ok z
         | None => Err InvalidBigNumberish
         end
  end.

End Ethers.

(** ** The data model ([types.ts] and the compiler's storage-layout JSON) *)

(** One entry of [members] in a struct type of the layout. *)
Record Member : Type := mkMember {
  m_label  : string;
  m_slot   : string;   (* slot relative to the struct's base, in decimal *)
  m_offset : Z;        (* byte offset within that slot *)
  m_type   : string
}.

(** One entry of [types]; only the fields the sources read. *)
Record TypeInfo : Type := mkTypeInfo {
  t_label         : string;
  t_numberOfBytes : option string;
  t_members       : option (list Member)
}.

(** One entry of [storage]. *)
Record StorageVar : Type := mkStorageVar {
  s_label  : string;
  s_slot   : string;
  s_offset : Z;
  s_type   : string
}.

(** [StorageLayoutInfo]; [types] keeps the order of the JSON object, which
    [Object.values(types).find] walks. *)
Record StorageLayoutInfo : Type := mkLayout {
  storage : list StorageVar;
  types   : list (string * TypeInfo)
}.

(** [VarLocation].  [children] is [None] for undefined and for null;
    [parent] is [parent.types] when both are present. *)
#[warnings="-register-all"]
Inductive VarLocation : Type := mkVarLocation {
  name       : string;
  slot       : string;
  offset     : option Z;
  size       : JS.jsnum;
  type       : string;
  children   : option (list VarLocation);
  structInfo : option StorageLayoutInfo;
  parent     : option (list (string * TypeInfo))
}.

(** [StorageLocation]. *)
Record StorageLocation : Type := mkStorageLocation {
  loc_slot     : string;
  loc_offset   : option Z;
  loc_size     : JS.jsnum;
  loc_type     : string;
  loc_children : option (list VarLocation)
}.

(** [types[id]]. *)
Fixpoint lookupType (tys : list (string * TypeInfo)) (id : string) : option TypeInfo :=
  match tys with
  | [] => None
  | (k, v) :: rest => if String.eqb k id then Some v else lookupType rest id
  end.

(** [x || d] for an optional string: the empty string is falsy too. *)
Definition orString (x : option string) (d : string) : string :=
  match x with
  | Some (String c r) => String c r
  | _ => d
  end.

Fixpoint mapM {A B : Type} (f : A -> result B) (l : list A) : result (list B) :=
  match l with
  | [] => Ok []
  | a :: rest =>
      let* b := f a in
      let* bs := mapM f rest in
      Ok (b :: bs)
  end.

(** ** storage-layout.ts *)

(** [calculateMemberSlot(parentSlot, offset)]. *)
Definition calculateMemberSlot (parentSlot : string) (offset : Z) : result string :=
  let* slotNumber := Ethers.getBigInt parentSlot in
  let offsetSlot := offset / 32 in            (* Math.floor(offset / 32) *)
  Ok (JS.toString 16 (slotNumber + offsetSlot)).

(** [findVariableLocation(storageLayout, varName)]; [Ok None] is [null]. *)
Definition findVariableLocation (storageLayout : StorageLayoutInfo) (varName : string)
  : result (option VarLocation) :=
  match find (fun item => String.eqb (s_label item) varName) (storage storageLayout) with
  | None => Ok None
  | Some storageVar =>
      match lookupType (types storageLayout) (s_type storageVar) with
      | None => Err TypeInfoNotFound
      | Some varType =>
          let locSlot := s_slot storageVar in
          let locSize := JS.parseInt10 (orString (t_numberOfBytes varType) "0") in
          let* kids :=
            match t_members varType with
            | Some (m :: ms) =>
                let* cs :=
                  mapM (fun member =>
                          let* memberSlot := calculateMemberSlot locSlot (m_offset member) in
                          match lookupType (types storageLayout) (m_type member) with
                          | None => Err TypeError
                          | Some mt =>
                              Ok (mkVarLocation
                                    (m_label member)
                                    memberSlot
                                    (Some (Z.rem (m_offset member) 32))
                                    (JS.parseInt10 (orString (t_numberOfBytes mt) "0"))
                                    (m_type member)
                                    None
                                    (Some storageLayout)
                                    None)
                          end)
                       (m :: ms) in
                Ok (Some cs)
            | _ => Ok None
            end in
          Ok (Some (mkVarLocation varName locSlot (Some (s_offset storageVar)) locSize
                                  (s_type storageVar) kids (Some storageLayout) None))
      end
  end.

(** The test [/^\d+$/.test(s) && parseInt(s, 10) < 1000], with the value of
    [parseInt(s, 10)] when it holds. *)
Definition smallDecimal (s : string) : option Z :=
  if JS.allDigits s then
    match JS.parseInt10 s with
    | JS.JNum n => if n <? 1000 then Some n else None
    | _ => None
    end
  else None.

(** A non-negative integer as a 32-byte hex string: [v.toString(16)] padded
    to 64 digits behind [0x]. *)
Definition word32 (v : Z) : string :=
  "0x" ++ JS.padStart (JS.toString 16 v) 64 "0".

Definition hashKeyAndSlot (keyBytes slotBytes : string) : result string :=
  let* packedData := Ethers.concat2 keyBytes slotBytes in
  Ethers.keccak256 packedData.

(** The branch of [calculateMappingSlot] for a decimal slot below 1000. *)
Definition mappingSlotSmall (slotNum : Z) (key : string) : result string :=
  let slotBytes := word32 slotNum in
  match smallDecimal key with
  | Some keyNum =>
      (* small numeric keys are handled directly *)
      hashKeyAndSlot (word32 keyNum) slotBytes
  | None =>
      let* keyBytes :=
        if JS.startsWith key "0x" then
          Ok ("0x" ++ JS.padStart (JS.slice key 2) 64 "0")
        else if JS.allDigits key then
          let* keyBigInt := JS.BigInt_of_string key in
          Ok (word32 keyBigInt)
        else
          (* "It's a string - hash it" *)
          Ok (Ethers.keccak256Bytes (Ethers.toUtf8Bytes key)) in
      hashKeyAndSlot keyBytes slotBytes
  end.

(** The branch of [calculateMappingSlot] for every other slot. *)
Definition mappingSlotGeneral (slot key : string) : result string :=
  let slotFormatted := if JS.startsWith slot "0x" then slot else "0x" ++ slot in
  let* slotBigInt := Ethers.getBigInt slotFormatted in
  let slotBytes := word32 slotBigInt in
  let* keyBytes :=
    if JS.startsWith key "0x" then
      Ok ("0x" ++ JS.padStart (JS.slice key 2) 64 "0")
    else if JS.allDigits key then
      let* keyBigInt := JS.BigInt_of_string key in
      Ok (word32 keyBigInt)
    else
      (* "It's a string - use keccak256 of its UTF-8 bytes" *)
      Ok (Ethers.keccak256Bytes (Ethers.toUtf8Bytes key)) in
  hashKeyAndSlot keyBytes slotBytes.

(** [calculateMappingSlot(slot, key)]: whatever is thrown inside is
    rethrown as "Error calculating mapping slot". *)
Definition calculateMappingSlot (slot key : string) : result string :=
  let r := match smallDecimal slot with
           | Some slotNum => mappingSlotSmall slotNum key
           | None => mappingSlotGeneral slot key
           end in
  match r with
  | Ok h => Ok h
  | Err _ => Err MappingSlotError
  end.

(** [calculateArraySlot(baseSlot, index)]. *)
Definition calculateArraySlot (baseSlot : string) (index : JS.jsnum) : result string :=
  let slotFormatted := if JS.startsWith baseSlot "0x" then baseSlot else "0x" ++ baseSlot in
  let* slotNumber := Ethers.getBigInt slotFormatted in
  let* indexBigInt := JS.BigInt_of_number index in
  let finalSlot := slotNumber + indexBigInt in
  Ok ("0x" ++ JS.toString 16 finalSlot).

(** The argument [index: number | string]. *)
Inductive arrayIndex : Type :=
| IdxNum (n : JS.jsnum)
| IdxStr (s : string).

(** [calculateDynamicArraySlot(baseSlot, index)]. *)
Definition calculateDynamicArraySlot (baseSlot : string) (index : arrayIndex) : result string :=
  let isLengthMarker :=
    match index with
    | IdxStr s => String.eqb s "length" || String.eqb s ".length"
    | IdxNum _ => false
    end in
  if isLengthMarker then Ok baseSlot
  else
    let indexNumber :=
      match index with
      | IdxStr s => JS.parseInt10 s
      | IdxNum n => n
      end in
    let* baseSlotBI := JS.BigInt_of_string baseSlot in
    let* hash := Ethers.keccak256 (word32 baseSlotBI) in
    let* hashBI := JS.BigInt_of_string hash in
    let* indexBI := JS.BigInt_of_number indexNumber in
    Ok (JS.toString 10 (hashBI + indexBI)).

(** ** path-utils.ts *)

(** *** The regular expressions over type names *)

Module TypeName.

Definition isLower_digit_underscore (c : ascii) : bool :=
  let k := JS.code c in
  ((97 <=? k) && (k <=? 122)) || JS.isDigit c || (k =? 95).

(** [/^(t_[a-z0-9_]+)/]: the first capture. *)
Definition leadingTypeWord (s : string) : option string :=
  match s with
  | String "t" (String "_" r) =>
      match JS.takeWhile isLower_digit_underscore r with
      | EmptyString => None
      | w => Some ("t_" ++ w)
      end
  | _ => None
  end.

Definition notCloseParen (c : ascii) : bool := negb (Ascii.eqb c ")").

(** [.] of a regular expression: any code unit but a line terminator. *)
Definition notLineEnd (c : ascii) : bool :=
  negb ((JS.code c =? 10) || (JS.code c =? 13)).

(** The expression that recognises a struct type name, anchored at the
    start of [s]: the text [t_struct], a parenthesised capture free of
    closing parentheses, one or more digits, and the text [_storage].  The
    result is the capture. *)
Definition structAtStart (s : string) : option string :=
  if JS.startsWith s "t_struct(" then
    let r := JS.drop 9 s in
    let body := JS.takeWhile notCloseParen r in
    match JS.drop (String.length body) r with
    | String ")" after =>
        let ds := JS.takeWhile JS.isDigit after in
        if JS.nonEmpty ds && JS.startsWith (JS.drop (String.length ds) after) "_storage"
        then Some body else None
    | _ => None
    end
  else None.

(** The same expression searched from the left. *)
Fixpoint structMatch (s : string) : option string :=
  match structAtStart s with
  | Some b => Some b
  | None => match s with
            | EmptyString => None
            | String _ s' => structMatch s'
            end
  end.

(** [/t_array\((.*?)\)/] anchored at the start of [s]: the first capture,
    the shortest run up to a closing parenthesis. *)
Definition arrayAtStart (s : string) : option string :=
  if JS.startsWith s "t_array(" then
    let r := JS.drop 8 s in
    let body := JS.takeWhile (fun c => notCloseParen c && notLineEnd c) r in
    match JS.drop (String.length body) r with
    | String ")" _ => Some body
    | _ => None
    end
  else None.

Fixpoint arrayMatch (s : string) : option string :=
  match arrayAtStart s with
  | Some b => Some b
  | None => match s with
            | EmptyString => None
            | String _ s' => arrayMatch s'
            end
  end.

End TypeName.

(** [getSizeForType(type)]. *)
Definition getSizeForType (ty : string) : Z :=
  if JS.startsWith ty "t_uint8" || JS.startsWith ty "t_bool" then 1
  else if JS.startsWith ty "t_uint16" then 2
  else if JS.startsWith ty "t_uint32" then 4
  else if JS.startsWith ty "t_uint64" then 8
  else if JS.startsWith ty "t_uint128" then 16
  else 32.

(** [calculateRelativeSlot(baseSlot, relativeSlot)]. *)
Definition calculateRelativeSlot (baseSlot relativeSlot : string) : result string :=
  let* baseSlotBigInt :=
    if JS.startsWith baseSlot "0x" then Ethers.getBigInt baseSlot
    else JS.BigInt_of_number (JS.parseInt10 baseSlot) in
  let relativeSlotNum := JS.parseInt10 relativeSlot in
  let* rel := JS.BigInt_of_number relativeSlotNum in
  Ok ("0x" ++ JS.toString 16 (baseSlotBigInt + rel)).

(** The key and value types [resolveMappingPath] reads off a mapping type
    name; the defaults are [t_uint256] and [t_bool]. *)
Definition mappingKeyValueTypes (ty : string) : string * string :=
  let defaults := ("t_uint256", "t_bool") in
  if JS.startsWith ty "t_mapping(" then
    match JS.lastIndexOfChar ty ")" with
    | Some endParenIndex =>
        if (10 <? endParenIndex)%nat then
          let innerContent := JS.substring ty 10 endParenIndex in
          if JS.includes innerContent "=>" then
            let parts := JS.splitFirstTwo innerContent "=>" in
            (JS.trim (fst parts), JS.trim (snd parts))
          else if JS.includes innerContent "," then
            let parts := JS.splitFirstTwo innerContent "," in
            (JS.trim (fst parts), JS.trim (snd parts))
          else
            match TypeName.leadingTypeWord innerContent with
            | Some k => (k, "t_bool")
            | None => defaults
            end
        else defaults
    | None => defaults
    end
  else defaults.

(** The key as [resolveMappingPath] hands it to [calculateMappingSlot]. *)
Definition formatMappingKey (keyType key : string) : string :=
  if JS.includes keyType "t_address" then
    if JS.startsWith key "0x" then key else "0x" ++ key
  else if JS.includes keyType "t_uint" || JS.includes keyType "t_int" then
    match JS.StringToBigInt key with
    | Some z => JS.toString 10 z
    | None => key      (* "Cannot parse key as BigInt, using as is." *)
    end
  else key.

(** The children [resolveMappingPath] builds for a struct value: [None] is
    [null]. *)
Definition structChildrenOf (info : option StorageLayoutInfo)
           (structName : string) (firstCapture : option string)
           (mappingSlot : string) : result (option (list VarLocation)) :=
  match info with
  | None => Ok None
  | Some layout =>
      let tys := types layout in
      let wanted (t : TypeInfo) :=
        String.eqb (t_label t) ("struct " ++ structName)
        || String.eqb (t_label t) ("struct TestContract." ++ structName)
        || match firstCapture with
           | Some c => String.eqb (t_label t) ("struct " ++ c)
           | None => false
           end in
      match find wanted (map snd tys) with
      | Some structType =>
          match t_members structType with
          | Some members =>
              let* cs :=
                mapM (fun member =>
                        let* s := calculateRelativeSlot mappingSlot
                                    (orString (Some (m_slot member)) "0") in
                        Ok (mkVarLocation
                              (m_label member)
                              s
                              (Some (m_offset member))
                              (JS.parseInt10
                                 (orString
                                    (match lookupType tys (m_type member) with
                                     | Some mt => t_numberOfBytes mt
                                     | None => None
                                     end) "32"))
                              (m_type member)
                              None None None))
                     members in
              Ok (Some cs)
          | None => Ok None
          end
      | None => Ok None
      end
  end.

Definition isLengthMarker (s : string) : bool :=
  String.eqb s "length" || String.eqb s ".length".

(** The global lookup [hre.stateSetter._getStorageLayoutForType], which
    reads the extracted layout files: the members it finds for a type name
    ([[]] when it finds none). *)
Definition hreLookup : Type := string -> list Member.

Section Resolvers.

Variable hreMembers : hreLookup.

(** What [resolveStructPath] does when the location carries no children:
    it takes the raw layout members from the parent's types or from the
    global lookup.  Those entries have a [label] and no [name], so the field
    search that follows finds nothing. *)
Definition missingChildren (varLocation : VarLocation) : error :=
  let fromParent :=
    match parent varLocation with
    | Some tys =>
        if JS.nonEmpty (type varLocation) then
          match lookupType tys (type varLocation) with
          | Some structInfo =>
              match t_members structInfo with Some ms => ms | None => [] end
          | None => []
          end
        else []
    | None => []
    end in
  let raw := match fromParent with
             | [] => hreMembers (type varLocation)
             | _ => fromParent
             end in
  match raw with
  | [] => NoStructMembers
  | _ => FieldNotFound
  end.

(** [resolveMappingPath], [resolveArrayPath] and [resolveStructPath].

    The mapping and the struct resolver read [path[0]] without a test, and
    every call in the sources hands them a non-empty path.  On an empty path
    the key is undefined and the mapping resolver throws (from
    [key.startsWith], directly or inside [calculateMappingSlot]); the struct
    resolver is given the answer of the field search on located children,
    and is not followed further on raw members, where no caller leads. *)
Fixpoint resolveMappingPath (varLocation : VarLocation) (path : list string)
         {struct path} : result StorageLocation :=
  let '(keyType, valueType) := mappingKeyValueTypes (type varLocation) in
  match path with
  | [] => Err (if JS.includes keyType "t_address" then TypeError else MappingSlotError)
  | key :: rest =>
      let formattedKey := formatMappingKey keyType key in
      let* mappingSlot := calculateMappingSlot (slot varLocation) formattedKey in
      match rest with
      | [] =>
          Ok (mkStorageLocation mappingSlot None (JS.JNum (getSizeForType valueType))
                                valueType None)
      | _ :: _ =>
          if JS.startsWith valueType "t_mapping" then
            resolveMappingPath
              (mkVarLocation "innerMapping" mappingSlot None (JS.JNum 32) valueType
                             None None None)
              rest
          else if JS.startsWith valueType "t_array" then
            resolveArrayPath
              (mkVarLocation "innerArray" mappingSlot None (JS.JNum 32) valueType
                             None None None)
              rest
          else if JS.startsWith valueType "t_struct" then
            let structMatch := TypeName.structMatch valueType in
            let structName := orString structMatch "unknown" in
            let* structChildren :=
              structChildrenOf (structInfo varLocation) structName structMatch mappingSlot in
            resolveStructPath
              (mkVarLocation structName mappingSlot None (JS.JNum 32) valueType
                             structChildren None None)
              rest
          else
            Ok (mkStorageLocation mappingSlot None (JS.JNum (getSizeForType valueType))
                                  valueType None)
      end
  end

with resolveArrayPath (varLocation : VarLocation) (path : list string)
       {struct path} : result StorageLocation :=
  match path with
  | [] =>
      Ok (mkStorageLocation (slot varLocation) (offset varLocation)
                            (size varLocation) (type varLocation) None)
  | index :: remainingPath =>
      if isLengthMarker index then
        let lengthLocation :=
          mkVarLocation (name varLocation ++ ".length") (slot varLocation)
                        (Some 0) (JS.JNum 32) "t_uint256" None None None in
        match remainingPath with
        | _ :: _ => resolveStructPath lengthLocation remainingPath
        | [] =>
            Ok (mkStorageLocation (slot lengthLocation) (offset lengthLocation)
                                  (size lengthLocation) (type lengthLocation) None)
        end
      else
        let* elementSlot :=
          if JS.includes (type varLocation) "t_array" && JS.includes (type varLocation) "dyn"
          then calculateDynamicArraySlot (slot varLocation) (IdxStr index)
          else calculateArraySlot (slot varLocation) (JS.parseInt10 index) in
        match TypeName.arrayMatch (type varLocation) with
        | None | Some EmptyString => Err InvalidArrayType
        | Some elementType =>
            match remainingPath with
            | [] =>
                Ok (mkStorageLocation elementSlot None
                                      (JS.JNum (getSizeForType elementType))
                                      elementType None)
            | _ :: _ =>
                if JS.startsWith elementType "t_struct" then
                  resolveStructPath
                    (mkVarLocation "innerStruct" elementSlot None
                                   (JS.JNum (getSizeForType elementType)) elementType
                                   (children varLocation) None None)
                    remainingPath
                else if JS.startsWith elementType "t_array" then
                  resolveArrayPath
                    (mkVarLocation "innerArray" elementSlot None (JS.JNum 32)
                                   elementType None None None)
                    remainingPath
                else if JS.startsWith elementType "t_mapping" then
                  resolveMappingPath
                    (mkVarLocation "innerMapping" elementSlot None (JS.JNum 32)
                                   elementType None None None)
                    remainingPath
                else Err UnsupportedArrayElement
            end
        end
  end

with resolveStructPath (varLocation : VarLocation) (path : list string)
       {struct path} : result StorageLocation :=
  match children varLocation with
  | None | Some [] => Err (missingChildren varLocation)
  | Some kids =>
      match path with
      | [] => Err FieldNotFound
      | fieldName :: rest =>
          match find (fun child => String.eqb (name child) fieldName) kids with
          | None => Err FieldNotFound
          | Some field =>
              match rest with
              | [] =>
                  Ok (mkStorageLocation (slot field) (offset field) (size field)
                                        (type field) None)
              | _ :: _ =>
                  if JS.startsWith (type field) "t_struct" then
                    resolveStructPath
                      (match parent varLocation with
                       | Some tys =>
                           mkVarLocation (name field) (slot field) (offset field)
                                         (size field) (type field) (children field)
                                         (structInfo field) (Some tys)
                       | None => field
                       end)
                      rest
                  else if JS.startsWith (type field) "t_mapping" then
                    resolveMappingPath field rest
                  else if JS.startsWith (type field) "t_array" then
                    resolveArrayPath field rest
                  else Err UnsupportedStructField
              end
          end
      end
  end.

End Resolvers.

(** ** Values and the network provider *)

(** A JavaScript string as its UTF-16 code units. *)
Definition ustring : Type := list Z.

Fixpoint units (s : string) : ustring :=
  match s with
  | EmptyString => []
  | String c r => JS.code c :: units r
  end.

(** The string of a run of code units that are all below 256. *)
Fixpoint latin1 (u : ustring) : option string :=
  match u with
  | [] => Some EmptyString
  | k :: r =>
      if (0 <=? k) && (k <? 256) then option_map (String (JS.chr k)) (latin1 r) else None
  end.

(** The value handed to [setState]: a bigint, a number, a boolean or a
    string. *)
Inductive jsvalue : Type :=
| VBigInt (z : Z)
| VNumber (n : JS.jsnum)
| VBool (b : bool)
| VString (u : ustring).

(** White space of StringToBigInt among all code units. *)
Definition isWhiteUnit (k : Z) : bool :=
  ((9 <=? k) && (k <=? 13)) || (k =? 32) || (k =? 160) || (k =? 5760)
  || ((8192 <=? k) && (k <=? 8202)) || (k =? 8232) || (k =? 8233)
  || (k =? 8239) || (k =? 8287) || (k =? 12288) || (k =? 65279).

Fixpoint dropWhite (u : ustring) : ustring :=
  match u with
  | k :: r => if isWhiteUnit k then dropWhite r else u
  | [] => []
  end.

Definition trimUnits (u : ustring) : ustring :=
  List.rev (dropWhite (List.rev (dropWhite u))).

(** [BigInt(s)] for a string given by its code units. *)
Definition BigInt_of_units (u : ustring) : result Z :=
  match latin1 (trimUnits u) with
  | Some s => JS.BigInt_of_string s
  | None => Err SyntaxError
  end.

(** [BigInt(value)]. *)
Definition BigInt_of_value (value : jsvalue) : result Z :=
  match value with
  | VBigInt z => Ok z
  | VNumber n => JS.BigInt_of_number n
  | VBool b => Ok (if b then 1 else 0)
  | VString u => BigInt_of_units u
  end.

(** The truth value of [value] in a conditional. *)
Definition truthy (value : jsvalue) : bool :=
  match value with
  | VBigInt z => negb (z =? 0)
  | VNumber (JS.JNum z) => negb (z =? 0)
  | VNumber JS.JNaN => false
  | VNumber (JS.JInf _) => true
  | VBool b => b
  | VString u => match u with [] => false | _ => true end
  end.

(** The two provider methods the sources send. *)
Inductive Rpc : Type :=
| eth_getStorageAt (address slot : string)
| hardhat_setStorageAt (address slot : string) (value : ustring).

(** The network behind [hre.network.provider]: the word each contract holds
    at each slot key, as the node prints it, and the requests received so
    far, oldest first. *)
Record Network : Type := mkNetwork {
  contents : string -> string -> ustring;
  calls    : list Rpc
}.

Definition sendGet (address slot : string) (net : Network) : ustring * Network :=
  (contents net address slot,
   mkNetwork (contents net) (app (calls net) [eth_getStorageAt address slot])).

Definition sendSet (address slot : string) (value : ustring) (net : Network) : Network :=
  mkNetwork
    (fun a s => if String.eqb a address && String.eqb s slot then value
                else contents net a s)
    (app (calls net) [hardhat_setStorageAt address slot value]).

(** ** slot-utils.ts *)

(** [formatSlot(slot)]. *)
Definition formatSlot (slot : string) : string :=
  if JS.startsWith slot "0x" then slot
  else match JS.StringToBigInt slot with
       | Some slotNumber => "0x" ++ JS.toString 16 slotNumber
       | None => "0x" ++ slot
       end.

(** The partial-word merge inside [setPartialSlotValue]: [resultValue]. *)
Definition mergeWord (currentBigInt valueBigInt offsetBits sizeBits : Z) : Z :=
  let mask := Z.shiftl (Z.shiftl 1 sizeBits - 1) offsetBits in
  let clearedValue := Z.land currentBigInt (Z.lnot mask) in
  let shiftedValue := Z.land (Z.shiftl valueBigInt offsetBits) mask in
  Z.lor clearedValue shiftedValue.

(** The computation between the two requests of [setPartialSlotValue]:
    from the word read and the encoded value to the word written. *)
Definition mergePartialWord (currentValue value : ustring) (offset : Z) (size : JS.jsnum)
  : result ustring :=
  let* currentBigInt := BigInt_of_units currentValue in
  let* valueBigInt := BigInt_of_units value in
  let* sizeBits := JS.BigInt_of_number (JS.mul_num size 8) in
  let resultValue := mergeWord currentBigInt valueBigInt (offset * 8) sizeBits in
  Ok (units ("0x" ++ JS.padStart (JS.toString 16 resultValue) 64 "0")).

(** [setPartialSlotValue(hre, contractAddress, slot, value, offset, size)]. *)
Definition setPartialSlotValue (contractAddress slot : string) (value : ustring)
           (offset : Z) (size : JS.jsnum) (net : Network) : result unit * Network :=
  let '(currentValue, net1) := sendGet contractAddress slot net in
  match mergePartialWord currentValue value offset size with
  | Ok resultHex => (Ok tt, sendSet contractAddress slot resultHex net1)
  | Err e => (Err e, net1)
  end.

(** [encodeUintForStorage(value, size)]: a value that [BigInt] refuses is
    caught and encoded as zero. *)
Definition encodeUintForStorage (value : jsvalue) (size : JS.jsnum) : ustring :=
  match BigInt_of_value value with
  | Ok bigIntValue =>
      let fullHex := JS.padStart (JS.toString 16 bigIntValue) 64 "0" in
      units ("0x" ++ fullHex)
  | Err _ => units ("0x" ++ JS.padStart "0" 64 "0")
  end.

(** The length argument of [padStart] given as [size * 2]. *)
Definition padLength (size : JS.jsnum) : result nat :=
  match size with
  | JS.JNum s => Ok (Z.to_nat (s * 2))
  | JS.JNaN => Ok O
  | JS.JInf true => Ok O
  | JS.JInf false => Err RangeError
  end.

(** [encodeIntForStorage(value, size)]. *)
Definition encodeIntForStorage (value : jsvalue) (size : JS.jsnum) : result ustring :=
  let* v := BigInt_of_value value in
  let* bigIntValue :=
    if v <? 0 then
      let* bits := JS.BigInt_of_number (JS.mul_num size 8) in
      let mask := Z.shiftl 1 bits - 1 in
      Ok (Z.land v mask)
    else Ok v in
  let* n := padLength size in
  let hex := JS.padStart (JS.toString 16 bigIntValue) n "0" in
  Ok (units ("0x" ++ JS.padStart hex 64 "0")).

(** [encodeBoolForStorage(value)]. *)
Definition encodeBoolForStorage (value : jsvalue) : ustring :=
  if truthy value
  then units "0x0000000000000000000000000000000000000000000000000000000000000001"
  else units "0x0000000000000000000000000000000000000000000000000000000000000000".

(** [s.toLowerCase()] on code units; exact below 256, and the code units
    from 256 on are kept as they are. *)
Definition lowerUnit (k : Z) : Z :=
  if (65 <=? k) && (k <=? 90) then k + 32
  else if (192 <=? k) && (k <=? 222) && negb (k =? 215) then k + 32
  else k.

(** [encodeAddressForStorage(value)]. *)
Definition encodeAddressForStorage (value : jsvalue) : result ustring :=
  match value with
  | VString u =>
      let body := match u with
                  | 48 :: 120 :: r => r        (* value.startsWith('0x') *)
                  | _ => u
                  end in
      let lower := map lowerUnit body in
      Ok (app (units "0x") (app (repeat 48 (64 - List.length lower)) lower))
  | _ => Err TypeError
  end.

(** [k.toString(16).padStart(2, '0')] for a code unit. *)
Definition hexOfUnit (k : Z) : string := JS.padStart (JS.toString 16 k) 2 "0".

Fixpoint hexOfUnits (u : ustring) : string :=
  match u with
  | [] => EmptyString
  | k :: r => hexOfUnit k ++ hexOfUnits r
  end.

(** [encodeStringForStorage(value)]; a value without a [length] falls into
    the branch of the long strings. *)
Definition encodeStringForStorage (value : jsvalue) : result ustring :=
  match value with
  | VString u =>
      if (List.length u <=? 31)%nat then
        let encoded := JS.padEnd (hexOfUnits u) 62 "0" in
        let encoded := encoded ++ JS.padStart (JS.toString 16 (Z.of_nat (List.length u) * 2)) 2 "0" in
        Ok (units ("0x" ++ encoded))
      else Err LongStringNotSupported
  | _ => Err LongStringNotSupported
  end.

(** [encodeValueForStorage(value, location)]. *)
Definition encodeValueForStorage (value : jsvalue) (location : StorageLocation)
  : result ustring :=
  let ty := loc_type location in
  let size := loc_size location in
  if JS.startsWith ty "t_uint" then Ok (encodeUintForStorage value size)
  else if JS.startsWith ty "t_int" then encodeIntForStorage value size
  else if JS.startsWith ty "t_bool" then Ok (encodeBoolForStorage value)
  else if JS.startsWith ty "t_address" then encodeAddressForStorage value
  else if JS.startsWith ty "t_string" || JS.startsWith ty "t_bytes"
       then encodeStringForStorage value
  else if JS.startsWith ty "t_enum" then Ok (encodeUintForStorage value size)
  else if JS.startsWith ty "t_contract" then encodeAddressForStorage value
  else Ok (encodeUintForStorage value size).

(** The test [location.offset !== undefined && location.offset > 0]. *)
Definition hasPositiveOffset (location : StorageLocation) : option Z :=
  match loc_offset location with
  | Some o => if 0 <? o then Some o else None
  | None => None
  end.

(** [setSlotValue(params)]. *)
Definition setSlotValue (location : StorageLocation) (value : jsvalue)
           (contractAddress : string) (net : Network) : result unit * Network :=
  match encodeValueForStorage value location with
  | Err e => (Err e, net)
  | Ok encodedValue =>
      let formattedSlot := formatSlot (loc_slot location) in
      match hasPositiveOffset location with
      | Some o =>
          setPartialSlotValue contractAddress formattedSlot encodedValue o
                              (loc_size location) net
      | None =>
          (Ok tt, sendSet contractAddress formattedSlot encodedValue net)
      end
  end.

(** ** storage-layout.ts, [getStorageLocation], and index.ts, [setState] *)

(** What [loadStorageLayout] finds for a contract name among the plugin, the
    layout files and the build artifacts; [None] when every source fails. *)
Definition artifactStore : Type := string -> option StorageLayoutInfo.

Definition loadStorageLayout (artifacts : artifactStore) (contractName : string)
  : result StorageLayoutInfo :=
  match artifacts contractName with
  | Some layout => Ok layout
  | None => Err LayoutNotFound
  end.

Section Plugin.

Variable hreMembers : hreLookup.
Variable artifacts : artifactStore.

(** [getStorageLocation(params)]. *)
Definition getStorageLocation (contractName varName : string)
           (varPath : option (list string)) : result StorageLocation :=
  let* storageLayout := loadStorageLayout artifacts contractName in
  let* found := findVariableLocation storageLayout varName in
  match found with
  | None => Err VariableNotFound
  | Some varLocation =>
      match varPath with
      | None | Some [] =>
          Ok (mkStorageLocation (slot varLocation) (offset varLocation)
                                (size varLocation) (type varLocation)
                                (children varLocation))
      | Some path =>
          let varType := type varLocation in
          if JS.startsWith varType "t_mapping" then
            resolveMappingPath hreMembers varLocation path
          else if JS.startsWith varType "t_array" then
            resolveArrayPath hreMembers varLocation path
          else if JS.startsWith varType "t_struct" then
            resolveStructPath hreMembers varLocation path
          else Err UnsupportedVariableType
      end
  end.

(** The parameters of [setState] that are data. *)
Record SetStateParams : Type := mkParams {
  contractName    : string;
  varName         : string;
  value           : jsvalue;
  path            : option (list string);
  contractAddress : string
}.

(** [setState(params)]: every exception is caught and answered [false]. *)
Definition setState (params : SetStateParams) (net : Network) : bool * Network :=
  match getStorageLocation (contractName params) (varName params) (path params) with
  | Err _ => (false, net)
  | Ok location =>
      match setSlotValue location (value params) (contractAddress params) net with
      | (Ok _, net') => (true, net')
      | (Err _, net') => (false, net')
      end
  end.

End Plugin.

(** ** [Number.prototype.toString] on integral numbers

    The digits are the shortest decimal numeral that reads back as the same
    double; from [10^21] on the numeral is printed with an exponent. *)

(** The integer [m] rounds to the double [a]. *)
Definition roundsTo (m a : Z) : bool :=
  match JS.roundToDouble m with
  | JS.JNum v => v =? a
  | _ => false
  end.

(** The [k]-digit numeral [s], for the least [k] from the given one on, with
    [s * 10^(n - k)] rounding to [a], where [a] has [n] digits; of two such
    numerals the nearer one, and the even one when they are equally near. *)
Fixpoint shortestDigits (fuel : nat) (k n a : Z) : Z :=
  match fuel with
  | O => a
  | S f =>
      let p := 10 ^ (n - k) in
      let lo := a / p in
      let hi := lo + 1 in
      let okLo := roundsTo (lo * p) a in
      let okHi := (hi <? 10 ^ k) && roundsTo (hi * p) a in
      if okLo && okHi then
        (if a - lo * p <? hi * p - a then lo
         else if hi * p - a <? a - lo * p then hi
         else if Z.even lo then lo else hi)
      else if okLo then lo
      else if okHi then hi
      else if k <? n then shortestDigits f (k + 1) n a else a
  end.

(** Below [2^53] every integer is a double of its own, and the shortest
    numeral followed by its zeros is the decimal numeral of the integer. *)
Definition positiveToString (a : Z) : string :=
  if a <? 2 ^ 53 then JS.natToString 10 a
  else
    let d := Z.of_nat (String.length (JS.natToString 10 a)) in
    let '(s, n) := if roundsTo (10 ^ d) a then (1, d + 1)
                   else (shortestDigits 17 1 d a, d) in
    let ds := JS.natToString 10 s in
    if n <=? 21 then ds ++ JS.repeatChar "0" (Z.to_nat n - String.length ds)
    else
      match ds with
      | String c EmptyString => String c ("e+" ++ JS.natToString 10 (n - 1))
      | String c rest => String c ("." ++ rest ++ "e+" ++ JS.natToString 10 (n - 1))
      | EmptyString => EmptyString
      end.

(** [x.toString()] for a number. *)
Definition numberToString (x : JS.jsnum) : string :=
  match x with
  | JS.JNaN => "NaN"
  | JS.JInf false => "Infinity"
  | JS.JInf true => "-Infinity"
  | JS.JNum z => if z <? 0 then String "-" (positiveToString (- z)) else positiveToString z
  end.

(** [x + 1] for a number. *)
Definition succ_num (x : JS.jsnum) : JS.jsnum :=
  match x with
  | JS.JNum z => JS.roundToDouble (z + 1)
  | other => other
  end.

(** ** The slot helpers that no other function calls *)

(** [calculateNextStructSlot(baseSlot, increment)] of storage-layout.ts. *)
Definition calculateNextStructSlot (baseSlot : string) (increment : JS.jsnum) : result string :=
  let* slotBigInt :=
    if JS.startsWith baseSlot "0x" then Ethers.getBigInt baseSlot
    else JS.BigInt_of_number (JS.parseInt10 baseSlot) in
  let* step := JS.BigInt_of_number (succ_num increment) in
  Ok ("0x" ++ JS.toString 16 (slotBigInt + step)).

(** [calculateNextSlot(slot)] of path-utils.ts. *)
Definition calculateNextSlot (slot : string) : result string :=
  let* slotBigInt :=
    if JS.startsWith slot "0x" then Ethers.getBigInt slot
    else JS.BigInt_of_number (JS.parseInt10 slot) in
  Ok ("0x" ++ JS.toString 16 (slotBigInt + 1)).

(** ** index.ts: the methods of [hre.stateSetter] *)

(** The argument [key: any] of the mapping methods, for the kinds of value
    whose [toString()] the embedding prints: a text of code units below 256
    (as every path segment of the embedding), a number, a bigint and a
    boolean. *)
Inductive anyKey : Type :=
| KeyText (s : string)
| KeyNumber (n : JS.jsnum)
| KeyBigInt (z : Z)
| KeyBool (b : bool).

(** [key.toString()]. *)
Definition keyToString (key : anyKey) : string :=
  match key with
  | KeyText s => s
  | KeyNumber n => numberToString n
  | KeyBigInt z => JS.toString 10 z
  | KeyBool b => if b then "true" else "false"
  end.

Section StateSetter.

Variable hreMembers : hreLookup.
Variable artifacts : artifactStore.

(** [hre.stateSetter.setState(params)]: the parameters are completed with
    the artifacts path and the environment, a line is logged, and [setState]
    is called. *)
Definition stateSetter_setState (params : SetStateParams) (net : Network) : bool * Network :=
  setState hreMembers artifacts params net.

Definition setSimpleState (contractName contractAddress varName : string) (value : jsvalue)
           (net : Network) : bool * Network :=
  stateSetter_setState (mkParams contractName varName value None contractAddress) net.




Definition setNestedState (contractName contractAddress varName : string)
           (path : list string) (value : jsvalue) (net : Network) : bool * Network :=
  stateSetter_setState (mkParams contractName varName value (Some path) contractAddress) net.

Definition setNestedMappingValue (contractName contractAddress varName : string)
           (keys : list anyKey) (value : jsvalue) (net : Network) : bool * Network :=
  stateSetter_setState
    (mkParams contractName varName value (Some (map keyToString keys)) contractAddress) net.

Definition setNestedStructField (contractName contractAddress varName : string)
           (path : list string) (fieldName : string) (value : jsvalue) (net : Network)
  : bool * Network :=
  stateSetter_setState
    (mkParams contractName varName value (Some (app path [fieldName])) contractAddress) net.


End StateSetter.

(** ** Vocabulary of the statements *)

(** Big-endian bytes, as the storage rules of the EVM read them. *)
Fixpoint be_value_from (acc : Z) (bs : list Z) : Z :=
  match bs with
  | [] => acc
  | b :: rest => be_value_from (acc * 256 + b) rest
  end.

Definition be_value (bs : list Z) : Z := be_value_from 0 bs.

Fixpoint be_bytes (n : nat) (v : Z) : list Z :=
  match n with
  | O => []
  | S n' => app (be_bytes n' (v / 256)) [v mod 256]
  end.

(** [leftPad32(v)]: the 32 bytes of the word [v]. *)
Definition leftPad32 (v : Z) : list Z := be_bytes 32 v.

(** The byte of a word at position [j] counted from the low-order end. *)
Definition byteAt (w j : Z) : Z := Z.land (Z.shiftr w (8 * j)) 255.

Definition isByte (b : Z) : Prop := 0 <= b < 256.

(** The digest as a number and as the hex string [ethers.keccak256] returns. *)
Definition keccakWord (msg : list Z) : Z := be_value (Keccak.keccak256 msg).
Definition keccakHex (msg : list Z) : string := Ethers.hexlify (Keccak.keccak256 msg).


(** The requests a run added to the log. *)
Definition issued (before after : Network) : list Rpc :=
  skipn (List.length (calls before)) (calls after).

(** A string free of white space. *)
Definition noWhite (s : string) : bool := JS.allChars (fun c => negb (JS.isWhite c)) s.

(** A string of lower-case hexadecimal digits. *)
Definition isLowerHexChar (c : ascii) : bool :=
  let k := JS.code c in ((48 <=? k) && (k <=? 57)) || ((97 <=? k) && (k <=? 102)).

Definition lowerHex (s : string) : bool := JS.allChars isLowerHexChar s.

(** The numeral of [z] in exactly [n] lower-case hexadecimal digits, put in
    front of [acc]. *)
Fixpoint fixedHex (n : nat) (z : Z) (acc : string) : string :=
  match n with
  | O => acc
  | S n' => fixedHex n' (z / 16) (String (JS.digitChar (z mod 16)) acc)
  end.

(** The slot number [calculateMappingSlot] reads off a slot string: the
    decimal value of a short run of digits, and otherwise the value of the
    string taken as a hexadecimal numeral. *)
Definition readsSlotAs (slot : string) (b : Z) : Prop :=
  smallDecimal slot = Some b
  \/ (smallDecimal slot = None
      /\ Ethers.getBigInt (if JS.startsWith slot "0x" then slot else "0x" ++ slot) = Ok b
      /\ 0 <= b < 2 ^ 256).

(** ** A layout in the shape of the test contract

    Slots and members as the compiler lays out [TestContract.sol]: a
    [uint256], a [bool] and an [address] sharing slot 1, a string, a dynamic
    and a fixed array, the struct [Person] at slots 5 to 7, and mappings. *)

Module Demo.

Definition personType : string := "t_struct(Person)20_storage".

Definition exampleTypes : list (string * TypeInfo) :=
  [ ("t_uint256", mkTypeInfo "uint256" (Some "32") None);
    ("t_uint8", mkTypeInfo "uint8" (Some "1") None);
    ("t_bool", mkTypeInfo "bool" (Some "1") None);
    ("t_address", mkTypeInfo "address" (Some "20") None);
    ("t_string_storage", mkTypeInfo "string" (Some "32") None);
    ("t_array(t_uint256)dyn_storage", mkTypeInfo "uint256[]" (Some "32") None);
    ("t_array(t_uint256)5_storage", mkTypeInfo "uint256[5]" (Some "160") None);
    ("t_mapping(t_uint256,t_string_storage)",
     mkTypeInfo "mapping(uint256 => string)" (Some "32") None);
    ("t_mapping(t_string_memory_ptr,t_uint256)",
     mkTypeInfo "mapping(string => uint256)" (Some "32") None);
    ("t_mapping(t_address,t_struct(Person)20_storage)",
     mkTypeInfo "mapping(address => struct TestContract.Person)" (Some "32") None);
    (personType,
     mkTypeInfo "struct TestContract.Person" (Some "96")
       (Some [ mkMember "name" "0" 0 "t_string_storage";
               mkMember "age" "1" 0 "t_uint256";
               mkMember "wallet" "2" 0 "t_address";
               mkMember "active" "2" 20 "t_bool" ])) ].

Definition exampleLayout : StorageLayoutInfo :=
  mkLayout
    [ mkStorageVar "simpleUint" "0" 0 "t_uint256";
      mkStorageVar "simpleBool" "1" 0 "t_bool";
      mkStorageVar "simpleAddress" "1" 1 "t_address";
      mkStorageVar "simpleString" "2" 0 "t_string_storage";
      mkStorageVar "uintArray" "3" 0 "t_array(t_uint256)dyn_storage";
      mkStorageVar "stringMapping" "4" 0 "t_mapping(t_uint256,t_string_storage)";
      mkStorageVar "person" "5" 0 personType;
      mkStorageVar "fixedArray" "8" 0 "t_array(t_uint256)5_storage";
      mkStorageVar "personByAddress" "13" 0
                   "t_mapping(t_address,t_struct(Person)20_storage)";
      mkStorageVar "balanceByName" "14" 0 "t_mapping(t_string_memory_ptr,t_uint256)" ]
    exampleTypes.

Definition exampleArtifacts : artifactStore :=
  fun contract => if String.eqb contract "TestContract" then Some exampleLayout else None.

Definition noExtractedLayouts : hreLookup := fun _ => [].

Definition contractAt : string := "0x5fbdb2315678afecb367f032d93f642f64180aa3".

(** A network on which every slot of every contract holds the word [w]. *)
Definition networkHolding (w : Z) : Network :=
  mkNetwork (fun _ _ => units (word32 w)) [].

Definition resolve (variable : string) (path : option (list string)) : result StorageLocation :=
  getStorageLocation noExtractedLayouts exampleArtifacts "TestContract" variable path.

Definition write (variable : string) (path : option (list string)) (v : jsvalue)
           (net : Network) : bool * Network :=
  setState noExtractedLayouts exampleArtifacts
           (mkParams "TestContract" variable v path contractAt) net.

End Demo.

(** ** Vocabulary of the statements about whole runs *)

(** A hexadecimal digit in either case. *)
Definition isHexChar (c : ascii) : bool :=
  match JS.digitVal c with Some _ => true | None => false end.

(** What the EVM reads back from the word [w] for a field of [width] bytes
    that starts [off] bytes above the low-order end. *)
Definition fieldOf (w off width : Z) : Z := (w / 2 ^ (8 * off)) mod 2 ^ (8 * width).

(** The low [width] bytes of [w] read as a two's-complement integer. *)
Definition signedOf (width w : Z) : Z :=
  let m := w mod 2 ^ (8 * width) in
  if m <? 2 ^ (8 * width - 1) then m else m - 2 ^ (8 * width).

(** The layout of [contractName] declares [varName] as the entry [sv], whose
    type is described by [ti]. *)
Definition declares (artifacts : artifactStore) (contractName varName : string)
           (layout : StorageLayoutInfo) (sv : StorageVar) (ti : TypeInfo) : Prop :=
  artifacts contractName = Some layout
  /\ find (fun item => String.eqb (s_label item) varName) (storage layout) = Some sv
  /\ lookupType (types layout) (s_type sv) = Some ti.

(** The type has no members to list: it is no struct. *)
Definition memberless (ti : TypeInfo) : Prop :=
  t_members ti = None \/ t_members ti = Some [].

(** The location [findVariableLocation] builds for a declared variable
    whose type has no members. *)
Definition declaredLocation (layout : StorageLayoutInfo) (varName : string)
           (sv : StorageVar) (ti : TypeInfo) : VarLocation :=
  mkVarLocation varName (s_slot sv) (Some (s_offset sv))
                (JS.parseInt10 (orString (t_numberOfBytes ti) "0"))
                (s_type sv) None (Some layout) None.


(** ** A token contract

    The layout the compiler emits for a contract with a total supply, a
    balance and an allowance mapping, a list of checkpoints, three packed
    variables in slot 4, a fixed-size array, a mapping to structs and a
    struct from slot 16 on. *)

Module Token.

Definition limitsType : string := "t_struct(Limits)42_storage".

Definition tokenTypes : list (string * TypeInfo) :=
  [ ("t_uint256", mkTypeInfo "uint256" (Some "32") None);
    ("t_uint64", mkTypeInfo "uint64" (Some "8") None);
    ("t_uint8", mkTypeInfo "uint8" (Some "1") None);
    ("t_int64", mkTypeInfo "int64" (Some "8") None);
    ("t_bool", mkTypeInfo "bool" (Some "1") None);
    ("t_address", mkTypeInfo "address" (Some "20") None);
    ("t_array(t_address)dyn_storage", mkTypeInfo "address[]" (Some "32") None);
    ("t_array(t_uint256)dyn_storage", mkTypeInfo "uint256[]" (Some "32") None);
    ("t_array(t_uint256)4_storage", mkTypeInfo "uint256[4]" (Some "128") None);
    ("t_mapping(t_address,t_uint256)",
     mkTypeInfo "mapping(address => uint256)" (Some "32") None);
    ("t_mapping(t_address,t_mapping(t_address,t_uint256))",
     mkTypeInfo "mapping(address => mapping(address => uint256))" (Some "32") None);
    ("t_mapping(t_address,t_struct(Limits)42_storage)",
     mkTypeInfo "mapping(address => struct Token.Limits)" (Some "32") None);
    (limitsType,
     mkTypeInfo "struct Token.Limits" (Some "64")
       (Some [ mkMember "daily" "0" 0 "t_uint256";
               mkMember "perTransfer" "1" 0 "t_uint64";
               mkMember "drift" "1" 8 "t_int64" ])) ].

Definition tokenLayout : StorageLayoutInfo :=
  mkLayout
    [ mkStorageVar "totalSupply" "0" 0 "t_uint256";
      mkStorageVar "balances" "1" 0 "t_mapping(t_address,t_uint256)";
      mkStorageVar "allowances" "2" 0 "t_mapping(t_address,t_mapping(t_address,t_uint256))";
      mkStorageVar "checkpoints" "3" 0 "t_array(t_uint256)dyn_storage";
      mkStorageVar "owner" "4" 0 "t_address";
      mkStorageVar "paused" "4" 20 "t_bool";
      mkStorageVar "decimals" "4" 21 "t_uint8";
      mkStorageVar "quorum" "5" 0 "t_array(t_uint256)4_storage";
      mkStorageVar "limitsOf" "9" 0 "t_mapping(t_address,t_struct(Limits)42_storage)";
      mkStorageVar "limits" "16" 0 limitsType ]
    tokenTypes.

Definition tokenArtifacts : artifactStore :=
  fun contract => if String.eqb contract "Token" then Some tokenLayout else None.

(** A layout file cut down by hand: the struct is kept, and of the types of
    its members only [t_uint256] is described. *)
Definition trimmedLayout : StorageLayoutInfo :=
  mkLayout
    [ mkStorageVar "limits" "0" 0 limitsType ]
    [ (limitsType,
       mkTypeInfo "struct Token.Limits" (Some "64")
         (Some [ mkMember "daily" "0" 0 "t_uint256";
                 mkMember "perTransfer" "1" 0 "t_uint64" ]));
      ("t_uint256", mkTypeInfo "uint256" (Some "32") None) ].

Definition trimmedArtifacts : artifactStore :=
  fun contract => if String.eqb contract "Token" then Some trimmedLayout else None.

Definition tokenAt : string := "0xe7f1725e7734ce288f8367e1bb143e90bb3f0512".

Definition holder : string := "0x70997970C51812dc3A010C7d01b50e0d17dc79C8".

End Token.

(** ** Digits: printing and parsing agree *)

Lemma digitVal_digitChar (d : Z) :
  0 <= d < 16 -> JS.digitVal (JS.digitChar d) = Some d.
Proof.
  intros H.
  assert (E : d = 0 \/ d = 1 \/ d = 2 \/ d = 3 \/ d = 4 \/ d = 5 \/ d = 6 \/ d = 7 \/
              d = 8 \/ d = 9 \/ d = 10 \/ d = 11 \/ d = 12 \/ d = 13 \/ d = 14 \/ d = 15)
    by lia.
  repeat (destruct E as [E | E]; [subst d; reflexivity |]).
  subst d; reflexivity.
Qed.

Lemma digitChar_lowerHex (d : Z) :
  0 <= d < 16 -> isLowerHexChar (JS.digitChar d) = true.
Proof.
  intros H.
  assert (E : d = 0 \/ d = 1 \/ d = 2 \/ d = 3 \/ d = 4 \/ d = 5 \/ d = 6 \/ d = 7 \/
              d = 8 \/ d = 9 \/ d = 10 \/ d = 11 \/ d = 12 \/ d = 13 \/ d = 14 \/ d = 15)
    by lia.
  repeat (destruct E as [E | E]; [subst d; reflexivity |]).
  subst d; reflexivity.
Qed.

Lemma parse_toDigits (radix : Z) (f : nat) :
  2 <= radix <= 16 ->
  forall z acc, 0 <= z < 2 ^ Z.of_nat f ->
    JS.parseDigits radix (JS.toDigits f radix z acc) 0 = JS.parseDigits radix acc z.
Proof.
  intros Hr. induction f as [| f IH]; intros z acc Hz.
  - simpl in *. assert (z = 0) by lia. now subst.
  - cbn [JS.toDigits].
    assert (Hm : 0 <= z mod radix < radix) by (apply Z.mod_pos_bound; lia).
    assert (Hd : JS.digitVal (JS.digitChar (z mod radix)) = Some (z mod radix))
      by (apply digitVal_digitChar; lia).
    assert (Hlt : (z mod radix <? radix) = true) by (apply Z.ltb_lt; lia).
    assert (Hz' : z = radix * (z / radix) + z mod radix) by (apply Z.div_mod; lia).
    destruct (z / radix =? 0) eqn:Hq.
    + apply Z.eqb_eq in Hq. cbn [JS.parseDigits]. rewrite Hd, Hlt.
      f_equal. lia.
    + apply Z.eqb_neq in Hq.
      rewrite IH.
      * cbn [JS.parseDigits]. rewrite Hd, Hlt. f_equal. lia.
      * split; [apply Z.div_pos; lia |].
        apply Z.div_lt_upper_bound; [lia |].
        rewrite Nat2Z.inj_succ, Z.pow_succ_r in Hz by lia.
        assert (0 < 2 ^ Z.of_nat f) by (apply Z.pow_pos_nonneg; lia).
        nia.
Qed.

Lemma enough_fuel (z : Z) :
  0 <= z -> z < 2 ^ Z.of_nat (S (Z.to_nat (Z.log2 z))).
Proof.
  intros Hz.
  rewrite Nat2Z.inj_succ, Z2Nat.id by apply Z.log2_nonneg.
  destruct (Z.eq_dec z 0) as [-> | Hn]; [reflexivity |].
  apply Z.log2_spec. lia.
Qed.

Lemma parse_natToString (radix z : Z) :
  2 <= radix <= 16 -> 0 <= z ->
  JS.parseDigits radix (JS.natToString radix z) 0 = Some z.
Proof.
  intros Hr Hz. unfold JS.natToString.
  rewrite parse_toDigits; [reflexivity | assumption |].
  split; [assumption | now apply enough_fuel].
Qed.

Lemma toDigits_nonEmpty (f : nat) (radix z : Z) (acc : string) :
  JS.nonEmpty acc = true -> JS.nonEmpty (JS.toDigits f radix z acc) = true.
Proof.
  revert z acc. induction f as [| f IH]; intros z acc H; [exact H |].
  cbn [JS.toDigits]. destruct (z / radix =? 0); [reflexivity |].
  apply IH. reflexivity.
Qed.

Lemma natToString_nonEmpty (radix z : Z) :
  JS.nonEmpty (JS.natToString radix z) = true.
Proof.
  unfold JS.natToString. cbn [JS.toDigits].
  destruct (z / radix =? 0); [reflexivity |].
  now apply toDigits_nonEmpty.
Qed.

Lemma toDigits_allChars (P : ascii -> bool) (f : nat) (radix : Z) :
  0 < radix ->
  (forall d, 0 <= d < radix -> P (JS.digitChar d) = true) ->
  forall z acc, JS.allChars P acc = true ->
    JS.allChars P (JS.toDigits f radix z acc) = true.
Proof.
  intros Hr HP. induction f as [| f IH]; intros z acc H; [exact H |].
  cbn [JS.toDigits].
  assert (Hc : JS.allChars P (String (JS.digitChar (z mod radix)) acc) = true).
  { cbn [JS.allChars]. rewrite HP, H; [reflexivity |].
    apply Z.mod_pos_bound; lia. }
  destruct (z / radix =? 0); [exact Hc | now apply IH].
Qed.

Lemma natToString_lowerHex (radix z : Z) :
  2 <= radix <= 16 -> lowerHex (JS.natToString radix z) = true.
Proof.
  intros Hr. unfold lowerHex, JS.natToString.
  apply toDigits_allChars; [lia | | reflexivity].
  intros d Hd. apply digitChar_lowerHex. lia.
Qed.

(** ** Strings *)

Ltac bool_prop :=
  repeat match goal with
         | H : _ && _ = true |- _ => apply andb_true_iff in H; destruct H
         | H : _ || _ = false |- _ => apply orb_false_iff in H; destruct H
         | H : negb _ = true |- _ => apply negb_true_iff in H
         | H : negb _ = false |- _ => apply negb_false_iff in H
         | H : (_ <=? _) = true |- _ => apply Z.leb_le in H
         | H : (_ <=? _) = false |- _ => apply Z.leb_gt in H
         | H : (_ <? _) = true |- _ => apply Z.ltb_lt in H
         | H : (_ <? _) = false |- _ => apply Z.ltb_ge in H
         | H : (_ =? _) = true |- _ => apply Z.eqb_eq in H
         | H : (_ =? _) = false |- _ => apply Z.eqb_neq in H
         end.

Lemma append_nil_r (s : string) : s ++ "" = s.
Proof. induction s as [| c s IH]; [reflexivity | simpl; now rewrite IH]. Qed.

Lemma append_assoc (a b c : string) : (a ++ b) ++ c = a ++ (b ++ c).
Proof. induction a as [| x a IH]; [reflexivity | simpl; now rewrite IH]. Qed.

Lemma length_append (a b : string) :
  String.length (a ++ b) = (String.length a + String.length b)%nat.
Proof. induction a as [| x a IH]; [reflexivity | simpl; now rewrite IH]. Qed.

Lemma length_repeatChar (c : ascii) (n : nat) : String.length (JS.repeatChar c n) = n.
Proof. induction n as [| n IH]; [reflexivity | simpl; now rewrite IH]. Qed.

Lemma allChars_append (P : ascii -> bool) (a b : string) :
  JS.allChars P (a ++ b) = JS.allChars P a && JS.allChars P b.
Proof.
  induction a as [| x a IH]; [reflexivity |].
  simpl. rewrite IH. now rewrite andb_assoc.
Qed.

Lemma allChars_repeatChar (P : ascii -> bool) (c : ascii) (n : nat) :
  P c = true -> JS.allChars P (JS.repeatChar c n) = true.
Proof. intros H. induction n as [| n IH]; [reflexivity | simpl; now rewrite H, IH]. Qed.

Lemma allChars_impl (P Q : ascii -> bool) (s : string) :
  (forall c, P c = true -> Q c = true) ->
  JS.allChars P s = true -> JS.allChars Q s = true.
Proof.
  intros HPQ. induction s as [| c s IH]; [reflexivity |].
  simpl. intros H. apply andb_true_iff in H as [H1 H2].
  now rewrite (HPQ _ H1), IH.
Qed.

Lemma rev_rev (s a b : string) : JS.rev (JS.rev s a) b = JS.rev a (s ++ b).
Proof.
  revert a b. induction s as [| c s IH]; intros a b; [reflexivity |].
  simpl. now rewrite IH.
Qed.

Lemma rev_allChars (P : ascii -> bool) (s acc : string) :
  JS.allChars P (JS.rev s acc) = JS.allChars P s && JS.allChars P acc.
Proof.
  revert acc. induction s as [| c s IH]; intros acc; [reflexivity |].
  simpl. rewrite IH. simpl.
  destruct (P c), (JS.allChars P s), (JS.allChars P acc); reflexivity.
Qed.

Lemma dropWhile_noWhite (s : string) : noWhite s = true -> JS.dropWhile JS.isWhite s = s.
Proof.
  destruct s as [| c s]; [reflexivity |].
  unfold noWhite. simpl. intros H. apply andb_true_iff in H as [H _].
  apply negb_true_iff in H. now rewrite H.
Qed.

Lemma trim_noWhite (s : string) : noWhite s = true -> JS.trim s = s.
Proof.
  intros H. unfold JS.trim, JS.trimStart.
  rewrite (dropWhile_noWhite s H).
  rewrite dropWhile_noWhite.
  - rewrite rev_rev. simpl. apply append_nil_r.
  - unfold noWhite in *. rewrite rev_allChars, H. reflexivity.
Qed.

Lemma lowerHex_noWhite (s : string) : lowerHex s = true -> noWhite s = true.
Proof.
  apply allChars_impl. intros c H.
  unfold isLowerHexChar, JS.isWhite in *.
  apply negb_true_iff.
  apply orb_true_iff in H as [H | H]; bool_prop;
    repeat (apply orb_false_iff; split); try apply andb_false_iff;
    try (apply Z.eqb_neq; lia);
    try (left; apply Z.leb_gt; lia); try (right; apply Z.leb_gt; lia).
Qed.

Lemma isDigit_lowerHex (c : ascii) : JS.isDigit c = true -> isLowerHexChar c = true.
Proof.
  unfold JS.isDigit, isLowerHexChar. intros H. now rewrite H.
Qed.

Lemma allDigits_lowerHex (s : string) : JS.allDigits s = true -> lowerHex s = true.
Proof.
  unfold JS.allDigits. intros H. apply andb_true_iff in H as [_ H].
  revert H. apply allChars_impl, isDigit_lowerHex.
Qed.

Lemma parse_leading_zeros (radix : Z) (n : nat) (s : string) :
  0 < radix ->
  JS.parseDigits radix (JS.repeatChar "0" n ++ s) 0 = JS.parseDigits radix s 0.
Proof.
  intros Hr. induction n as [| n IH]; [reflexivity |].
  simpl JS.repeatChar. simpl append. cbn [JS.parseDigits].
  change (JS.digitVal "0") with (Some 0). cbv iota beta.
  assert (E : (0 <? radix) = true) by (apply Z.ltb_lt; lia).
  rewrite E. rewrite Z.mul_0_l, Z.add_0_l. exact IH.
Qed.

Lemma nonEmpty_append_r (a b : string) :
  JS.nonEmpty b = true -> JS.nonEmpty (a ++ b) = true.
Proof. destruct a; [trivial | reflexivity]. Qed.

(** A padded hexadecimal numeral reads back as its value. *)
Lemma parse_padStart_hex (z : Z) (n : nat) :
  0 <= z ->
  JS.parseNonEmpty 16 (JS.padStart (JS.toString 16 z) n "0") = Some z.
Proof.
  intros Hz. unfold JS.parseNonEmpty, JS.padStart, JS.toString.
  assert (E : (z <? 0) = false) by (apply Z.ltb_ge; lia). rewrite E.
  rewrite nonEmpty_append_r by apply natToString_nonEmpty.
  rewrite parse_leading_zeros by lia.
  apply parse_natToString; lia.
Qed.

Lemma padStart_lowerHex (z : Z) (n : nat) :
  0 <= z -> lowerHex (JS.padStart (JS.toString 16 z) n "0") = true.
Proof.
  intros Hz. unfold JS.padStart, JS.toString, lowerHex.
  assert (E : (z <? 0) = false) by (apply Z.ltb_ge; lia). rewrite E.
  rewrite allChars_append, allChars_repeatChar by reflexivity.
  apply natToString_lowerHex. lia.
Qed.

(** [BigInt("0x" + digits)] for lower-case hexadecimal digits. *)
Lemma StringToBigInt_0x (body : string) :
  lowerHex body = true ->
  JS.StringToBigInt ("0x" ++ body) = JS.parseNonEmpty 16 body.
Proof.
  intros H. unfold JS.StringToBigInt.
  rewrite trim_noWhite; [reflexivity |].
  apply lowerHex_noWhite in H. unfold noWhite in *. simpl. exact H.
Qed.

Lemma BigInt_word32 (z : Z) : 0 <= z -> JS.BigInt_of_string (word32 z) = Ok z.
Proof.
  intros Hz. unfold JS.BigInt_of_string, word32.
  rewrite StringToBigInt_0x by now apply padStart_lowerHex.
  now rewrite parse_padStart_hex.
Qed.

Lemma toString_as_padStart (z : Z) : JS.toString 16 z = JS.padStart (JS.toString 16 z) 0 "0".
Proof. reflexivity. Qed.

Lemma StringToBigInt_hex (z : Z) :
  0 <= z -> JS.StringToBigInt ("0x" ++ JS.toString 16 z) = Some z.
Proof.
  intros Hz. rewrite toString_as_padStart.
  rewrite StringToBigInt_0x by now apply padStart_lowerHex.
  now apply parse_padStart_hex.
Qed.

Lemma getBigInt_hex (z : Z) :
  0 <= z -> Ethers.getBigInt ("0x" ++ JS.toString 16 z) = Ok z.
Proof.
  intros Hz. unfold Ethers.getBigInt.
  change ("0x" ++ JS.toString 16 z) with (String "0" (String "x" (JS.toString 16 z))).
  cbv iota beta.
  change (String "0" (String "x" (JS.toString 16 z))) with ("0x" ++ JS.toString 16 z).
  now rewrite StringToBigInt_hex.
Qed.

(** ** Decimal digit strings *)

Lemma parseDigits_digits (s : string) :
  JS.allChars JS.isDigit s = true ->
  forall acc, 0 <= acc -> exists k, JS.parseDigits 10 s acc = Some k /\ 0 <= k.
Proof.
  induction s as [| c s IH]; intros H acc Hacc.
  - exists acc. now split.
  - simpl in H. apply andb_true_iff in H as [Hc Hs].
    cbn [JS.parseDigits]. unfold JS.digitVal.
    unfold JS.isDigit in Hc. rewrite Hc.
    apply andb_true_iff in Hc as [H1 H2]. bool_prop.
    assert (E : (JS.code c - 48 <? 10) = true) by (apply Z.ltb_lt; lia).
    rewrite E. apply IH; [assumption | lia].
Qed.

Lemma isDigit_not (c d : ascii) :
  JS.isDigit c = true -> JS.isDigit d = false -> Ascii.eqb c d = false.
Proof.
  intros Hc Hd. destruct (Ascii.eqb_spec c d) as [-> | _]; [congruence | reflexivity].
Qed.

Lemma isDigit_notWhite (c : ascii) : JS.isDigit c = true -> JS.isWhite c = false.
Proof.
  intros H. apply isDigit_lowerHex in H.
  assert (N : noWhite (String c "") = true).
  { apply lowerHex_noWhite. unfold lowerHex. simpl. now rewrite H. }
  unfold noWhite in N. simpl in N. rewrite andb_true_r in N.
  now apply negb_true_iff in N.
Qed.

Lemma takeWhile_all (P : ascii -> bool) (s : string) :
  JS.allChars P s = true -> JS.takeWhile P s = s.
Proof.
  induction s as [| c s IH]; [reflexivity |].
  simpl. intros H. apply andb_true_iff in H as [H1 H2].
  now rewrite H1, IH.
Qed.

(** On a string of decimal digits [parseInt] and [BigInt] read the same
    integer; [parseInt] then rounds it to a double. *)
Lemma digits_read (s : string) :
  JS.allDigits s = true ->
  exists k, 0 <= k
            /\ JS.parseNonEmpty 10 s = Some k
            /\ JS.parseInt10 s = JS.roundToDouble k
            /\ JS.StringToBigInt s = Some k.
Proof.
  intros H. pose proof (allDigits_lowerHex s H) as Hhex.
  unfold JS.allDigits in H. apply andb_true_iff in H as [Hne Hall].
  destruct s as [| c r]; [discriminate |].
  pose proof Hall as Hall'. simpl in Hall'. apply andb_true_iff in Hall' as [Hc Hr].
  destruct (parseDigits_digits _ Hall 0) as [k [Hk Hk0]]; [lia |].
  exists k. split; [assumption |].
  assert (Hminus : Ascii.eqb c "-" = false) by (now apply isDigit_not).
  assert (Hplus : Ascii.eqb c "+" = false) by (now apply isDigit_not).
  assert (Hdec : JS.parseNonEmpty 10 (String c r) = Some k)
    by (unfold JS.parseNonEmpty; simpl JS.nonEmpty; cbv iota; exact Hk).
  split; [exact Hdec |]. split.
  - unfold JS.parseInt10, JS.trimStart. simpl JS.dropWhile.
    rewrite (isDigit_notWhite c Hc), Hminus, Hplus.
    rewrite takeWhile_all by exact Hall.
    now rewrite Hdec.
  - unfold JS.StringToBigInt.
    rewrite trim_noWhite by now apply lowerHex_noWhite.
    rewrite Hminus, Hplus.
    destruct (Ascii.eqb c "0"); [| exact Hdec].
    destruct r as [| p r']; [exact Hdec |].
    simpl in Hr. apply andb_true_iff in Hr as [Hp _].
    rewrite !(isDigit_not p) by (assumption || reflexivity).
    exact Hdec.
Qed.

Lemma roundToDouble_exact (z n : Z) :
  0 <= z -> JS.roundToDouble z = JS.JNum n -> n < 2 ^ 52 -> n = z.
Proof.
  intros Hz. unfold JS.roundToDouble.
  rewrite (Z.abs_eq z Hz).
  destruct (z <? 2 ^ 53) eqn:E; [intros [= ->]; reflexivity |].
  apply Z.ltb_ge in E. cbv zeta.
  set (e := Z.log2 z - 52).
  set (q := Z.shiftr z e).
  match goal with
  | |- context [if ?c then q + 1 else q] => set (q' := if c then q + 1 else q)
  end.
  destruct (2 ^ 1024 <=? Z.shiftl q' e); [discriminate |].
  intros [= <-] Hn. exfalso.
  assert (Hlog : 53 <= Z.log2 z) by (apply Z.log2_le_pow2; lia).
  assert (He : 0 <= e) by (unfold e; lia).
  assert (Hpow : 2 ^ Z.log2 z <= z) by (apply Z.log2_spec; lia).
  assert (Hq : 2 ^ 52 <= q).
  { unfold q. rewrite Z.shiftr_div_pow2 by exact He.
    assert (Hsplit : 2 ^ Z.log2 z = 2 ^ 52 * 2 ^ e).
    { rewrite <- Z.pow_add_r by lia. f_equal. unfold e. lia. }
    assert (0 < 2 ^ e) by (apply Z.pow_pos_nonneg; lia).
    apply Z.div_le_lower_bound; lia. }
  assert (Hq' : q <= q').
  { unfold q'. match goal with |- context [if ?c then _ else _] => destruct c end; lia. }
  rewrite Z.shiftl_mul_pow2 in Hn by exact He.
  assert (1 <= 2 ^ e) by (assert (0 < 2 ^ e) by (apply Z.pow_pos_nonneg; lia); lia).
  assert (Hs : Z.sgn z = 1) by (apply Z.sgn_pos; lia).
  rewrite Hs in Hn. nia.
Qed.

(** The test of the small decimals returns the integer the digits denote. *)
Lemma smallDecimal_reads (s : string) (n : Z) :
  smallDecimal s = Some n ->
  JS.allDigits s = true /\ 0 <= n < 1000 /\ JS.StringToBigInt s = Some n.
Proof.
  unfold smallDecimal. destruct (JS.allDigits s) eqn:Hd; [| discriminate].
  destruct (digits_read s Hd) as [k [Hk [_ [Hp Hb]]]].
  rewrite Hp. destruct (JS.roundToDouble k) as [m | |] eqn:Hr; try discriminate.
  destruct (m <? 1000) eqn:Hm; [| discriminate].
  intros [= <-]. apply Z.ltb_lt in Hm.
  assert (m = k) by (apply roundToDouble_exact; [assumption .. | lia]).
  subst m. repeat split; (assumption || lia).
Qed.

Lemma startsWith_0x (s : string) : JS.startsWith ("0x" ++ s) "0x" = true.
Proof. reflexivity. Qed.

Lemma allDigits_not_0x (s : string) :
  JS.allDigits s = true -> JS.startsWith s "0x" = false.
Proof.
  intros H. unfold JS.allDigits in H. apply andb_true_iff in H as [_ H].
  destruct s as [| a [| b r]]; try reflexivity.
  - simpl. apply andb_false_r.
  - simpl in H. apply andb_true_iff in H as [_ H]. apply andb_true_iff in H as [Hb _].
    cbn [JS.startsWith].
    destruct (Ascii.eqb_spec "x" b) as [<- | _]; [discriminate |].
    simpl. apply andb_false_r.
Qed.

(** ** Fixed-size arrays: [calculateArraySlot] *)

(** C9 (as amended).  For a fixed-size array whose base slot is given as a
    0x-prefixed hexadecimal string denoting [b], and for every integral
    index [i] with [b + i >= 0], the element slot is [b + i], one slot per
    element: the sum is returned as it is, without reduction modulo 2^256,
    and no bound on the index is consulted. *)
Theorem fixed_array_slot_is_plain_sum (baseSlot : string) (b i : Z) :
  JS.startsWith baseSlot "0x" = true ->
  Ethers.getBigInt baseSlot = Ok b ->
  0 <= b + i ->
  exists s, calculateArraySlot baseSlot (JS.JNum i) = Ok s
            /\ Ethers.getBigInt s = Ok (b + i).
Proof.
  intros Hp Hb Hi. unfold calculateArraySlot.
  rewrite Hp, Hb. cbn [bind JS.BigInt_of_number].
  eexists. split; [reflexivity |].
  now apply getBigInt_hex.
Qed.

Lemma fixed_array_slot_is_plain_sum_witness :
  JS.startsWith "0x3" "0x" = true
  /\ Ethers.getBigInt "0x3" = Ok 3
  /\ 0 <= 3 + 1000
  /\ exists s, calculateArraySlot "0x3" (JS.JNum 1000) = Ok s
               /\ Ethers.getBigInt s = Ok (3 + 1000).
Proof.
  split; [reflexivity |]. split; [reflexivity |]. split; [lia |].
  apply (fixed_array_slot_is_plain_sum "0x3" 3 1000); [reflexivity | reflexivity | lia].
Defined.

(** C9 as stated fails: one past the last slot, the element slot is 2^256
    and not its residue 0. *)
Lemma fixed_array_slot_is_not_reduced :
  ~ exists s,
      calculateArraySlot
        "0xffffffffffffffffffffffffffffffffffffffffffffffffffffffffffffffff"
        (JS.JNum 1) = Ok s
      /\ Ethers.getBigInt s = Ok ((2 ^ 256 - 1 + 1) mod 2 ^ 256).
Proof.
  intros [s [H1 H2]].
  vm_compute in H1. injection H1 as <-.
  vm_compute in H2. discriminate H2.
Qed.

(** Index 1000 on the array of five elements at slot 8 is resolved, to slot
    8 + 1000. *)
Lemma index_beyond_length_is_resolved :
  Demo.resolve "fixedArray" (Some ["1000"])
  = Ok (mkStorageLocation "0x3f0" None (JS.JNum 32) "t_uint256" None).
Proof. vm_compute. reflexivity. Qed.

(** A base slot given in bare decimal digits is prefixed with 0x and read
    as hexadecimal: the array at slot "12" has its element 1 at slot
    0x12 + 1 = 19, where the dynamic-array rule and the mapping rule read
    the same string as slot 12. *)
Lemma bare_decimal_base_slot_is_read_as_hex :
  calculateArraySlot "12" (JS.JNum 1) = Ok "0x13"
  /\ smallDecimal "12" = Some 12
  /\ JS.BigInt_of_string "12" = Ok 12.
Proof. repeat split; vm_compute; reflexivity. Qed.

(** ** Mappings: the two branches of [calculateMappingSlot] *)

Lemma smallDecimal_0x (s : string) : smallDecimal ("0x" ++ s) = None.
Proof. reflexivity. Qed.

(** C10 (as amended).  For a slot given as a string of decimal digits with
    value [n] below 1000 and for every key, the branch of the small slots
    computes what the general branch computes for the same slot value
    written in 0x-prefixed hexadecimal; so [calculateMappingSlot] answers
    the same for the two spellings of the slot. *)
Theorem small_slot_branch_is_general_branch_on_hex (slot key : string) (n : Z) :
  smallDecimal slot = Some n ->
  mappingSlotSmall n key = mappingSlotGeneral ("0x" ++ JS.toString 16 n) key
  /\ calculateMappingSlot slot key = calculateMappingSlot ("0x" ++ JS.toString 16 n) key.
Proof.
  intros H.
  assert (Hbranch : mappingSlotSmall n key
                    = mappingSlotGeneral ("0x" ++ JS.toString 16 n) key).
  { apply smallDecimal_reads in H as (_ & Hn & _).
    unfold mappingSlotSmall, mappingSlotGeneral.
    rewrite startsWith_0x, getBigInt_hex by lia. cbn [bind].
    destruct (smallDecimal key) as [k |] eqn:Hk; [| reflexivity].
    apply smallDecimal_reads in Hk as (Hd & Hk & Hb).
    rewrite allDigits_not_0x, Hd by assumption.
    unfold JS.BigInt_of_string. rewrite Hb. reflexivity. }
  split; [exact Hbranch |].
  unfold calculateMappingSlot. rewrite H, smallDecimal_0x. now rewrite Hbranch.
Qed.

Lemma small_slot_branch_is_general_branch_on_hex_witness :
  smallDecimal "10" = Some 10
  /\ mappingSlotSmall 10 "1" = mappingSlotGeneral ("0x" ++ JS.toString 16 10) "1"
  /\ calculateMappingSlot "10" "1" = calculateMappingSlot ("0x" ++ JS.toString 16 10) "1".
Proof.
  split; [vm_compute; reflexivity |].
  apply (small_slot_branch_is_general_branch_on_hex "10" "1" 10).
  vm_compute; reflexivity.
Defined.

(** C10 as stated fails: handed the decimal string "10" itself, the general
    branch reads the digits as hexadecimal (slot 16) and hashes another
    word than the branch of the small slots (slot 10). *)
Lemma small_and_general_branch_differ :
  smallDecimal "10" = Some 10
  /\ mappingSlotSmall 10 "1" <> mappingSlotGeneral "10" "1".
Proof.
  split; [vm_compute; reflexivity |].
  intros H. vm_compute in H. discriminate H.
Qed.

(** ** Strings as code units *)

Lemma code_bound (c : ascii) : 0 <= JS.code c < 256.
Proof.
  unfold JS.code. pose proof (nat_ascii_bounded c). lia.
Qed.

Lemma chr_code (c : ascii) : JS.chr (JS.code c) = c.
Proof.
  unfold JS.chr, JS.code. rewrite Nat2Z.id. apply ascii_nat_embedding.
Qed.

Lemma latin1_units (s : string) : latin1 (units s) = Some s.
Proof.
  induction s as [| c s IH]; [reflexivity |].
  simpl. pose proof (code_bound c) as [H1 H2].
  apply Z.leb_le in H1. apply Z.ltb_lt in H2. rewrite H1, H2, IH. simpl.
  now rewrite chr_code.
Qed.

Lemma isWhiteUnit_code (c : ascii) : isWhiteUnit (JS.code c) = JS.isWhite c.
Proof.
  unfold isWhiteUnit, JS.isWhite. pose proof (code_bound c) as Hb.
  set (k := JS.code c) in *.
  assert (E1 : (k =? 5760) = false) by (apply Z.eqb_neq; lia).
  assert (E2 : (8192 <=? k) = false) by (apply Z.leb_gt; lia).
  assert (E3 : (k =? 8232) = false) by (apply Z.eqb_neq; lia).
  assert (E4 : (k =? 8233) = false) by (apply Z.eqb_neq; lia).
  assert (E5 : (k =? 8239) = false) by (apply Z.eqb_neq; lia).
  assert (E6 : (k =? 8287) = false) by (apply Z.eqb_neq; lia).
  assert (E7 : (k =? 12288) = false) by (apply Z.eqb_neq; lia).
  assert (E8 : (k =? 65279) = false) by (apply Z.eqb_neq; lia).
  rewrite E1, E2, E3, E4, E5, E6, E7, E8. simpl. now rewrite !orb_false_r.
Qed.

Lemma units_noWhite (s : string) :
  noWhite s = true -> Forall (fun k => isWhiteUnit k = false) (units s).
Proof.
  unfold noWhite. induction s as [| c s IH]; simpl; intros H; constructor.
  - apply andb_true_iff in H as [H _]. apply negb_true_iff in H.
    now rewrite isWhiteUnit_code.
  - apply IH. now apply andb_true_iff in H as [_ H].
Qed.

Lemma dropWhite_id (u : ustring) :
  Forall (fun k => isWhiteUnit k = false) u -> dropWhite u = u.
Proof.
  intros H. destruct H as [| k r Hk _]; [reflexivity |].
  simpl. now rewrite Hk.
Qed.

Lemma trimUnits_id (u : ustring) :
  Forall (fun k => isWhiteUnit k = false) u -> trimUnits u = u.
Proof.
  intros H. unfold trimUnits.
  rewrite (dropWhite_id u H).
  rewrite dropWhite_id by now apply Forall_rev.
  apply rev_involutive.
Qed.

Lemma BigInt_of_units_string (s : string) :
  noWhite s = true -> BigInt_of_units (units s) = JS.BigInt_of_string s.
Proof.
  intros H. unfold BigInt_of_units.
  rewrite trimUnits_id by now apply units_noWhite.
  now rewrite latin1_units.
Qed.

Lemma word32_noWhite (z : Z) : 0 <= z -> noWhite (word32 z) = true.
Proof.
  intros Hz. unfold word32, noWhite.
  pose proof (lowerHex_noWhite _ (padStart_lowerHex z 64 Hz)) as H.
  unfold noWhite in H. simpl. exact H.
Qed.

Lemma BigInt_of_units_word32 (z : Z) :
  0 <= z -> BigInt_of_units (units (word32 z)) = Ok z.
Proof.
  intros Hz. rewrite BigInt_of_units_string by now apply word32_noWhite.
  now apply BigInt_word32.
Qed.

(** ** The partial-word merge *)

Lemma testbit_mergeWord (c v o s n : Z) :
  0 <= o -> 0 <= s -> 0 <= n ->
  Z.testbit (mergeWord c v o s) n =
  if (o <=? n) && (n <? o + s) then Z.testbit v (n - o) else Z.testbit c n.
Proof.
  intros Ho Hs Hn. unfold mergeWord.
  replace (Z.shiftl 1 s - 1) with (Z.ones s) by (unfold Z.ones; lia).
  rewrite Z.lor_spec, !Z.land_spec, Z.lnot_spec, !Z.shiftl_spec by assumption.
  destruct (o <=? n) eqn:E1; simpl.
  - apply Z.leb_le in E1.
    rewrite Z.testbit_ones_nonneg by lia.
    destruct (n <? o + s) eqn:E2.
    + apply Z.ltb_lt in E2.
      assert (E : (n - o <? s) = true) by (apply Z.ltb_lt; lia).
      rewrite E. simpl. now rewrite andb_false_r, andb_true_r.
    + apply Z.ltb_ge in E2.
      assert (E : (n - o <? s) = false) by (apply Z.ltb_ge; lia).
      rewrite E. simpl. now rewrite andb_true_r, andb_false_r, orb_false_r.
  - apply Z.leb_gt in E1.
    rewrite (Z.testbit_neg_r (Z.ones s)) by lia.
    simpl. now rewrite andb_true_r, andb_false_r, orb_false_r.
Qed.

Lemma testbit_byteAt (w j n : Z) :
  0 <= j -> 0 <= n ->
  Z.testbit (byteAt w j) n = (n <? 8) && Z.testbit w (n + 8 * j).
Proof.
  intros Hj Hn. unfold byteAt.
  change 255 with (Z.ones 8).
  rewrite Z.land_spec, Z.shiftr_spec, Z.testbit_ones_nonneg by lia.
  apply andb_comm.
Qed.

Lemma mergeWord_bytes (c v off width j : Z) :
  0 <= off -> 0 <= width -> 0 <= j ->
  byteAt (mergeWord c v (off * 8) (width * 8)) j =
  if (off <=? j) && (j <? off + width) then byteAt v (j - off) else byteAt c j.
Proof.
  intros Ho Hw Hj. apply Z.bits_inj'. intros n Hn.
  rewrite testbit_byteAt by assumption.
  destruct (n <? 8) eqn:E8.
  - apply Z.ltb_lt in E8. rewrite andb_true_l.
    rewrite testbit_mergeWord by lia.
    assert (C : (n <? 8) = true) by (apply Z.ltb_lt; lia).
    destruct ((off <=? j) && (j <? off + width)) eqn:E.
    + apply andb_true_iff in E as [E1 E2]. bool_prop.
      assert (A : (off * 8 <=? n + 8 * j) = true) by (apply Z.leb_le; lia).
      assert (B : (n + 8 * j <? off * 8 + width * 8) = true) by (apply Z.ltb_lt; lia).
      rewrite A, B. cbn [andb].
      rewrite testbit_byteAt by lia.
      assert (C' : (n <? 8) = true) by (apply Z.ltb_lt; lia).
      rewrite C', andb_true_l.
      f_equal. lia.
    + assert (A : (off * 8 <=? n + 8 * j) && (n + 8 * j <? off * 8 + width * 8) = false).
      { apply andb_false_iff in E as [E | E]; apply andb_false_iff; bool_prop;
          [left; apply Z.leb_gt; lia | right; apply Z.ltb_ge; lia]. }
      rewrite A. rewrite testbit_byteAt by lia.
      assert (C' : (n <? 8) = true) by (apply Z.ltb_lt; lia).
      now rewrite C'.
  - rewrite andb_false_l.
    destruct ((off <=? j) && (j <? off + width)) eqn:E.
    + apply andb_true_iff in E as [E1 E2].
      apply Z.leb_le in E1. apply Z.ltb_lt in E2.
      rewrite testbit_byteAt by lia. now rewrite E8.
    + rewrite testbit_byteAt by lia. now rewrite E8.
Qed.

Lemma mergeWord_range (c v o s : Z) :
  0 <= c < 2 ^ 256 -> 0 <= v -> 0 <= o -> 0 <= s -> o + s <= 256 ->
  0 <= mergeWord c v o s < 2 ^ 256.
Proof.
  intros Hc Hv Ho Hs Hos.
  assert (Hnn : 0 <= mergeWord c v o s).
  { unfold mergeWord. apply Z.lor_nonneg. split.
    - apply Z.land_nonneg. left. lia.
    - apply Z.land_nonneg. left. apply Z.shiftl_nonneg. lia. }
  split; [exact Hnn |].
  assert (E : mergeWord c v o s = mergeWord c v o s mod 2 ^ 256).
  { apply Z.bits_inj'. intros n Hn.
    rewrite Z.testbit_mod_pow2 by lia.
    destruct (n <? 256) eqn:E; [reflexivity |].
    apply Z.ltb_ge in E. simpl.
    rewrite testbit_mergeWord by lia.
    assert (A : (n <? o + s) = false) by (apply Z.ltb_ge; lia).
    rewrite A, andb_false_r.
    destruct (Z.eq_dec c 0) as [-> | Hc0]; [apply Z.bits_0 |].
    apply Z.bits_above_log2; [lia |].
    apply Z.log2_lt_pow2; [lia |].
    apply Z.lt_le_trans with (2 ^ 256); [lia | apply Z.pow_le_mono_r; lia]. }
  rewrite E. apply Z.mod_pos_bound. lia.
Qed.

(** C7.  When a slot holds the 32-byte word [cur] and the encoded value is
    the 32-byte word [v], the partial write at byte offset [off] with byte
    width [width], [off + width <= 32], stores a 32-byte word [r] whose
    bytes at the positions [off .. off + width - 1], counted from the
    low-order end, are the [width] low-order bytes of [v] in order, and
    whose every other byte is the byte of [cur] at the same position. *)
Theorem partial_write_changes_only_its_bytes
        (address slot : string) (net : Network) (cur v off width : Z) :
  contents net address slot = units (word32 cur) ->
  0 <= cur < 2 ^ 256 -> 0 <= v < 2 ^ 256 ->
  0 <= off -> 0 <= width -> off + width <= 32 ->
  exists r,
    setPartialSlotValue address slot (units (word32 v)) off (JS.JNum width) net
    = (Ok tt, sendSet address slot (units (word32 r)) (snd (sendGet address slot net)))
    /\ 0 <= r < 2 ^ 256
    /\ forall j, 0 <= j < 32 ->
         byteAt r j =
         if (off <=? j) && (j <? off + width) then byteAt v (j - off) else byteAt cur j.
Proof.
  intros Hcur Hc Hv Ho Hw Hsum.
  exists (mergeWord cur v (off * 8) (width * 8)).
  split; [| split].
  - unfold setPartialSlotValue, mergePartialWord, sendGet. rewrite Hcur.
    rewrite !BigInt_of_units_word32 by lia.
    cbn [bind JS.mul_num JS.BigInt_of_number snd]. reflexivity.
  - apply mergeWord_range; lia.
  - intros j Hj. apply mergeWord_bytes; lia.
Qed.

Lemma partial_write_changes_only_its_bytes_witness :
  contents (Demo.networkHolding 255) Demo.contractAt "0x1" = units (word32 255)
  /\ 0 <= 255 < 2 ^ 256 /\ 0 <= 7 < 2 ^ 256 /\ 0 <= 1 /\ 0 <= 1 /\ 1 + 1 <= 32
  /\ exists r,
      setPartialSlotValue Demo.contractAt "0x1" (units (word32 7)) 1 (JS.JNum 1)
                          (Demo.networkHolding 255)
      = (Ok tt, sendSet Demo.contractAt "0x1" (units (word32 r))
                        (snd (sendGet Demo.contractAt "0x1" (Demo.networkHolding 255))))
      /\ 0 <= r < 2 ^ 256
      /\ forall j, 0 <= j < 32 ->
           byteAt r j =
           if (1 <=? j) && (j <? 1 + 1) then byteAt 7 (j - 1) else byteAt 255 j.
Proof.
  split; [reflexivity |].
  split; [split; [lia | reflexivity] |].
  split; [split; [lia | reflexivity] |].
  split; [lia |]. split; [lia |]. split; [lia |].
  apply (partial_write_changes_only_its_bytes
           Demo.contractAt "0x1" (Demo.networkHolding 255) 255 7 1 1);
    [reflexivity | split; [lia | reflexivity] | split; [lia | reflexivity] | lia | lia | lia].
Defined.

(** The packed write of the specification: over the word 0x00..00ff, the
    value 0x07 at offset 1 and width 1 gives 0x00..07ff. *)
Lemma partial_write_example :
  mergePartialWord (units (word32 255)) (units (word32 7)) 1 (JS.JNum 1)
  = Ok (units (word32 2047)).
Proof. vm_compute. reflexivity. Qed.

(** ** The requests of [setSlotValue] *)








(** ** [setState]: what a failure leaves behind *)

(** C8 (as amended).  When the resolution of the storage location throws,
    or when [encodeValueForStorage] throws for the resolved location,
    [setState] answers false and the network is as before: no request was
    sent and no slot has changed. *)
Theorem setState_aborts_before_any_request
        (hreMembers : hreLookup) (artifacts : artifactStore)
        (params : SetStateParams) (net : Network) :
  (exists e, getStorageLocation hreMembers artifacts (contractName params)
                                (varName params) (path params) = Err e)
  \/ (exists location e,
         getStorageLocation hreMembers artifacts (contractName params)
                            (varName params) (path params) = Ok location
         /\ encodeValueForStorage (value params) location = Err e) ->
  setState hreMembers artifacts params net = (false, net).
Proof.
  intros [[e H] | [location [e [H1 H2]]]]; unfold setState.
  - now rewrite H.
  - rewrite H1. unfold setSlotValue. now rewrite H2.
Qed.

Lemma setState_aborts_before_any_request_witness :
  ((exists e, getStorageLocation Demo.noExtractedLayouts Demo.exampleArtifacts
                "TestContract" "simpleString" None = Err e)
   \/ (exists location e,
         getStorageLocation Demo.noExtractedLayouts Demo.exampleArtifacts
           "TestContract" "simpleString" None = Ok location
         /\ encodeValueForStorage (VString (repeat 97 32)) location = Err e))
  /\ Demo.write "simpleString" None (VString (repeat 97 32)) (Demo.networkHolding 5)
     = (false, Demo.networkHolding 5).
Proof.
  assert (H : exists location e,
             getStorageLocation Demo.noExtractedLayouts Demo.exampleArtifacts
               "TestContract" "simpleString" None = Ok location
             /\ encodeValueForStorage (VString (repeat 97 32)) location = Err e).
  { eexists. exists LongStringNotSupported. split; vm_compute; reflexivity. }
  split; [right; exact H |].
  apply (setState_aborts_before_any_request
           Demo.noExtractedLayouts Demo.exampleArtifacts
           (mkParams "TestContract" "simpleString" (VString (repeat 97 32)) None
                     Demo.contractAt)
           (Demo.networkHolding 5)).
  right. exact H.
Defined.

(** The unsigned encoder swallows the failure of [BigInt]: whatever the
    value, the location of an unsigned integer is given a word. *)
Lemma unconvertible_uint_is_zero (value : jsvalue) (size : JS.jsnum) (e : error) :
  BigInt_of_value value = Err e ->
  encodeUintForStorage value size = units (word32 0).
Proof. intros H. unfold encodeUintForStorage. now rewrite H. Qed.

(** C8 as stated fails: the text "abc" is no integer, the conversion inside
    the unsigned encoder throws, and still [setState] answers true after it
    has overwritten the slot, which held 5, with the zero word. *)
Lemma unconvertible_uint_value_is_written :
  BigInt_of_value (VString (units "abc")) = Err SyntaxError
  /\ fst (Demo.write "simpleUint" None (VString (units "abc")) (Demo.networkHolding 5))
     = true
  /\ issued (Demo.networkHolding 5)
            (snd (Demo.write "simpleUint" None (VString (units "abc"))
                                (Demo.networkHolding 5)))
     = [ hardhat_setStorageAt Demo.contractAt "0x0" (units (word32 0)) ]
  /\ contents (Demo.networkHolding 5) Demo.contractAt "0x0" = units (word32 5)
  /\ contents (snd (Demo.write "simpleUint" None (VString (units "abc"))
                                  (Demo.networkHolding 5)))
              Demo.contractAt "0x0" = units (word32 0).
Proof. repeat split; vm_compute; reflexivity. Qed.

(** ** The numeric encoders *)







(** ** The string encoder *)

Lemma hexOfBytes_app (a b : list Z) :
  Ethers.hexOfBytes (app a b) = Ethers.hexOfBytes a ++ Ethers.hexOfBytes b.
Proof.
  induction a as [| x a IH]; [reflexivity |].
  simpl. now rewrite IH.
Qed.

Lemma length_hexOfBytes (bs : list Z) :
  String.length (Ethers.hexOfBytes bs) = (2 * List.length bs)%nat.
Proof.
  induction bs as [| b bs IH]; [reflexivity |].
  simpl. rewrite IH. lia.
Qed.

Lemma hexOfBytes_zeros (n : nat) :
  Ethers.hexOfBytes (repeat 0 n) = JS.repeatChar "0" (2 * n).
Proof.
  induction n as [| n IH]; [reflexivity |].
  replace (2 * S n)%nat with (S (S (2 * n))) by lia.
  simpl repeat. cbn [Ethers.hexOfBytes JS.repeatChar]. now rewrite IH.
Qed.

(** A code unit that is a byte prints as two hexadecimal digits. *)
Lemma hexOfUnit_byte (k : Z) : isByte k -> hexOfUnit k = Ethers.hexOfBytes [k].
Proof.
  intros Hk.
  assert (All : forallb (fun n => String.eqb (hexOfUnit (Z.of_nat n))
                                             (Ethers.hexOfBytes [Z.of_nat n]))
                        (seq 0 256) = true) by (vm_compute; reflexivity).
  rewrite forallb_forall in All.
  specialize (All (Z.to_nat k)).
  unfold isByte in Hk. rewrite Z2Nat.id in All by lia.
  apply String.eqb_eq, All, in_seq. lia.
Qed.

Lemma hexOfUnits_bytes (u : ustring) :
  Forall isByte u -> hexOfUnits u = Ethers.hexOfBytes u.
Proof.
  induction 1 as [| k u Hk _ IH]; [reflexivity |].
  cbn [hexOfUnits]. rewrite (hexOfUnit_byte k Hk), IH. reflexivity.
Qed.

(** Where the short-string encoding of the specification holds: a value
    whose code units are bytes, at most 31 of them, is encoded as these
    bytes, zero bytes up to 31, and the byte [2 * length]. *)
Lemma short_byte_string_encoding (u : ustring) :
  Forall isByte u -> (List.length u <= 31)%nat ->
  encodeStringForStorage (VString u)
  = Ok (units ("0x" ++ Ethers.hexOfBytes
                 (app u (app (repeat 0 (31 - List.length u))
                             [2 * Z.of_nat (List.length u)])))).
Proof.
  intros Hb Hlen. unfold encodeStringForStorage.
  apply Nat.leb_le in Hlen as E. rewrite E.
  rewrite (hexOfUnits_bytes u Hb).
  change (JS.padStart (JS.toString 16 (Z.of_nat (List.length u) * 2)) 2 "0")
    with (hexOfUnit (Z.of_nat (List.length u) * 2)).
  rewrite hexOfUnit_byte by (unfold isByte; lia).
  unfold JS.padEnd. rewrite length_hexOfBytes.
  replace (62 - 2 * List.length u)%nat with (2 * (31 - List.length u))%nat by lia.
  rewrite <- hexOfBytes_zeros, <- !hexOfBytes_app.
  rewrite <- app_assoc.
  replace (Z.of_nat (List.length u) * 2) with (2 * Z.of_nat (List.length u)) by lia.
  reflexivity.
Qed.

Lemma long_string_is_refused (u : ustring) :
  (31 < List.length u)%nat -> encodeStringForStorage (VString u) = Err LongStringNotSupported.
Proof.
  intros H. unfold encodeStringForStorage.
  assert (E : (List.length u <=? 31)%nat = false) by (apply Nat.leb_gt; lia).
  now rewrite E.
Qed.

Lemma hello_encoding :
  encodeStringForStorage (VString (units "Hello"))
  = Ok (units "0x48656c6c6f00000000000000000000000000000000000000000000000000000a").
Proof. vm_compute. reflexivity. Qed.

(** C6 (the code at the failing input).  The string of the single character
    U+20AC is three bytes long in UTF-8, e2 82 ac.  The encoder writes the
    hexadecimal digits of its code unit, the two bytes 20 ac, and the length
    byte 2 of a one-byte string: neither the bytes of the string nor twice
    their number. *)
Theorem euro_sign_encoding :
  encodeStringForStorage (VString [8364])
  = Ok (units "0x20ac000000000000000000000000000000000000000000000000000000000002").
Proof. vm_compute. reflexivity. Qed.

(** Eleven such characters are 33 bytes of text, beyond the 31 a slot
    holds, and they are not refused. *)
Lemma eleven_euro_signs_are_encoded :
  isOk (encodeStringForStorage (VString (repeat 8364 11))) = true.
Proof. vm_compute. reflexivity. Qed.

(** ** Struct members *)

(** C1 (the code at the failing input).  The struct [person] sits at slot 5
    and its member [age] has relative slot 1 and offset 0; resolving the
    path [age] on the variable returns slot 5, the base slot itself, where
    the member [name] lives, and not slot 6. *)
Theorem struct_member_of_variable_resolves_to_base_slot :
  Demo.resolve "person" (Some ["age"])
  = Ok (mkStorageLocation "5" (Some 0) (JS.JNum 32) "t_uint256" None).
Proof. vm_compute. reflexivity. Qed.

(** The members that [findVariableLocation] lists for a variable are placed
    by their byte offset alone: two members that differ in their relative
    slot only are given the same slot. *)
Lemma calculateMemberSlot_ignores_relative_slot (parentSlot : string) (offset : Z) :
  0 <= offset < 32 ->
  forall b, Ethers.getBigInt parentSlot = Ok b ->
  calculateMemberSlot parentSlot offset = Ok (JS.toString 16 b).
Proof.
  intros Ho b Hb. unfold calculateMemberSlot. rewrite Hb. cbn [bind].
  rewrite Z.div_small by lia. now rewrite Z.add_0_r.
Qed.

(** The decimal numeral of a non-negative integer. *)
Lemma natToString10_allDigits (z : Z) : JS.allDigits (JS.natToString 10 z) = true.
Proof.
  unfold JS.allDigits. rewrite natToString_nonEmpty. cbn [andb].
  unfold JS.natToString. apply toDigits_allChars; [lia | | reflexivity].
  intros d Hd. unfold JS.isDigit, JS.digitChar.
  assert (E : (d <? 10) = true) by (apply Z.ltb_lt; lia). rewrite E.
  assert (C : d = 0 \/ d = 1 \/ d = 2 \/ d = 3 \/ d = 4 \/ d = 5 \/ d = 6 \/ d = 7 \/
              d = 8 \/ d = 9) by lia.
  repeat (destruct C as [C | C]; [subst d; reflexivity |]). subst d; reflexivity.
Qed.

Lemma natToString10_reads (z : Z) :
  0 <= z ->
  JS.parseInt10 (JS.natToString 10 z) = JS.roundToDouble z
  /\ JS.StringToBigInt (JS.natToString 10 z) = Some z.
Proof.
  intros Hz.
  destruct (digits_read _ (natToString10_allDigits z)) as [k [_ [Hp [Hi Hb]]]].
  assert (P : JS.parseNonEmpty 10 (JS.natToString 10 z) = Some z).
  { unfold JS.parseNonEmpty. rewrite natToString_nonEmpty.
    apply parse_natToString; lia. }
  rewrite P in Hp. injection Hp as <-. now split.
Qed.

(** [BigInt(z.toString())] is [z]. *)
Lemma BigInt_toString10 (z : Z) : JS.BigInt_of_string (JS.toString 10 z) = Ok z.
Proof.
  unfold JS.BigInt_of_string, JS.toString.
  destruct (z <? 0) eqn:E.
  - apply Z.ltb_lt in E.
    pose proof (natToString10_allDigits (- z)) as Hd.
    assert (P : JS.parseNonEmpty 10 (JS.natToString 10 (- z)) = Some (- z)).
    { unfold JS.parseNonEmpty. rewrite natToString_nonEmpty.
      apply parse_natToString; lia. }
    unfold JS.StringToBigInt. rewrite trim_noWhite.
    + change (Ascii.eqb "-" "-") with true. cbv iota. rewrite P. cbn [option_map].
      now rewrite Z.opp_involutive.
    + apply allDigits_lowerHex, lowerHex_noWhite in Hd.
      unfold noWhite in *. simpl. exact Hd.
  - apply Z.ltb_ge in E.
    destruct (natToString10_reads z E) as [_ H]. now rewrite H.
Qed.

(** The sibling path, a struct that is the value of a mapping, does add the
    relative slot of the member to the base slot. *)
Lemma calculateRelativeSlot_adds (b r : Z) :
  0 <= b -> 0 <= r < 2 ^ 53 ->
  calculateRelativeSlot ("0x" ++ JS.toString 16 b) (JS.toString 10 r)
  = Ok ("0x" ++ JS.toString 16 (b + r)).
Proof.
  intros Hb Hr. unfold calculateRelativeSlot.
  rewrite startsWith_0x, getBigInt_hex by assumption. cbn [bind].
  unfold JS.toString at 1.
  assert (E : (r <? 0) = false) by (apply Z.ltb_ge; lia). rewrite E.
  destruct (natToString10_reads r) as [Hp _]; [lia |]. rewrite Hp.
  unfold JS.roundToDouble. rewrite Z.abs_eq by lia.
  assert (E' : (r <? 2 ^ 53) = true) by (apply Z.ltb_lt; lia). rewrite E'.
  reflexivity.
Qed.

(** ** Words as hexadecimal strings and as bytes *)

Lemma digitVal_range (c : ascii) (d : Z) : JS.digitVal c = Some d -> 0 <= d < 16.
Proof.
  unfold JS.digitVal. pose proof (code_bound c).
  destruct ((48 <=? JS.code c) && (JS.code c <=? 57)) eqn:E1.
  { intros [= <-]. bool_prop. lia. }
  destruct ((97 <=? JS.code c) && (JS.code c <=? 102)) eqn:E2.
  { intros [= <-]. bool_prop. lia. }
  destruct ((65 <=? JS.code c) && (JS.code c <=? 70)) eqn:E3; [| discriminate].
  intros [= <-]. bool_prop. lia.
Qed.

Lemma bytesOfHex_bytes (s : string) :
  forall bs, Ethers.bytesOfHex s = Some bs -> Forall isByte bs.
Proof.
  assert (G : forall n s, (String.length s <= n)%nat ->
                forall bs, Ethers.bytesOfHex s = Some bs -> Forall isByte bs).
  { intros n. induction n as [| n IH]; intros t Hlen bs H.
    - destruct t; [| simpl in Hlen; lia]. injection H as <-. constructor.
    - destruct t as [| a [| b r]]; cbn [Ethers.bytesOfHex] in H.
      + injection H as <-. constructor.
      + discriminate.
      + destruct (JS.digitVal a) as [h |] eqn:Ha; [| discriminate].
        destruct (JS.digitVal b) as [l |] eqn:Hb; [| discriminate].
        destruct (Ethers.bytesOfHex r) as [bs' |] eqn:Hr; [| discriminate].
        assert (E : bs = (16 * h + l) :: bs') by congruence. subst bs.
        constructor.
        * apply digitVal_range in Ha, Hb. unfold isByte. lia.
        * apply (IH r); [simpl in Hlen; lia | exact Hr]. }
  intros bs. apply (G (String.length s) s). lia.
Qed.

Lemma bytesOfHex_hexOfBytes (bs : list Z) :
  Forall isByte bs -> Ethers.bytesOfHex (Ethers.hexOfBytes bs) = Some bs.
Proof.
  induction 1 as [| b bs Hb _ IH]; [reflexivity |].
  cbn [Ethers.hexOfBytes Ethers.bytesOfHex]. unfold isByte in Hb.
  rewrite !digitVal_digitChar, IH.
  - f_equal. f_equal. rewrite Z.mul_comm. symmetry. rewrite Z.mul_comm.
    apply Z.div_mod. lia.
  - apply Z.mod_pos_bound. lia.
  - split; [apply Z.div_pos; lia | apply Z.div_lt_upper_bound; lia].
Qed.

Lemma getBytes_hexlify (bs : list Z) :
  Forall isByte bs -> Ethers.getBytes (Ethers.hexlify bs) = Ok bs.
Proof.
  intros H. unfold Ethers.getBytes, Ethers.hexlify.
  change ("0x" ++ Ethers.hexOfBytes bs)
    with (String "0" (String "x" (Ethers.hexOfBytes bs))).
  change (Ascii.eqb "0" "0" && (Ascii.eqb "x" "x" || Ascii.eqb "x" "X")) with true.
  cbv iota beta. now rewrite bytesOfHex_hexOfBytes.
Qed.

Lemma hexOfBytes_lowerHex (bs : list Z) :
  Forall isByte bs -> lowerHex (Ethers.hexOfBytes bs) = true.
Proof.
  induction 1 as [| b bs Hb _ IH]; [reflexivity |].
  unfold lowerHex in *. cbn [Ethers.hexOfBytes JS.allChars]. unfold isByte in Hb.
  rewrite !digitChar_lowerHex, IH; [reflexivity | |].
  - apply Z.mod_pos_bound. lia.
  - split; [apply Z.div_pos; lia | apply Z.div_lt_upper_bound; lia].
Qed.

Lemma parse_hexOfBytes (bs : list Z) :
  Forall isByte bs ->
  forall acc, JS.parseDigits 16 (Ethers.hexOfBytes bs) acc = Some (be_value_from acc bs).
Proof.
  induction 1 as [| b bs Hb _ IH]; intros acc; [reflexivity |].
  cbn [Ethers.hexOfBytes JS.parseDigits be_value_from]. unfold isByte in Hb.
  assert (H1 : 0 <= b / 16 < 16)
    by (split; [apply Z.div_pos; lia | apply Z.div_lt_upper_bound; lia]).
  assert (H2 : 0 <= b mod 16 < 16) by (apply Z.mod_pos_bound; lia).
  rewrite !digitVal_digitChar by assumption.
  assert (E1 : (b / 16 <? 16) = true) by (apply Z.ltb_lt; lia).
  assert (E2 : (b mod 16 <? 16) = true) by (apply Z.ltb_lt; lia).
  rewrite E1, E2, IH. f_equal. f_equal.
  pose proof (Z.div_mod b 16). lia.
Qed.

(** The hex string of a non-empty run of bytes reads back as their
    big-endian value. *)
Lemma BigInt_hexlify (bs : list Z) :
  Forall isByte bs -> bs <> [] ->
  JS.BigInt_of_string (Ethers.hexlify bs) = Ok (be_value bs).
Proof.
  intros Hb Hne. unfold JS.BigInt_of_string, Ethers.hexlify.
  rewrite StringToBigInt_0x by now apply hexOfBytes_lowerHex.
  unfold JS.parseNonEmpty.
  destruct bs as [| b bs]; [contradiction |].
  cbn [Ethers.hexOfBytes JS.nonEmpty].
  change (String (JS.digitChar (b / 16))
                 (String (JS.digitChar (b mod 16)) (Ethers.hexOfBytes bs)))
    with (Ethers.hexOfBytes (b :: bs)).
  now rewrite parse_hexOfBytes.
Qed.

Lemma be_bytes_bytes (n : nat) (v : Z) : Forall isByte (be_bytes n v).
Proof.
  revert v. induction n as [| n IH]; intros v; [constructor |].
  cbn [be_bytes]. apply Forall_app. split; [apply IH |].
  constructor; [| constructor]. apply Z.mod_pos_bound. lia.
Qed.

Lemma repeatChar_shift (c : ascii) (n : nat) (s : string) :
  JS.repeatChar c n ++ String c s = String c (JS.repeatChar c n ++ s).
Proof. induction n as [| n IH]; [reflexivity | simpl; now rewrite IH]. Qed.

Lemma fixedHex_zero (n : nat) (acc : string) :
  fixedHex n 0 acc = JS.repeatChar "0" n ++ acc.
Proof.
  revert acc. induction n as [| n IH]; intros acc; [reflexivity |].
  cbn [fixedHex]. change (0 / 16) with 0. change (JS.digitChar (0 mod 16)) with "0"%char.
  rewrite IH. apply repeatChar_shift.
Qed.

Lemma toDigits_acc (f : nat) (radix z : Z) (acc : string) :
  JS.toDigits f radix z acc = JS.toDigits f radix z "" ++ acc.
Proof.
  revert z acc. induction f as [| f IH]; intros z acc; [reflexivity |].
  cbn [JS.toDigits]. destruct (z / radix =? 0); [reflexivity |].
  rewrite IH. rewrite (IH _ (String _ "")). now rewrite append_assoc.
Qed.

Lemma padded_toDigits (f : nat) :
  forall (n : nat) (z : Z) (acc : string),
    0 <= z < 2 ^ Z.of_nat f -> z < 16 ^ Z.of_nat n -> (1 <= n)%nat ->
    JS.repeatChar "0" (n - String.length (JS.toDigits f 16 z "")) ++ JS.toDigits f 16 z acc
    = fixedHex n z acc.
Proof.
  induction f as [| f IH]; intros n z acc Hz Hn Hn1.
  - assert (z = 0) by (simpl in Hz; lia). subst z.
    cbn [JS.toDigits String.length]. rewrite Nat.sub_0_r. now rewrite fixedHex_zero.
  - destruct n as [| n]; [lia |].
    cbn [JS.toDigits fixedHex].
    destruct (z / 16 =? 0) eqn:Hq.
    + apply Z.eqb_eq in Hq. rewrite Hq.
      cbn [String.length]. rewrite fixedHex_zero.
      replace (S n - 1)%nat with n by lia. reflexivity.
    + apply Z.eqb_neq in Hq.
      rewrite (toDigits_acc f 16 (z / 16) (String _ "")).
      rewrite length_append. cbn [String.length].
      replace (S n - (String.length (JS.toDigits f 16 (z / 16) "") + 1))%nat
        with (n - String.length (JS.toDigits f 16 (z / 16) ""))%nat by lia.
      rewrite Nat2Z.inj_succ, Z.pow_succ_r in Hz, Hn by lia.
      assert (Hq0 : 0 <= z / 16) by (apply Z.div_pos; lia).
      assert (H16 : 16 <= z).
      { destruct (Z_lt_le_dec z 16) as [Hlt | Hge]; [| exact Hge].
        rewrite Z.div_small in Hq by lia. contradiction. }
      assert (Hpf : 0 < 2 ^ Z.of_nat f) by (apply Z.pow_pos_nonneg; lia).
      assert (Hpn : 0 < 16 ^ Z.of_nat n) by (apply Z.pow_pos_nonneg; lia).
      apply IH.
      * split; [exact Hq0 |]. apply Z.div_lt_upper_bound; lia.
      * apply Z.div_lt_upper_bound; lia.
      * destruct n as [| n']; [simpl in Hn; lia | lia].
Qed.

Lemma hexOfBytes_fixedHex (k : nat) :
  forall (z : Z) (acc : string),
    Ethers.hexOfBytes (be_bytes k z) ++ acc = fixedHex (2 * k) z acc.
Proof.
  induction k as [| k IH]; intros z acc; [reflexivity |].
  replace (2 * S k)%nat with (S (S (2 * k))) by lia.
  cbn [be_bytes fixedHex].
  rewrite hexOfBytes_app, append_assoc. cbn [Ethers.hexOfBytes append].
  rewrite IH.
  replace (z / 16 / 16) with (z / 256) by (rewrite Z.div_div by lia; reflexivity).
  replace (z mod 256 / 16) with ((z / 16) mod 16)
    by (Z.div_mod_to_equations; lia).
  replace ((z mod 256) mod 16) with (z mod 16)
    by (Z.div_mod_to_equations; lia).
  reflexivity.
Qed.

(** The 64 digits of a word are the digits of its 32 bytes. *)
Lemma padStart64_leftPad32 (b : Z) :
  0 <= b < 2 ^ 256 ->
  JS.padStart (JS.toString 16 b) 64 "0" = Ethers.hexOfBytes (leftPad32 b).
Proof.
  intros Hb. unfold JS.padStart, JS.toString, leftPad32.
  assert (E : (b <? 0) = false) by (apply Z.ltb_ge; lia). rewrite E.
  unfold JS.natToString.
  rewrite padded_toDigits.
  - symmetry. rewrite <- (append_nil_r (Ethers.hexOfBytes (be_bytes 32 b))).
    exact (hexOfBytes_fixedHex 32 b "").
  - split; [lia | apply enough_fuel; lia].
  - change (16 ^ Z.of_nat 64) with (2 ^ 256). lia.
  - lia.
Qed.

Lemma word32_hexlify (b : Z) :
  0 <= b < 2 ^ 256 -> word32 b = Ethers.hexlify (leftPad32 b).
Proof.
  intros Hb. unfold word32, Ethers.hexlify. now rewrite padStart64_leftPad32.
Qed.

Lemma getBytes_word32 (b : Z) :
  0 <= b < 2 ^ 256 -> Ethers.getBytes (word32 b) = Ok (leftPad32 b).
Proof.
  intros Hb. rewrite word32_hexlify by exact Hb.
  apply getBytes_hexlify, be_bytes_bytes.
Qed.

(** ** The digest *)

Lemma le_bytes_bytes (n : nat) (v : Z) : Forall isByte (Keccak.le_bytes n v).
Proof.
  revert v. induction n as [| n IH]; intros v; [constructor |].
  cbn [Keccak.le_bytes]. constructor; [apply Z.mod_pos_bound; lia | apply IH].
Qed.

Lemma keccak256_bytes (msg : list Z) : Forall isByte (Keccak.keccak256 msg).
Proof.
  unfold Keccak.keccak256.
  set (st := Keccak.absorb _ _ _).
  apply Forall_forall. intros x Hx. apply in_flat_map in Hx as [i [_ Hx]].
  pose proof (le_bytes_bytes 8 (Keccak.lane st i)) as Hb.
  rewrite Forall_forall in Hb. now apply Hb.
Qed.

Lemma keccak256_nonEmpty (msg : list Z) : Keccak.keccak256 msg <> [].
Proof.
  unfold Keccak.keccak256.
  set (st := Keccak.absorb _ _ _). cbn [seq flat_map Keccak.le_bytes app]. discriminate.
Qed.

Lemma keccak256_of_hexlify (bs : list Z) :
  Forall isByte bs -> Ethers.keccak256 (Ethers.hexlify bs) = Ok (keccakHex bs).
Proof.
  intros H. unfold Ethers.keccak256. now rewrite getBytes_hexlify.
Qed.

Lemma hashKeyAndSlot_bytes (keyBytes slotBytes : string) (kb sb : list Z) :
  Ethers.getBytes keyBytes = Ok kb -> Forall isByte kb ->
  Ethers.getBytes slotBytes = Ok sb -> Forall isByte sb ->
  hashKeyAndSlot keyBytes slotBytes = Ok (keccakHex (app kb sb)).
Proof.
  intros Hk Hkb Hs Hsb. unfold hashKeyAndSlot, Ethers.concat2.
  rewrite Hk, Hs. cbn [bind].
  apply keccak256_of_hexlify. apply Forall_app. now split.
Qed.

(** ** Dynamic arrays *)

Lemma keccak256_word32 (b : Z) :
  0 <= b < 2 ^ 256 -> Ethers.keccak256 (word32 b) = Ok (keccakHex (leftPad32 b)).
Proof.
  intros Hb. rewrite word32_hexlify by exact Hb.
  apply keccak256_of_hexlify, be_bytes_bytes.
Qed.

Lemma BigInt_keccakHex (msg : list Z) :
  JS.BigInt_of_string (keccakHex msg) = Ok (keccakWord msg).
Proof.
  unfold keccakHex, keccakWord.
  apply BigInt_hexlify; [apply keccak256_bytes | apply keccak256_nonEmpty].
Qed.

(** C5 (as amended).  For a dynamic array declared at slot [b], the path
    [length] is addressed at the declared slot itself as a full word (offset
    0, size 32, type uint256), and for every integral index [i] the element
    slot is the digest of the 32 bytes of [b], read as a number, plus [i]:
    the plain sum, printed in decimal, without reduction modulo 2^256. *)
Theorem dynamic_array_length_and_elements
        (hreMembers : hreLookup) (varLocation : VarLocation) (b i : Z) :
  JS.BigInt_of_string (slot varLocation) = Ok b ->
  0 <= b < 2 ^ 256 ->
  resolveArrayPath hreMembers varLocation ["length"]
  = Ok (mkStorageLocation (slot varLocation) (Some 0) (JS.JNum 32) "t_uint256" None)
  /\ calculateDynamicArraySlot (slot varLocation) (IdxStr "length") = Ok (slot varLocation)
  /\ exists r,
      calculateDynamicArraySlot (slot varLocation) (IdxNum (JS.JNum i)) = Ok r
      /\ JS.BigInt_of_string r = Ok (keccakWord (leftPad32 b) + i).
Proof.
  intros Hs Hb. split; [reflexivity |]. split; [reflexivity |].
  unfold calculateDynamicArraySlot. rewrite Hs. cbn [bind].
  rewrite keccak256_word32 by exact Hb. cbn [bind].
  rewrite BigInt_keccakHex. cbn [bind JS.BigInt_of_number].
  eexists. split; [reflexivity |]. apply BigInt_toString10.
Qed.

Lemma dynamic_array_length_and_elements_witness :
  JS.BigInt_of_string
    (slot (mkVarLocation "uintArray" "3" (Some 0) (JS.JNum 32)
                         "t_array(t_uint256)dyn_storage" None None None)) = Ok 3
  /\ 0 <= 3 < 2 ^ 256
  /\ resolveArrayPath Demo.noExtractedLayouts
       (mkVarLocation "uintArray" "3" (Some 0) (JS.JNum 32)
                      "t_array(t_uint256)dyn_storage" None None None) ["length"]
     = Ok (mkStorageLocation "3" (Some 0) (JS.JNum 32) "t_uint256" None)
  /\ calculateDynamicArraySlot "3" (IdxStr "length") = Ok "3"
  /\ exists r,
      calculateDynamicArraySlot "3" (IdxNum (JS.JNum 1)) = Ok r
      /\ JS.BigInt_of_string r = Ok (keccakWord (leftPad32 3) + 1).
Proof.
  split; [reflexivity |]. split; [split; [lia | reflexivity] |].
  apply (dynamic_array_length_and_elements
           Demo.noExtractedLayouts
           (mkVarLocation "uintArray" "3" (Some 0) (JS.JNum 32)
                          "t_array(t_uint256)dyn_storage" None None None) 3 1);
    [reflexivity | split; [lia | reflexivity]].
Defined.

(** A path segment of decimal digits below 2^53 is the index it denotes. *)
Lemma index_string_is_its_number (baseSlot index : string) (i : Z) :
  JS.allDigits index = true -> JS.StringToBigInt index = Some i -> i < 2 ^ 53 ->
  calculateDynamicArraySlot baseSlot (IdxStr index)
  = calculateDynamicArraySlot baseSlot (IdxNum (JS.JNum i)).
Proof.
  intros Hd Hi Hlt. unfold calculateDynamicArraySlot.
  assert (E1 : String.eqb index "length" = false).
  { destruct (String.eqb_spec index "length") as [-> | _]; [discriminate | reflexivity]. }
  assert (E2 : String.eqb index ".length" = false).
  { destruct (String.eqb_spec index ".length") as [-> | _]; [discriminate | reflexivity]. }
  rewrite E1, E2. cbn [orb].
  destruct (digits_read index Hd) as [k [Hk [_ [Hp Hb]]]].
  assert (k = i) by congruence. subst k.
  rewrite Hp. unfold JS.roundToDouble. rewrite Z.abs_eq by lia.
  assert (E : (i <? 2 ^ 53) = true) by (apply Z.ltb_lt; lia). now rewrite E.
Qed.

(** C5 as stated fails: for the index 2^256 the element slot of the array at
    slot 3 is the digest plus 2^256, beyond the range of a word, and not
    the residue of that sum. *)
Lemma dynamic_array_slot_is_not_reduced :
  ~ exists location,
      Demo.resolve
        "uintArray"
        (Some ["115792089237316195423570985008687907853269984665640564039457584007913129639936"])
      = Ok location
      /\ JS.BigInt_of_string (loc_slot location)
         = Ok ((keccakWord (leftPad32 3) + 2 ^ 256) mod 2 ^ 256).
Proof.
  intros [location [H1 H2]].
  vm_compute in H1. injection H1 as <-.
  vm_compute in H2. discriminate H2.
Qed.

(** ** Mappings: what is hashed *)

Lemma readsSlotAs_range (slot : string) (b : Z) : readsSlotAs slot b -> 0 <= b < 2 ^ 256.
Proof.
  intros [H | [_ [_ H]]]; [| exact H].
  apply smallDecimal_reads in H as (_ & H & _).
  split; [lia |]. apply Z.lt_trans with 1000; [lia | reflexivity].
Qed.

Lemma getBytes_bytes (data : string) (bs : list Z) :
  Ethers.getBytes data = Ok bs -> Forall isByte bs.
Proof.
  unfold Ethers.getBytes.
  destruct data as [| c0 [| c1 body]]; try discriminate.
  destruct (Ascii.eqb c0 "0" && (Ascii.eqb c1 "x" || Ascii.eqb c1 "X")); [| discriminate].
  destruct (Ethers.bytesOfHex body) as [bs' |] eqn:E; [| discriminate].
  intros [= <-]. now apply (bytesOfHex_bytes body).
Qed.

(** Both branches hash the key word in front of the 32 bytes of the slot. *)
Lemma mapping_slot_of_key_word (slot key keyHex : string) (b : Z) (kb : list Z) :
  readsSlotAs slot b ->
  smallDecimal key = None ->
  (if JS.startsWith key "0x" then Ok ("0x" ++ JS.padStart (JS.slice key 2) 64 "0")
   else if JS.allDigits key
        then let* keyBigInt := JS.BigInt_of_string key in Ok (word32 keyBigInt)
        else Ok (Ethers.keccak256Bytes (Ethers.toUtf8Bytes key))) = Ok keyHex ->
  Ethers.getBytes keyHex = Ok kb ->
  calculateMappingSlot slot key = Ok (keccakHex (app kb (leftPad32 b))).
Proof.
  intros Hslot Hsmall Hkey Hbytes.
  pose proof (readsSlotAs_range slot b Hslot) as Hb.
  pose proof (getBytes_bytes keyHex kb Hbytes) as Hkb.
  assert (Hhash : hashKeyAndSlot keyHex (word32 b) = Ok (keccakHex (app kb (leftPad32 b)))).
  { apply hashKeyAndSlot_bytes; try assumption.
    - now apply getBytes_word32.
    - apply be_bytes_bytes. }
  unfold calculateMappingSlot.
  destruct Hslot as [Hs | [Hs [Hg _]]]; rewrite Hs.
  - unfold mappingSlotSmall. rewrite Hsmall, Hkey. cbn [bind]. now rewrite Hhash.
  - unfold mappingSlotGeneral. rewrite Hg. cbn [bind]. rewrite Hkey. cbn [bind].
    now rewrite Hhash.
Qed.

Lemma mapping_slot_of_small_key (slot key : string) (b k : Z) :
  readsSlotAs slot b ->
  smallDecimal key = Some k ->
  calculateMappingSlot slot key = Ok (keccakHex (app (leftPad32 k) (leftPad32 b))).
Proof.
  intros Hslot Hsmall.
  pose proof (readsSlotAs_range slot b Hslot) as Hb.
  pose proof (smallDecimal_reads key k Hsmall) as (Hd & Hk & Hread).
  assert (Hk' : 0 <= k < 2 ^ 256)
    by (split; [lia | apply Z.lt_trans with 1000; [lia | reflexivity]]).
  assert (Hhash : hashKeyAndSlot (word32 k) (word32 b)
                  = Ok (keccakHex (app (leftPad32 k) (leftPad32 b)))).
  { apply hashKeyAndSlot_bytes;
      (now apply getBytes_word32) || apply be_bytes_bytes. }
  unfold calculateMappingSlot.
  destruct Hslot as [Hs | [Hs [Hg _]]]; rewrite Hs.
  - unfold mappingSlotSmall. rewrite Hsmall. now rewrite Hhash.
  - unfold mappingSlotGeneral. rewrite Hg. cbn [bind].
    rewrite (allDigits_not_0x key Hd), Hd.
    unfold JS.BigInt_of_string. rewrite Hread. cbn [bind]. now rewrite Hhash.
Qed.






(** What that slot is: the key is hashed first. *)
Lemma string_key_example :
  Demo.resolve "balanceByName" (Some ["alice"])
  = Ok (mkStorageLocation
          (keccakHex (app (Keccak.keccak256 (Ethers.toUtf8Bytes "alice")) (leftPad32 14)))
          None (JS.JNum 32) "t_uint256" None).
Proof. vm_compute. reflexivity. Qed.

(** The struct behind a mapping: the member [age], relative slot 1, is
    resolved one slot above the slot of the mapping value. *)
Lemma struct_member_in_mapping_adds_relative_slot :
  exists base member,
    Demo.resolve "personByAddress"
                    (Some ["0x0000000000000000000000000000000000000001"]) = Ok base
    /\ Demo.resolve "personByAddress"
                       (Some ["0x0000000000000000000000000000000000000001"; "age"])
       = Ok member
    /\ exists s, Ethers.getBigInt (loc_slot base) = Ok s
                 /\ Ethers.getBigInt (loc_slot member) = Ok (s + 1)
                 /\ loc_offset member = Some 0.
Proof.
  eexists. eexists. split; [vm_compute; reflexivity |].
  split; [vm_compute; reflexivity |].
  eexists. split; [vm_compute; reflexivity |].
  split; vm_compute; reflexivity.
Qed.

(** ** Known answers of the digest *)

Lemma keccak256_of_nothing :
  Ethers.keccak256 "0x"
  = Ok "0xc5d2460186f7233c927e7db2dcc703c0e500b653ca82273b7bfad8045d85a470".
Proof. vm_compute. reflexivity. Qed.

Lemma keccak256_of_slot_zero :
  keccakHex (leftPad32 0)
  = "0x290decd9548b62a8d60345a988386fc84ba6bc95484008f6362f93160ef3e563".
Proof. vm_compute. reflexivity. Qed.

Lemma keccak256_of_abc :
  keccakHex (Ethers.toUtf8Bytes "abc")
  = "0x4e03657aea45a94fc7d47ba826c8d667c0d1e6e33a64a036ec44f58fa12d6c45".
Proof. vm_compute. reflexivity. Qed.

(** ** [setState]: the requests of one call *)



Lemma setState_partial_word
      (hreMembers : hreLookup) (artifacts : artifactStore) (params : SetStateParams)
      (net : Network) (location : StorageLocation) (word merged : ustring) (o : Z) :
  getStorageLocation hreMembers artifacts (contractName params) (varName params)
                     (path params) = Ok location ->
  encodeValueForStorage (value params) location = Ok word ->
  hasPositiveOffset location = Some o ->
  mergePartialWord (contents net (contractAddress params) (formatSlot (loc_slot location)))
                   word o (loc_size location) = Ok merged ->
  setState hreMembers artifacts params net
  = (true, sendSet (contractAddress params) (formatSlot (loc_slot location)) merged
                   (snd (sendGet (contractAddress params) (formatSlot (loc_slot location)) net))).
Proof.
  intros L E O M. unfold setState, setSlotValue, setPartialSlotValue. rewrite L, E, O.
  cbn [sendGet]. rewrite M. reflexivity.
Qed.


(** ** Declared variables *)

Lemma toString_nonneg (radix z : Z) : 0 <= z -> JS.toString radix z = JS.natToString radix z.
Proof.
  intros H. unfold JS.toString.
  assert (E : (z <? 0) = false) by (apply Z.ltb_ge; lia). now rewrite E.
Qed.

Lemma decimal_slot_facts (b : Z) :
  0 <= b ->
  JS.allDigits (JS.toString 10 b) = true
  /\ JS.startsWith (JS.toString 10 b) "0x" = false
  /\ JS.StringToBigInt (JS.toString 10 b) = Some b
  /\ JS.parseInt10 (JS.toString 10 b) = JS.roundToDouble b.
Proof.
  intros H. rewrite toString_nonneg by assumption.
  pose proof (natToString10_allDigits b) as D.
  destruct (natToString10_reads b H) as [P B].
  repeat split; auto using allDigits_not_0x.
Qed.

Lemma formatSlot_decimal (b : Z) :
  0 <= b -> formatSlot (JS.toString 10 b) = "0x" ++ JS.toString 16 b.
Proof.
  intros H. destruct (decimal_slot_facts b H) as [_ [S [B _]]].
  unfold formatSlot. now rewrite S, B.
Qed.

Lemma formatSlot_0x (s : string) : formatSlot ("0x" ++ s) = "0x" ++ s.
Proof. unfold formatSlot. now rewrite startsWith_0x. Qed.

Lemma roundToDouble_small (z : Z) : 0 <= z < 2 ^ 53 -> JS.roundToDouble z = JS.JNum z.
Proof.
  intros H. unfold JS.roundToDouble. rewrite Z.abs_eq by lia.
  assert (E : (z <? 2 ^ 53) = true) by (apply Z.ltb_lt; lia). now rewrite E.
Qed.

Lemma orString_nonEmpty (s d : string) : JS.nonEmpty s = true -> orString (Some s) d = s.
Proof. destruct s; [discriminate | reflexivity]. Qed.

Lemma toString10_nonEmpty (z : Z) : JS.nonEmpty (JS.toString 10 z) = true.
Proof.
  unfold JS.toString. destruct (z <? 0); [reflexivity | apply natToString_nonEmpty].
Qed.

Lemma size_of_numberOfBytes (w : Z) :
  0 <= w < 2 ^ 53 -> JS.parseInt10 (orString (Some (JS.toString 10 w)) "0") = JS.JNum w.
Proof.
  intros H. rewrite orString_nonEmpty by apply toString10_nonEmpty.
  destruct (decimal_slot_facts w) as [_ [_ [_ P]]]; [lia |].
  rewrite P. now apply roundToDouble_small.
Qed.

Lemma findVariableLocation_memberless
      (artifacts : artifactStore) (contractName varName : string)
      (layout : StorageLayoutInfo) (sv : StorageVar) (ti : TypeInfo) :
  declares artifacts contractName varName layout sv ti -> memberless ti ->
  findVariableLocation layout varName
  = Ok (Some (mkVarLocation varName (s_slot sv) (Some (s_offset sv))
                            (JS.parseInt10 (orString (t_numberOfBytes ti) "0"))
                            (s_type sv) None (Some layout) None)).
Proof.
  intros [_ [F T]] M. unfold findVariableLocation. rewrite F, T.
  destruct M as [M | M]; rewrite M; reflexivity.
Qed.

Lemma getStorageLocation_memberless
      (hreMembers : hreLookup) (artifacts : artifactStore) (contractName varName : string)
      (layout : StorageLayoutInfo) (sv : StorageVar) (ti : TypeInfo) :
  declares artifacts contractName varName layout sv ti -> memberless ti ->
  getStorageLocation hreMembers artifacts contractName varName None
  = Ok (mkStorageLocation (s_slot sv) (Some (s_offset sv))
                          (JS.parseInt10 (orString (t_numberOfBytes ti) "0"))
                          (s_type sv) None).
Proof.
  intros D M. pose proof D as [A _]. unfold getStorageLocation, loadStorageLayout.
  rewrite A. cbn [bind].
  rewrite (findVariableLocation_memberless _ _ _ _ _ _ D M). reflexivity.
Qed.

Lemma encodeUint_word (value : jsvalue) (size : JS.jsnum) (v : Z) :
  BigInt_of_value value = Ok v -> encodeUintForStorage value size = units (word32 v).
Proof. intros H. unfold encodeUintForStorage. now rewrite H. Qed.



(** ** Packed cells *)

Lemma mergeWord_nonneg (c v o s : Z) : 0 <= c -> 0 <= v -> 0 <= mergeWord c v o s.
Proof.
  intros Hc Hv. unfold mergeWord. apply Z.lor_nonneg. split.
  - apply Z.land_nonneg. left. lia.
  - apply Z.land_nonneg. left. apply Z.shiftl_nonneg. lia.
Qed.

Lemma mergePartialWord_words (cur v off width : Z) :
  0 <= cur -> 0 <= v ->
  mergePartialWord (units (word32 cur)) (units (word32 v)) off (JS.JNum width)
  = Ok (units (word32 (mergeWord cur v (off * 8) (width * 8)))).
Proof.
  intros Hc Hv. unfold mergePartialWord.
  rewrite !BigInt_of_units_word32 by lia.
  cbn [bind JS.mul_num JS.BigInt_of_number]. reflexivity.
Qed.

Lemma fieldOf_mergeWord (c v off width : Z) :
  0 <= off -> 0 <= width ->
  fieldOf (mergeWord c v (off * 8) (width * 8)) off width = v mod 2 ^ (8 * width).
Proof.
  intros Ho Hw. unfold fieldOf.
  rewrite <- Z.shiftr_div_pow2 by lia.
  apply Z.bits_inj'. intros n Hn.
  rewrite !Z.testbit_mod_pow2 by lia.
  destruct (n <? 8 * width) eqn:E; [| reflexivity].
  apply Z.ltb_lt in E. rewrite !andb_true_l.
  rewrite Z.shiftr_spec by lia.
  rewrite testbit_mergeWord by lia.
  assert (A : ((off * 8 <=? n + 8 * off) && (n + 8 * off <? off * 8 + width * 8)) = true).
  { apply andb_true_iff. split; [apply Z.leb_le | apply Z.ltb_lt]; lia. }
  rewrite A. f_equal. lia.
Qed.

(** X3.  A packed unsigned variable.  For a variable of [width] bytes that
    the layout declares at a byte offset [off > 0] of slot [b], with
    [off + width <= 32], [setSimpleState] reads the slot, then writes it
    once; in the word written the field of the variable holds the value
    reduced modulo [2^(8*width)], and every byte outside the field is the
    byte read. *)
Theorem packed_uint_write_end_to_end
        (hreMembers : hreLookup) (artifacts : artifactStore)
        (contract address variable : string)
        (layout : StorageLayoutInfo) (sv : StorageVar) (ti : TypeInfo)
        (newValue : jsvalue) (b v width cur : Z) (net : Network) :
  declares artifacts contract variable layout sv ti -> memberless ti ->
  JS.startsWith (s_type sv) "t_uint" = true ->
  t_numberOfBytes ti = Some (JS.toString 10 width) ->
  0 < s_offset sv -> 0 <= width -> s_offset sv + width <= 32 ->
  s_slot sv = JS.toString 10 b -> 0 <= b ->
  BigInt_of_value newValue = Ok v -> 0 <= v ->
  contents net address ("0x" ++ JS.toString 16 b) = units (word32 cur) ->
  0 <= cur < 2 ^ 256 ->
  exists r,
    setSimpleState hreMembers artifacts contract address variable newValue net
    = (true, sendSet address ("0x" ++ JS.toString 16 b) (units (word32 r))
                     (snd (sendGet address ("0x" ++ JS.toString 16 b) net)))
    /\ 0 <= r < 2 ^ 256
    /\ fieldOf r (s_offset sv) width = v mod 2 ^ (8 * width)
    /\ forall j, 0 <= j < 32 -> ~ (s_offset sv <= j < s_offset sv + width) ->
         byteAt r j = byteAt cur j.
Proof.
  intros D M T N O W Fit S Hb V Hv C Hc.
  exists (mergeWord cur v (s_offset sv * 8) (width * 8)).
  split; [| split; [| split]].
  - unfold setSimpleState, stateSetter_setState.
    rewrite <- (formatSlot_decimal b Hb), <- S.
    apply (setState_partial_word hreMembers artifacts
             (mkParams contract variable newValue None address) net
             (mkStorageLocation (s_slot sv) (Some (s_offset sv))
                (JS.parseInt10 (orString (t_numberOfBytes ti) "0")) (s_type sv) None)
             (units (word32 v)) _ (s_offset sv)).
    + exact (getStorageLocation_memberless _ _ _ _ _ _ _ D M).
    + unfold encodeValueForStorage. cbn [loc_type loc_size value]. rewrite T.
      now rewrite (encodeUint_word _ _ v).
    + unfold hasPositiveOffset. cbn [loc_offset].
      assert (E : (0 <? s_offset sv) = true) by (apply Z.ltb_lt; lia). now rewrite E.
    + cbn [loc_slot loc_size contractAddress]. rewrite S, (formatSlot_decimal b Hb), C, N.
      rewrite size_of_numberOfBytes by lia.
      apply mergePartialWord_words; lia.
  - apply mergeWord_range; lia.
  - apply fieldOf_mergeWord; lia.
  - intros j Hj Out. rewrite mergeWord_bytes by lia.
    destruct ((s_offset sv <=? j) && (j <? s_offset sv + width)) eqn:E; [| reflexivity].
    apply andb_true_iff in E. destruct E as [E1 E2].
    apply Z.leb_le in E1. apply Z.ltb_lt in E2. lia.
Qed.

Lemma packed_uint_write_end_to_end_witness :
  declares Token.tokenArtifacts "Token" "decimals" Token.tokenLayout
           (mkStorageVar "decimals" "4" 21 "t_uint8")
           (mkTypeInfo "uint8" (Some "1") None)
  /\ BigInt_of_value (VNumber (JS.JNum 274)) = Ok 274
  /\ exists r,
      setSimpleState Demo.noExtractedLayouts Token.tokenArtifacts "Token" Token.tokenAt
                     "decimals" (VNumber (JS.JNum 274)) (Demo.networkHolding (2 ^ 200 + 5))
      = (true, sendSet Token.tokenAt "0x4" (units (word32 r))
                       (snd (sendGet Token.tokenAt "0x4" (Demo.networkHolding (2 ^ 200 + 5)))))
      /\ 0 <= r < 2 ^ 256
      /\ fieldOf r 21 1 = 274 mod 2 ^ (8 * 1)
      /\ forall j, 0 <= j < 32 -> ~ (21 <= j < 21 + 1) ->
           byteAt r j = byteAt (2 ^ 200 + 5) j.
Proof.
  split; [repeat split |]. split; [reflexivity |].
  apply (packed_uint_write_end_to_end
           Demo.noExtractedLayouts Token.tokenArtifacts "Token" Token.tokenAt "decimals"
           Token.tokenLayout (mkStorageVar "decimals" "4" 21 "t_uint8")
           (mkTypeInfo "uint8" (Some "1") None)
           (VNumber (JS.JNum 274)) 4 274 1 (2 ^ 200 + 5) (Demo.networkHolding (2 ^ 200 + 5))).
  - repeat split.
  - left. reflexivity.
  - reflexivity.
  - reflexivity.
  - simpl. lia.
  - lia.
  - simpl. lia.
  - reflexivity.
  - lia.
  - reflexivity.
  - lia.
  - reflexivity.
  - lia.
Defined.

(** ** The address encoder *)

Lemma code_chr (x : Z) : 0 <= x < 256 -> JS.code (JS.chr x) = x.
Proof.
  intros H. unfold JS.code, JS.chr.
  rewrite nat_ascii_embedding by lia. lia.
Qed.

Lemma lowerUnit_hex (c : ascii) (d : Z) :
  JS.digitVal c = Some d -> lowerUnit (JS.code c) = JS.code (JS.digitChar d).
Proof.
  unfold JS.digitVal, lowerUnit, JS.digitChar. intros H.
  pose proof (code_bound c) as B.
  destruct ((48 <=? JS.code c) && (JS.code c <=? 57)) eqn:E1.
  - apply andb_true_iff in E1. destruct E1 as [A1 A2].
    apply Z.leb_le in A1. apply Z.leb_le in A2.
    assert (d = JS.code c - 48) by congruence. subst d.
    assert (X1 : (65 <=? JS.code c) = false) by (apply Z.leb_gt; lia).
    assert (X2 : (192 <=? JS.code c) = false) by (apply Z.leb_gt; lia).
    assert (X3 : (JS.code c - 48 <? 10) = true) by (apply Z.ltb_lt; lia).
    rewrite X1, X2, X3. cbn [andb]. rewrite code_chr by lia. lia.
  - destruct ((97 <=? JS.code c) && (JS.code c <=? 102)) eqn:E2.
    + apply andb_true_iff in E2. destruct E2 as [A1 A2].
      apply Z.leb_le in A1. apply Z.leb_le in A2.
      assert (d = JS.code c - 87) by congruence. subst d.
      assert (X1 : (JS.code c <=? 90) = false) by (apply Z.leb_gt; lia).
      assert (X2 : (192 <=? JS.code c) = false) by (apply Z.leb_gt; lia).
      assert (X3 : (JS.code c - 87 <? 10) = false) by (apply Z.ltb_ge; lia).
      rewrite X1, X2, X3, andb_false_r. cbn [andb]. rewrite code_chr by lia. lia.
    + destruct ((65 <=? JS.code c) && (JS.code c <=? 70)) eqn:E3; [| discriminate].
      apply andb_true_iff in E3. destruct E3 as [A1 A2].
      apply Z.leb_le in A1. apply Z.leb_le in A2.
      assert (d = JS.code c - 55) by congruence. subst d.
      assert (X1 : (65 <=? JS.code c) = true) by (apply Z.leb_le; lia).
      assert (X2 : (JS.code c <=? 90) = true) by (apply Z.leb_le; lia).
      assert (X3 : (JS.code c - 55 <? 10) = false) by (apply Z.ltb_ge; lia).
      rewrite X1, X2, X3. cbn [andb]. rewrite code_chr by lia. lia.
Qed.

Lemma fixedHex_peel (n : nat) :
  forall (z : Z) (t : string),
    fixedHex (S n) z t
    = String (JS.digitChar ((z / 16 ^ Z.of_nat n) mod 16)) (fixedHex n z t).
Proof.
  induction n as [| n IH]; intros z t.
  - cbn [fixedHex]. rewrite Z.pow_0_r, Z.div_1_r. reflexivity.
  - change (fixedHex (S (S n)) z t)
      with (fixedHex (S n) (z / 16) (String (JS.digitChar (z mod 16)) t)).
    rewrite IH. cbn [fixedHex]. f_equal. f_equal. f_equal.
    rewrite Z.div_div by lia.
    rewrite Nat2Z.inj_succ, Z.pow_succ_r by lia. reflexivity.
Qed.

Lemma units_app (a b : string) : units (a ++ b) = app (units a) (units b).
Proof. induction a as [| c a IH]; [reflexivity | cbn [append units app]; now rewrite IH]. Qed.

Lemma units_repeatChar (c : ascii) (n : nat) :
  units (JS.repeatChar c n) = repeat (JS.code c) n.
Proof. induction n as [| n IH]; [reflexivity | cbn [JS.repeatChar units repeat]; now rewrite IH]. Qed.

Lemma length_units (s : string) : List.length (units s) = String.length s.
Proof. induction s as [| c s IH]; [reflexivity | cbn [units List.length String.length]; now rewrite IH]. Qed.

(** The digits of a hexadecimal numeral, lowered, are the fixed-width
    numeral of its value. *)
Lemma lowered_digits_are_fixedHex (s : string) :
  forall (acc r : Z) (t : string),
    JS.parseDigits 16 s acc = Some r -> 0 <= acc ->
    app (map lowerUnit (units s)) (units t) = units (fixedHex (String.length s) r t)
    /\ r / 16 ^ Z.of_nat (String.length s) = acc.
Proof.
  induction s as [| c s IH]; intros acc r t P Hacc.
  - cbn in P. injection P as <-. cbn [units map app String.length fixedHex].
    rewrite Z.pow_0_r, Z.div_1_r. auto.
  - cbn [JS.parseDigits] in P.
    destruct (JS.digitVal c) as [d |] eqn:Dc; [| discriminate].
    destruct (d <? 16) eqn:Dr; [| discriminate].
    pose proof (digitVal_range c d Dc) as Rd.
    destruct (IH (acc * 16 + d) r t P ltac:(lia)) as [IH1 IH2].
    cbn [String.length]. rewrite fixedHex_peel, IH2.
    split.
    + cbn [units map app]. rewrite IH1. f_equal.
      rewrite (lowerUnit_hex c d Dc). f_equal. f_equal.
      rewrite Z.add_comm, Z.mod_add by lia. symmetry. apply Z.mod_small. lia.
    + rewrite Nat2Z.inj_succ, Z.pow_succ_r by lia.
      rewrite (Z.mul_comm 16). rewrite <- Z.div_div by lia.
      rewrite IH2. rewrite Z.div_add_l by lia.
      rewrite Z.div_small by lia. lia.
Qed.

Lemma fixedHex_pad (m n : nat) (a : Z) (t : string) :
  0 <= a < 16 ^ Z.of_nat n ->
  fixedHex (m + n) a t = JS.repeatChar "0" m ++ fixedHex n a t.
Proof.
  intros H. induction m as [| m IH]; [reflexivity |].
  change (S m + n)%nat with (S (m + n)). rewrite fixedHex_peel, IH.
  cbn [JS.repeatChar append]. f_equal.
  rewrite Z.div_small; [reflexivity |].
  split; [lia |]. apply Z.lt_le_trans with (16 ^ Z.of_nat n); [lia |].
  apply Z.pow_le_mono_r; lia.
Qed.

Lemma parseDigits_hexChars (s : string) :
  JS.allChars isHexChar s = true ->
  forall acc, exists r, JS.parseDigits 16 s acc = Some r.
Proof.
  induction s as [| c s IH]; intros H acc.
  - exists acc. reflexivity.
  - cbn [JS.allChars] in H. apply andb_true_iff in H. destruct H as [Hc Hs].
    unfold isHexChar in Hc. cbn [JS.parseDigits].
    destruct (JS.digitVal c) as [d |] eqn:Dc; [| discriminate].
    pose proof (digitVal_range c d Dc) as Rd.
    assert (E : (d <? 16) = true) by (apply Z.ltb_lt; lia). rewrite E.
    apply IH, Hs.
Qed.

Lemma word32_fixedHex (a : Z) : 0 <= a < 2 ^ 256 -> word32 a = "0x" ++ fixedHex 64 a "".
Proof.
  intros H. unfold word32. f_equal. rewrite padStart64_leftPad32 by assumption.
  rewrite <- (append_nil_r (Ethers.hexOfBytes (leftPad32 a))).
  exact (hexOfBytes_fixedHex 32 a "").
Qed.

(** The words [encodeAddressForStorage] makes of a run of code units that
    does not open with [0x]. *)
Lemma encodeAddress_body (u : ustring) :
  (forall r, u <> 48 :: 120 :: r) ->
  encodeAddressForStorage (VString u)
  = Ok (app (units "0x") (app (repeat 48 (64 - List.length (map lowerUnit u)))
                              (map lowerUnit u))).
Proof.
  intros H. unfold encodeAddressForStorage.
  destruct u as [| k1 t]; [reflexivity |].
  destruct (Z.eq_dec k1 48) as [-> | N1].
  - destruct t as [| k2 r]; [reflexivity |].
    destruct (Z.eq_dec k2 120) as [-> | N2]; [exfalso; now apply (H r) |].
    destruct k2 as [| p | p]; try reflexivity.
    do 7 (destruct p as [p | p |]; try reflexivity). contradiction.
  - destruct k1 as [| p | p]; try reflexivity.
    do 6 (destruct p as [p | p |]; try reflexivity). contradiction.
Qed.

Lemma hexChars_not_0x (h : string) :
  JS.allChars isHexChar h = true -> forall r, units h <> 48 :: 120 :: r.
Proof.
  intros H r E. destruct h as [| c1 [| c2 h]]; try discriminate.
  cbn [units] in E. injection E as _ E2 _.
  cbn [JS.allChars] in H. apply andb_true_iff in H. destruct H as [_ H].
  apply andb_true_iff in H. destruct H as [H _].
  unfold isHexChar, JS.digitVal in H. rewrite E2 in H. discriminate.
Qed.

Lemma parseDigits_nonneg (s : string) :
  forall acc r, JS.parseDigits 16 s acc = Some r -> 0 <= acc -> 0 <= r.
Proof.
  induction s as [| c s IH]; intros acc r P Hacc.
  - cbn in P. injection P as <-. exact Hacc.
  - cbn [JS.parseDigits] in P.
    destruct (JS.digitVal c) as [d |] eqn:Dc; [| discriminate].
    destruct (d <? 16); [| discriminate].
    pose proof (digitVal_range c d Dc). apply (IH (acc * 16 + d) r P). lia.
Qed.

(** X4.  The address encoder keeps the number and nothing else.  For a run
    [h] of at most 64 hexadecimal digits in either case, with or without
    the prefix [0x], [encodeAddressForStorage] returns the 32-byte word of
    the number [h] denotes: the case of the letters (a checksum) is dropped
    and the word is padded on the left. *)
Theorem address_is_encoded_as_its_number (h : string) :
  JS.allChars isHexChar h = true -> (String.length h <= 64)%nat ->
  exists a,
    JS.parseDigits 16 h 0 = Some a
    /\ 0 <= a < 16 ^ Z.of_nat (String.length h)
    /\ encodeAddressForStorage (VString (units ("0x" ++ h))) = Ok (units (word32 a))
    /\ encodeAddressForStorage (VString (units h)) = Ok (units (word32 a)).
Proof.
  intros H L.
  destruct (parseDigits_hexChars h H 0) as [a P]. exists a.
  destruct (lowered_digits_are_fixedHex h 0 a "" P ltac:(lia)) as [F Q].
  cbn [units app] in F. rewrite app_nil_r in F.
  pose proof (parseDigits_nonneg h 0 a P ltac:(lia)) as Ha.
  assert (Hb : a < 16 ^ Z.of_nat (String.length h)).
  { apply Z.div_small_iff in Q; [| lia]. lia. }
  assert (Hw : a < 2 ^ 256).
  { apply Z.lt_le_trans with (16 ^ Z.of_nat (String.length h)); [exact Hb |].
    change (2 ^ 256) with (16 ^ 64). apply Z.pow_le_mono_r; lia. }
  assert (W : units (word32 a)
              = app (units "0x")
                    (app (repeat 48 (64 - List.length (map lowerUnit (units h))))
                         (map lowerUnit (units h)))).
  { rewrite word32_fixedHex by lia.
    rewrite length_map, length_units, F.
    replace 64%nat with ((64 - String.length h) + String.length h)%nat at 1 by lia.
    rewrite fixedHex_pad by lia.
    rewrite !units_app, units_repeatChar. reflexivity. }
  split; [exact P |]. split; [lia |]. split.
  - rewrite W. reflexivity.
  - rewrite W. apply encodeAddress_body, hexChars_not_0x, H.
Qed.

Lemma address_is_encoded_as_its_number_witness :
  JS.allChars isHexChar "70997970C51812dc3A010C7d01b50e0d17dc79C8" = true
  /\ exists a,
      JS.parseDigits 16 "70997970C51812dc3A010C7d01b50e0d17dc79C8" 0 = Some a
      /\ 0 <= a < 16 ^ Z.of_nat (String.length "70997970C51812dc3A010C7d01b50e0d17dc79C8")
      /\ encodeAddressForStorage (VString (units Token.holder)) = Ok (units (word32 a))
      /\ encodeAddressForStorage
           (VString (units "70997970C51812dc3A010C7d01b50e0d17dc79C8"))
         = Ok (units (word32 a)).
Proof.
  split; [reflexivity |].
  apply (address_is_encoded_as_its_number "70997970C51812dc3A010C7d01b50e0d17dc79C8").
  - reflexivity.
  - simpl. lia.
Defined.

(** ** Digests as slot numbers *)

Lemma length_le_bytes (n : nat) (v : Z) : List.length (Keccak.le_bytes n v) = n.
Proof.
  revert v. induction n as [| n IH]; intros v; [reflexivity |].
  cbn [Keccak.le_bytes List.length]. now rewrite IH.
Qed.

Lemma length_keccak256 (msg : list Z) : List.length (Keccak.keccak256 msg) = 32%nat.
Proof.
  unfold Keccak.keccak256. cbv zeta. cbn [seq flat_map].
  rewrite !length_app, !length_le_bytes. reflexivity.
Qed.

Lemma be_value_from_app (a b : list Z) (acc : Z) :
  be_value_from acc (app a b) = be_value_from (be_value_from acc a) b.
Proof.
  revert acc. induction a as [| x a IH]; intros acc; [reflexivity |].
  cbn [app be_value_from]. apply IH.
Qed.

Lemma be_value_from_bound (bs : list Z) :
  Forall isByte bs ->
  forall acc, 0 <= acc ->
    acc * 256 ^ Z.of_nat (List.length bs) <= be_value_from acc bs
    < (acc + 1) * 256 ^ Z.of_nat (List.length bs).
Proof.
  induction 1 as [| x bs Hx Hbs IH]; intros acc Hacc.
  - cbn [be_value_from List.length]. rewrite Z.pow_0_r. lia.
  - cbn [be_value_from List.length]. rewrite Nat2Z.inj_succ, Z.pow_succ_r by lia.
    unfold isByte in Hx. specialize (IH (acc * 256 + x) ltac:(lia)).
    assert (0 < 256 ^ Z.of_nat (List.length bs)) by (apply Z.pow_pos_nonneg; lia).
    nia.
Qed.

Lemma be_bytes_snoc (n : nat) (v x : Z) :
  0 <= x < 256 -> be_bytes (S n) (v * 256 + x) = app (be_bytes n v) [x].
Proof.
  intros Hx. cbn [be_bytes].
  rewrite Z.div_add_l by lia. rewrite Z.div_small by lia.
  rewrite Z.add_0_r. f_equal. f_equal.
  rewrite Z.add_comm, Z.mod_add by lia. apply Z.mod_small. lia.
Qed.

Lemma be_bytes_be_value (bs : list Z) :
  Forall isByte bs -> be_bytes (List.length bs) (be_value bs) = bs.
Proof.
  intros H. unfold be_value.
  induction bs as [| x bs IH] using rev_ind; [reflexivity |].
  apply Forall_app in H. destruct H as [Hbs Hx]. inversion Hx as [| ? ? Hx' _]. subst.
  rewrite be_value_from_app, length_app. cbn [List.length be_value_from].
  rewrite Nat.add_comm. cbn [Nat.add].
  rewrite be_bytes_snoc by exact Hx'. now rewrite IH.
Qed.

Lemma keccakWord_range (msg : list Z) : 0 <= keccakWord msg < 2 ^ 256.
Proof.
  unfold keccakWord, be_value.
  pose proof (be_value_from_bound _ (keccak256_bytes msg) 0 ltac:(lia)) as B.
  rewrite length_keccak256 in B. change (256 ^ Z.of_nat 32) with (2 ^ 256) in B. lia.
Qed.

Lemma leftPad32_keccakWord (msg : list Z) : leftPad32 (keccakWord msg) = Keccak.keccak256 msg.
Proof.
  unfold leftPad32, keccakWord. rewrite <- (length_keccak256 msg).
  apply be_bytes_be_value, keccak256_bytes.
Qed.

Lemma keccakHex_is_word (msg : list Z) : keccakHex msg = word32 (keccakWord msg).
Proof.
  rewrite word32_hexlify by apply keccakWord_range.
  now rewrite leftPad32_keccakWord.
Qed.

Lemma getBigInt_0x (body : string) (z : Z) :
  JS.StringToBigInt ("0x" ++ body) = Some z -> Ethers.getBigInt ("0x" ++ body) = Ok z.
Proof. intros H. cbn [append Ethers.getBigInt]. cbn [append] in H. now rewrite H. Qed.

Lemma getBigInt_keccakHex (msg : list Z) : Ethers.getBigInt (keccakHex msg) = Ok (keccakWord msg).
Proof.
  pose proof (BigInt_keccakHex msg) as H. unfold JS.BigInt_of_string in H.
  unfold keccakHex, Ethers.hexlify in *.
  destruct (JS.StringToBigInt ("0x" ++ Ethers.hexOfBytes (Keccak.keccak256 msg))) as [z |] eqn:E;
    [| discriminate].
  rewrite (getBigInt_0x _ z E). congruence.
Qed.

Lemma readsSlotAs_keccakHex (msg : list Z) : readsSlotAs (keccakHex msg) (keccakWord msg).
Proof.
  right. split; [apply smallDecimal_0x |].
  unfold keccakHex at 1 2, Ethers.hexlify. rewrite startsWith_0x.
  split; [apply getBigInt_keccakHex | apply keccakWord_range].
Qed.

Lemma readsSlotAs_declared (b : Z) : 0 <= b < 1000 -> readsSlotAs (JS.toString 10 b) b.
Proof.
  intros H. left. destruct (decimal_slot_facts b) as [D [_ [_ P]]]; [lia |].
  unfold smallDecimal. rewrite D, P, roundToDouble_small by lia.
  assert (E : (b <? 1000) = true) by (apply Z.ltb_lt; lia). now rewrite E.
Qed.

Lemma formatSlot_keccakHex (msg : list Z) : formatSlot (keccakHex msg) = keccakHex msg.
Proof. apply formatSlot_0x. Qed.

(** ** Mapping keys *)

Lemma mapping_slot_of_decimal_key (slot key : string) (b k : Z) :
  readsSlotAs slot b ->
  JS.allDigits key = true -> JS.StringToBigInt key = Some k -> 0 <= k < 2 ^ 256 ->
  calculateMappingSlot slot key = Ok (keccakHex (app (leftPad32 k) (leftPad32 b))).
Proof.
  intros Hs Hd Hk Hr.
  destruct (smallDecimal key) as [n |] eqn:Sm.
  - destruct (smallDecimal_reads key n Sm) as [_ [_ Hn]].
    assert (n = k) by congruence. subst n.
    now apply mapping_slot_of_small_key.
  - apply (mapping_slot_of_key_word slot key (word32 k)); try assumption.
    + rewrite (allDigits_not_0x key Hd), Hd. unfold JS.BigInt_of_string. now rewrite Hk.
    + now apply getBytes_word32.
Qed.

Lemma mapping_slot_of_hex_key (slot h : string) (b : Z) (kb : list Z) :
  readsSlotAs slot b ->
  Ethers.bytesOfHex (JS.padStart h 64 "0") = Some kb ->
  calculateMappingSlot slot ("0x" ++ h) = Ok (keccakHex (app kb (leftPad32 b))).
Proof.
  intros Hs Hb.
  apply (mapping_slot_of_key_word slot ("0x" ++ h) ("0x" ++ JS.padStart h 64 "0"));
    try assumption.
  - apply smallDecimal_0x.
  - rewrite startsWith_0x. reflexivity.
  - cbn [append Ethers.getBytes]. cbn [Ascii.eqb Bool.eqb andb orb]. now rewrite Hb.
Qed.

Lemma hashKeyAndSlot_shape (keyBytes slotBytes h : string) :
  hashKeyAndSlot keyBytes slotBytes = Ok h -> exists msg, h = keccakHex msg.
Proof.
  unfold hashKeyAndSlot, Ethers.concat2, Ethers.keccak256.
  destruct (Ethers.getBytes keyBytes) as [kb | e]; [| discriminate].
  destruct (Ethers.getBytes slotBytes) as [sb | e]; [| discriminate].
  cbn [bind].
  destruct (Ethers.getBytes (Ethers.hexlify (app kb sb))) as [bs | e]; [| discriminate].
  cbn [bind]. intros H. injection H as <-. now exists bs.
Qed.

Lemma calculateMappingSlot_shape (slot key h : string) :
  calculateMappingSlot slot key = Ok h -> exists msg, h = keccakHex msg.
Proof.
  unfold calculateMappingSlot, mappingSlotSmall, mappingSlotGeneral. intros H.
  assert (G : forall r : result string,
             (forall x, r = Ok x -> exists msg, x = keccakHex msg) ->
             match r with Ok x => Ok x | Err _ => Err MappingSlotError end = Ok h ->
             exists msg, h = keccakHex msg).
  { intros r Hr E. destruct r as [x | e]; [| discriminate].
    injection E as <-. now apply Hr. }
  revert H. apply G. intros x Hx.
  destruct (smallDecimal slot) as [n |].
  - destruct (smallDecimal key) as [k |]; [now apply hashKeyAndSlot_shape in Hx |].
    match type of Hx with bind ?r _ = _ => destruct r as [kbs | e] end; [| discriminate].
    cbn [bind] in Hx. now apply hashKeyAndSlot_shape in Hx.
  - destruct (Ethers.getBigInt _) as [sb | e]; [| discriminate].
    cbn [bind] in Hx.
    match type of Hx with bind ?r _ = _ => destruct r as [kbs | e] end; [| discriminate].
    cbn [bind] in Hx. now apply hashKeyAndSlot_shape in Hx.
Qed.

Lemma length_word32 (w : Z) : 0 <= w < 2 ^ 256 -> String.length (word32 w) = 66%nat.
Proof.
  intros H. rewrite word32_hexlify by assumption. unfold Ethers.hexlify.
  cbn [append String.length]. rewrite length_hexOfBytes.
  unfold leftPad32.
  assert (L : forall n v, List.length (be_bytes n v) = n).
  { induction n as [| n IH]; intros v; [reflexivity |].
    cbn [be_bytes]. rewrite length_app, IH. cbn [List.length]. lia. }
  now rewrite L.
Qed.

(** X5.  A mapping slot is always one 32-byte word.  Whatever the slot and
    the key, a slot that [calculateMappingSlot] returns is [0x] followed by
    64 hexadecimal digits, the word of a number below [2^256]; [formatSlot]
    passes it on unchanged. *)
Theorem mapping_slot_is_a_word (slot key h : string) :
  calculateMappingSlot slot key = Ok h ->
  exists w, 0 <= w < 2 ^ 256
            /\ h = word32 w
            /\ String.length h = 66%nat
            /\ Ethers.getBigInt h = Ok w
            /\ formatSlot h = h.
Proof.
  intros H. destruct (calculateMappingSlot_shape slot key h H) as [msg ->].
  exists (keccakWord msg). pose proof (keccakWord_range msg) as R.
  split; [exact R |]. split; [apply keccakHex_is_word |]. split.
  - rewrite keccakHex_is_word. now apply length_word32.
  - split; [apply getBigInt_keccakHex | apply formatSlot_keccakHex].
Qed.

Lemma mapping_slot_is_a_word_witness :
  exists h, calculateMappingSlot "14" "alice" = Ok h
            /\ exists w, 0 <= w < 2 ^ 256
                         /\ h = word32 w
                         /\ String.length h = 66%nat
                         /\ Ethers.getBigInt h = Ok w
                         /\ formatSlot h = h.
Proof.
  eexists. split; [vm_compute; reflexivity |].
  apply (mapping_slot_is_a_word "14" "alice"). vm_compute. reflexivity.
Defined.



(** ** Paths from a declared variable *)

Lemma getStorageLocation_path
      (hreMembers : hreLookup) (artifacts : artifactStore) (contract variable : string)
      (layout : StorageLayoutInfo) (sv : StorageVar) (ti : TypeInfo)
      (segment : string) (rest : list string) :
  declares artifacts contract variable layout sv ti -> memberless ti ->
  getStorageLocation hreMembers artifacts contract variable (Some (segment :: rest))
  = let root := declaredLocation layout variable sv ti in
    if JS.startsWith (s_type sv) "t_mapping"
    then resolveMappingPath hreMembers root (segment :: rest)
    else if JS.startsWith (s_type sv) "t_array"
    then resolveArrayPath hreMembers root (segment :: rest)
    else if JS.startsWith (s_type sv) "t_struct"
    then resolveStructPath hreMembers root (segment :: rest)
    else Err UnsupportedVariableType.
Proof.
  intros D M. pose proof D as [A _]. unfold getStorageLocation, loadStorageLayout.
  rewrite A. cbn [bind].
  rewrite (findVariableLocation_memberless _ _ _ _ _ _ D M). reflexivity.
Qed.

Lemma setState_unpacked
      (hreMembers : hreLookup) (artifacts : artifactStore) (params : SetStateParams)
      (net : Network) (location : StorageLocation) :
  getStorageLocation hreMembers artifacts (contractName params) (varName params)
                     (path params) = Ok location ->
  hasPositiveOffset location = None ->
  setState hreMembers artifacts params net
  = match encodeValueForStorage (value params) location with
    | Ok word => (true, sendSet (contractAddress params) (formatSlot (loc_slot location))
                                word net)
    | Err _ => (false, net)
    end.
Proof.
  intros L O. unfold setState, setSlotValue. rewrite L, O.
  destruct (encodeValueForStorage (value params) location); reflexivity.
Qed.

Lemma resolveMappingPath_one_key
      (hreMembers : hreLookup) (varLocation : VarLocation)
      (keyType valueType key h : string) :
  mappingKeyValueTypes (type varLocation) = (keyType, valueType) ->
  calculateMappingSlot (slot varLocation) (formatMappingKey keyType key) = Ok h ->
  resolveMappingPath hreMembers varLocation [key]
  = Ok (mkStorageLocation h None (JS.JNum (getSizeForType valueType)) valueType None).
Proof.
  intros T S. cbn [resolveMappingPath]. rewrite T, S. reflexivity.
Qed.

Lemma formatMappingKey_address (keyType key h : string) :
  JS.includes keyType "t_address" = true ->
  key = "0x" ++ h \/ (key = h /\ JS.startsWith h "0x" = false) ->
  formatMappingKey keyType key = "0x" ++ h.
Proof.
  intros A [-> | [-> N]]; unfold formatMappingKey; rewrite A.
  - now rewrite startsWith_0x.
  - now rewrite N.
Qed.

Lemma formatMappingKey_number (keyType key : string) (n : Z) :
  JS.includes keyType "t_address" = false ->
  JS.includes keyType "t_uint" = true \/ JS.includes keyType "t_int" = true ->
  JS.StringToBigInt key = Some n ->
  formatMappingKey keyType key = JS.toString 10 n.
Proof.
  intros A U K. unfold formatMappingKey. rewrite A.
  assert (E : JS.includes keyType "t_uint" || JS.includes keyType "t_int" = true)
    by (apply orb_true_iff; exact U).
  now rewrite E, K.
Qed.

(** The slot of the value a numeric key selects. *)
Lemma mapping_slot_of_number (slot keyType key : string) (b n : Z) :
  readsSlotAs slot b ->
  JS.includes keyType "t_address" = false ->
  JS.includes keyType "t_uint" = true \/ JS.includes keyType "t_int" = true ->
  JS.StringToBigInt key = Some n -> 0 <= n < 2 ^ 256 ->
  calculateMappingSlot slot (formatMappingKey keyType key)
  = Ok (keccakHex (app (leftPad32 n) (leftPad32 b))).
Proof.
  intros Hs A U K R. rewrite (formatMappingKey_number keyType key n A U K).
  destruct (decimal_slot_facts n) as [D [_ [B _]]]; [lia |].
  now apply mapping_slot_of_decimal_key.
Qed.






(** ** Nested mappings *)

Lemma mappingKeyValueTypes_unclosed (ty : string) :
  JS.lastIndexOfChar ty ")" = None -> mappingKeyValueTypes ty = ("t_uint256", "t_bool").
Proof.
  intros H. unfold mappingKeyValueTypes. rewrite H. now destruct (JS.startsWith ty "t_mapping(").
Qed.

Lemma resolveMappingPath_into_mapping
      (hreMembers : hreLookup) (varLocation : VarLocation)
      (keyType valueType key h next : string) (rest : list string) :
  mappingKeyValueTypes (type varLocation) = (keyType, valueType) ->
  calculateMappingSlot (slot varLocation) (formatMappingKey keyType key) = Ok h ->
  JS.startsWith valueType "t_mapping" = true ->
  resolveMappingPath hreMembers varLocation (key :: next :: rest)
  = resolveMappingPath hreMembers
      (mkVarLocation "innerMapping" h None (JS.JNum 32) valueType None None None)
      (next :: rest).
Proof.
  intros T S V.
  change (resolveMappingPath hreMembers varLocation (key :: next :: rest))
    with (let '(keyType, valueType) := mappingKeyValueTypes (type varLocation) in
          let formattedKey := formatMappingKey keyType key in
          let* mappingSlot := calculateMappingSlot (slot varLocation) formattedKey in
          if JS.startsWith valueType "t_mapping" then
            resolveMappingPath hreMembers
              (mkVarLocation "innerMapping" mappingSlot None (JS.JNum 32) valueType
                             None None None)
              (next :: rest)
          else if JS.startsWith valueType "t_array" then
            resolveArrayPath hreMembers
              (mkVarLocation "innerArray" mappingSlot None (JS.JNum 32) valueType
                             None None None)
              (next :: rest)
          else if JS.startsWith valueType "t_struct" then
            let structMatch := TypeName.structMatch valueType in
            let structName := orString structMatch "unknown" in
            let* structChildren :=
              structChildrenOf (structInfo varLocation) structName structMatch mappingSlot in
            resolveStructPath hreMembers
              (mkVarLocation structName mappingSlot None (JS.JNum 32) valueType
                             structChildren None None)
              (next :: rest)
          else
            Ok (mkStorageLocation mappingSlot None (JS.JNum (getSizeForType valueType))
                                  valueType None)).
  rewrite T. cbv zeta. rewrite S. cbn [bind]. now rewrite V.
Qed.

(** X9.  The second level of a nested mapping is taken for
    [mapping(uint256 => bool)].  The value type read off the outer type
    name is the text up to the second comma; when it starts with
    [t_mapping] and holds no closing parenthesis, as for every nested
    mapping the compiler names, the inner level is resolved with the
    default types.  So a two-key write resolves the slot
    [keccak256(leftPad32(n) ++ keccak256(kb ++ leftPad32(b)))] for the
    integer [n] the second key denotes, and it stores the truth value of
    the value given, whatever the value type of the inner mapping. *)
Theorem nested_mapping_write_end_to_end
        (hreMembers : hreLookup) (artifacts : artifactStore)
        (contract address variable : string)
        (layout : StorageLayoutInfo) (sv : StorageVar) (ti : TypeInfo)
        (keyType valueType key1 h key2 : string) (kb : list Z)
        (newValue : jsvalue) (b n : Z) (net : Network) :
  declares artifacts contract variable layout sv ti -> memberless ti ->
  JS.startsWith (s_type sv) "t_mapping" = true ->
  mappingKeyValueTypes (s_type sv) = (keyType, valueType) ->
  JS.includes keyType "t_address" = true ->
  JS.startsWith valueType "t_mapping" = true ->
  JS.lastIndexOfChar valueType ")" = None ->
  s_slot sv = JS.toString 10 b -> 0 <= b < 1000 ->
  key1 = "0x" ++ h \/ (key1 = h /\ JS.startsWith h "0x" = false) ->
  Ethers.bytesOfHex (JS.padStart h 64 "0") = Some kb ->
  JS.StringToBigInt key2 = Some n -> 0 <= n < 2 ^ 256 ->
  let cell :=
    keccakHex (app (leftPad32 n) (Keccak.keccak256 (app kb (leftPad32 b)))) in
  getStorageLocation hreMembers artifacts contract variable (Some [key1; key2])
  = Ok (mkStorageLocation cell None (JS.JNum 1) "t_bool" None)
  /\ setNestedMappingValue hreMembers artifacts contract address variable
                           [KeyText key1; KeyText key2] newValue net
     = (true, sendSet address cell (encodeBoolForStorage newValue) net).
Proof.
  intros D M T KV A V U S Hb K1 B K2 Hn cell.
  assert (L : getStorageLocation hreMembers artifacts contract variable (Some [key1; key2])
              = Ok (mkStorageLocation cell None (JS.JNum 1) "t_bool" None)).
  { rewrite (getStorageLocation_path _ _ _ _ _ _ _ _ _ D M). cbv zeta. rewrite T.
    rewrite (resolveMappingPath_into_mapping
               hreMembers (declaredLocation layout variable sv ti) keyType valueType key1
               (keccakHex (app kb (leftPad32 b))) key2 [] KV).
    - apply (resolveMappingPath_one_key hreMembers _ "t_uint256" "t_bool").
      + cbn [type]. now apply mappingKeyValueTypes_unclosed.
      + cbn [slot]. unfold cell. rewrite <- leftPad32_keccakWord.
        apply (mapping_slot_of_number _ "t_uint256" key2 _ n);
          auto using readsSlotAs_keccakHex.
    - cbn [slot declaredLocation].
      rewrite (formatMappingKey_address keyType key1 h A K1), S.
      apply mapping_slot_of_hex_key; [now apply readsSlotAs_declared | exact B].
    - exact V. }
  split; [exact L |].
  unfold setNestedMappingValue, stateSetter_setState. cbn [map keyToString].
  rewrite (setState_unpacked hreMembers artifacts
             (mkParams contract variable newValue (Some [key1; key2]) address)
             net _ L eq_refl).
  cbn [value contractAddress loc_slot]. unfold cell. now rewrite formatSlot_keccakHex.
Qed.

Lemma nested_mapping_write_end_to_end_witness :
  declares Token.tokenArtifacts "Token" "allowances" Token.tokenLayout
           (mkStorageVar "allowances" "2" 0
                         "t_mapping(t_address,t_mapping(t_address,t_uint256))")
           (mkTypeInfo "mapping(address => mapping(address => uint256))" (Some "32") None)
  /\ mappingKeyValueTypes "t_mapping(t_address,t_mapping(t_address,t_uint256))"
     = ("t_address", "t_mapping(t_address")
  /\ JS.StringToBigInt "0x0000000000000000000000000000000000000002" = Some 2
  /\ setNestedMappingValue
       Demo.noExtractedLayouts Token.tokenArtifacts "Token" Token.tokenAt "allowances"
       [KeyText Token.holder; KeyText "0x0000000000000000000000000000000000000002"]
       (VBigInt 500) (Demo.networkHolding 0)
     = (true,
        sendSet Token.tokenAt
                (keccakHex
                   (app (leftPad32 2)
                        (Keccak.keccak256
                           (app (app (repeat 0 12)
                                     [112; 153; 121; 112; 197; 24; 18; 220; 58; 1; 12; 125;
                                      1; 181; 14; 13; 23; 220; 121; 200])
                                (leftPad32 2)))))
                (units (word32 1)) (Demo.networkHolding 0)).
Proof.
  split; [repeat split |]. split; [reflexivity |]. split; [reflexivity |].
  refine (proj2 (nested_mapping_write_end_to_end
            Demo.noExtractedLayouts Token.tokenArtifacts "Token" Token.tokenAt "allowances"
            Token.tokenLayout
            (mkStorageVar "allowances" "2" 0
                          "t_mapping(t_address,t_mapping(t_address,t_uint256))")
            (mkTypeInfo "mapping(address => mapping(address => uint256))" (Some "32") None)
            "t_address" "t_mapping(t_address" Token.holder
            "70997970C51812dc3A010C7d01b50e0d17dc79C8"
            "0x0000000000000000000000000000000000000002"
            (app (repeat 0 12)
                 [112; 153; 121; 112; 197; 24; 18; 220; 58; 1; 12; 125; 1; 181; 14; 13; 23;
                  220; 121; 200])
            (VBigInt 500) 2 2 (Demo.networkHolding 0) _ _ _ _ _ _ _ _ _ _ _ _ _)).
  - repeat split.
  - left. reflexivity.
  - reflexivity.
  - reflexivity.
  - reflexivity.
  - reflexivity.
  - reflexivity.
  - reflexivity.
  - lia.
  - left. reflexivity.
  - reflexivity.
  - reflexivity.
  - lia.
Defined.

(** ** Arrays *)










(** X12.  Nothing lies below the length of an array.  A path that goes on
    after the length marker is handed to the struct resolver with a cell
    that has no members, and fails: with the error for a struct without
    member information when the global lookup knows no members of
    [t_uint256], and with the error of a missing field otherwise. *)
Theorem path_below_length_fails
        (hreMembers : hreLookup) (varLocation : VarLocation)
        (next : string) (rest : list string) :
  let e := match hreMembers "t_uint256" with
           | [] => NoStructMembers
           | _ => FieldNotFound
           end in
  resolveArrayPath hreMembers varLocation ("length" :: next :: rest) = Err e
  /\ resolveArrayPath hreMembers varLocation (".length" :: next :: rest) = Err e.
Proof.
  cbv zeta. split; cbn [resolveArrayPath isLengthMarker String.eqb Ascii.eqb Bool.eqb andb orb];
    cbn [resolveStructPath children]; unfold missingChildren; cbn [parent type];
    destruct (hreMembers "t_uint256"); reflexivity.
Qed.

(** X13.  An index that does not start with a number is refused.  When
    [parseInt] finds no digits at the head of the index text, and the text
    is no length marker, [resolveArrayPath] fails for a dynamic and for a
    fixed-size array alike, whatever follows in the path. *)
Theorem index_without_digits_is_refused
        (hreMembers : hreLookup) (varLocation : VarLocation)
        (index : string) (rest : list string) :
  JS.parseInt10 index = JS.JNaN -> isLengthMarker index = false ->
  isOk (resolveArrayPath hreMembers varLocation (index :: rest)) = false.
Proof.
  intros P Lm. cbn [resolveArrayPath]. rewrite Lm.
  assert (E : forall (r : result string) (k : string -> result StorageLocation),
             isOk r = false -> isOk (bind r k) = false).
  { intros r k H. destruct r; [discriminate | reflexivity]. }
  apply E.
  destruct (JS.includes (type varLocation) "t_array" && JS.includes (type varLocation) "dyn").
  - unfold calculateDynamicArraySlot. unfold isLengthMarker in Lm. rewrite Lm, P.
    destruct (JS.BigInt_of_string (slot varLocation)); [| reflexivity]. cbn [bind].
    destruct (Ethers.keccak256 _); [| reflexivity]. cbn [bind].
    destruct (JS.BigInt_of_string _); reflexivity.
  - unfold calculateArraySlot. rewrite P.
    destruct (Ethers.getBigInt _); reflexivity.
Qed.

Lemma index_without_digits_is_refused_witness :
  JS.parseInt10 "last" = JS.JNaN
  /\ isLengthMarker "last" = false
  /\ isOk (resolveArrayPath Demo.noExtractedLayouts
             (mkVarLocation "uintArray" "3" (Some 0) (JS.JNum 32)
                            "t_array(t_uint256)dyn_storage" None None None)
             ["last"]) = false.
Proof.
  split; [reflexivity |]. split; [reflexivity |].
  apply (index_without_digits_is_refused
           Demo.noExtractedLayouts
           (mkVarLocation "uintArray" "3" (Some 0) (JS.JNum 32)
                          "t_array(t_uint256)dyn_storage" None None None)
           "last" []); reflexivity.
Defined.

(** ** Members of a struct variable *)

Lemma struct_type_is_no_container (ty : string) :
  JS.startsWith ty "t_struct" = true ->
  JS.startsWith ty "t_mapping" = false /\ JS.startsWith ty "t_array" = false.
Proof.
  destruct ty as [| c1 [| c2 [| c3 ty]]]; cbn [JS.startsWith]; intros H;
    try discriminate H;
    try (rewrite ?andb_false_r in H; discriminate H).
  apply andb_true_iff in H. destruct H as [H1 H].
  apply andb_true_iff in H. destruct H as [H2 H].
  apply andb_true_iff in H. destruct H as [H3 _].
  apply Ascii.eqb_eq in H3. subst c3.
  rewrite H1, H2. split; reflexivity.
Qed.



Lemma resolveStructPath_field
      (hreMembers : hreLookup) (varLocation : VarLocation) (kids : list VarLocation)
      (field : string) (child : VarLocation) :
  children varLocation = Some kids ->
  find (fun c => String.eqb (name c) field) kids = Some child ->
  resolveStructPath hreMembers varLocation [field]
  = Ok (mkStorageLocation (slot child) (offset child) (size child) (type child) None).
Proof.
  intros C F. destruct kids as [| k ks]; [discriminate F |].
  cbn [resolveStructPath]. rewrite C, F. reflexivity.
Qed.



(** ** Slot texts without a prefix *)

Lemma digitVal_decimal (c : ascii) (d : Z) :
  JS.digitVal c = Some d -> d < 10 -> JS.isDigit c = true.
Proof.
  unfold JS.digitVal, JS.isDigit. intros H L.
  destruct ((48 <=? JS.code c) && (JS.code c <=? 57)); [reflexivity |].
  destruct ((97 <=? JS.code c) && (JS.code c <=? 102)) eqn:E2.
  - apply andb_true_iff in E2. destruct E2 as [A1 _]. apply Z.leb_le in A1.
    assert (d = JS.code c - 87) by congruence. lia.
  - destruct ((65 <=? JS.code c) && (JS.code c <=? 70)) eqn:E3; [| discriminate].
    apply andb_true_iff in E3. destruct E3 as [A1 _]. apply Z.leb_le in A1.
    assert (d = JS.code c - 55) by congruence. lia.
Qed.

Lemma parseDigits10_digits (s : string) :
  forall acc r, JS.parseDigits 10 s acc = Some r -> JS.allChars JS.isDigit s = true.
Proof.
  induction s as [| c s IH]; intros acc r P; [reflexivity |].
  cbn [JS.parseDigits] in P.
  destruct (JS.digitVal c) as [d |] eqn:Dc; [| discriminate].
  destruct (d <? 10) eqn:Dr; [| discriminate].
  apply Z.ltb_lt in Dr. cbn [JS.allChars].
  now rewrite (digitVal_decimal c d Dc Dr), (IH _ _ P).
Qed.

(** A numeral read in base 16 is above the same numeral read in base 10. *)
Lemma hex_reading_above (s : string) :
  forall a10 a16 d x,
    0 <= a10 -> a10 < a16 ->
    JS.parseDigits 10 s a10 = Some d -> JS.parseDigits 16 s a16 = Some x -> d < x.
Proof.
  induction s as [| c s IH]; intros a10 a16 d x H0 H1 P10 P16.
  - cbn in P10, P16. injection P10 as <-. injection P16 as <-. exact H1.
  - cbn [JS.parseDigits] in P10, P16.
    destruct (JS.digitVal c) as [k |] eqn:Dc; [| discriminate].
    destruct (k <? 10) eqn:K10; [| discriminate].
    destruct (k <? 16) eqn:K16; [| discriminate].
    pose proof (digitVal_range c k Dc).
    apply (IH (a10 * 10 + k) (a16 * 16 + k) d x); try assumption; lia.
Qed.

Lemma hex_reading_same (s : string) :
  forall d x,
    JS.parseDigits 10 s 0 = Some d -> JS.parseDigits 16 s 0 = Some x ->
    0 <= d <= x /\ (d = x -> x < 10).
Proof.
  induction s as [| c s IH]; intros d x P10 P16.
  - cbn in P10, P16. injection P10 as <-. injection P16 as <-. lia.
  - cbn [JS.parseDigits] in P10, P16.
    destruct (JS.digitVal c) as [k |] eqn:Dc; [| discriminate].
    destruct (k <? 10) eqn:K10; [| discriminate].
    destruct (k <? 16) eqn:K16; [| discriminate].
    pose proof (digitVal_range c k Dc) as Rk. apply Z.ltb_lt in K10.
    cbn [Z.mul Z.add] in P10, P16.
    destruct (Z.eq_dec k 0) as [-> | Nz]; [now apply IH |].
    destruct s as [| c' s'].
    + cbn in P10, P16. injection P10 as <-. injection P16 as <-. lia.
    + cbn [JS.parseDigits] in P10, P16.
      destruct (JS.digitVal c') as [k' |] eqn:Dc'; [| discriminate].
      destruct (k' <? 10) eqn:K10'; [| discriminate].
      destruct (k' <? 16) eqn:K16'; [| discriminate].
      pose proof (digitVal_range c' k' Dc') as Rk'.
      assert (G : d < x).
      { apply (hex_reading_above s' (k * 10 + k') (k * 16 + k') d x); try assumption; lia. }
      assert (0 <= d).
      { assert (Hd : forall t acc r, JS.parseDigits 10 t acc = Some r -> 0 <= acc -> 0 <= r).
        { induction t as [| e t IHt]; intros acc r Pr Hacc.
          - cbn in Pr. injection Pr as <-. exact Hacc.
          - cbn [JS.parseDigits] in Pr.
            destruct (JS.digitVal e) as [q |] eqn:De; [| discriminate].
            destruct (q <? 10); [| discriminate].
            pose proof (digitVal_range e q De). apply (IHt _ _ Pr). lia. }
        apply (Hd s' _ _ P10). lia. }
      lia.
Qed.

(** The first digit of the numeral of a positive number is no zero. *)
Lemma toDigits_head (f : nat) :
  forall z acc, 0 < z < 2 ^ Z.of_nat f ->
    exists q rest, 1 <= q < 16 /\ JS.toDigits f 16 z acc = String (JS.digitChar q) rest.
Proof.
  induction f as [| f IH]; intros z acc Hz.
  - cbn in Hz. lia.
  - cbn [JS.toDigits].
    destruct (z / 16 =? 0) eqn:E.
    + apply Z.eqb_eq in E. apply Z.div_small_iff in E; [| lia].
      exists z, acc. rewrite Z.mod_small by lia. split; [lia | reflexivity].
    + apply Z.eqb_neq in E. apply IH.
      assert (0 <= z / 16) by (apply Z.div_pos; lia).
      split; [lia |].
      apply Z.div_lt_upper_bound; [lia |].
      rewrite Nat2Z.inj_succ, Z.pow_succ_r in Hz by lia. lia.
Qed.

Lemma digitChar_code (q : Z) :
  0 <= q < 16 -> JS.code (JS.digitChar q) = if q <? 10 then 48 + q else 87 + q.
Proof.
  intros H. unfold JS.digitChar. destruct (q <? 10) eqn:E.
  - apply Z.ltb_lt in E. apply code_chr. lia.
  - apply Z.ltb_ge in E. apply code_chr. lia.
Qed.

Lemma eqb_by_code (c d : ascii) : JS.code c <> JS.code d -> Ascii.eqb c d = false.
Proof.
  intros H. apply Ascii.eqb_neq. intros ->. now apply H.
Qed.

Lemma hex_with_letter_is_no_BigInt (x : Z) :
  0 <= x -> JS.allDigits (JS.toString 16 x) = false ->
  JS.StringToBigInt (JS.toString 16 x) = None.
Proof.
  intros Hx Nd. rewrite toString_nonneg in * by assumption.
  assert (Hpos : 0 < x).
  { destruct (Z.eq_dec x 0) as [-> | N]; [discriminate Nd | lia]. }
  destruct (toDigits_head (S (Z.to_nat (Z.log2 x))) x "") as [q [rest [Hq E]]].
  { split; [lia | now apply enough_fuel]. }
  pose proof (natToString_lowerHex 16 x ltac:(lia)) as Lh.
  unfold JS.StringToBigInt. rewrite (trim_noWhite _ (lowerHex_noWhite _ Lh)).
  unfold JS.natToString in *. rewrite E in *.
  pose proof (digitChar_code q ltac:(lia)) as Cq.
  assert (C1 : Ascii.eqb (JS.digitChar q) "-" = false).
  { apply eqb_by_code. rewrite Cq. change (JS.code "-") with 45. destruct (q <? 10); lia. }
  assert (C2 : Ascii.eqb (JS.digitChar q) "+" = false).
  { apply eqb_by_code. rewrite Cq. change (JS.code "+") with 43. destruct (q <? 10); lia. }
  assert (C3 : Ascii.eqb (JS.digitChar q) "0" = false).
  { apply eqb_by_code. rewrite Cq. change (JS.code "0") with 48. destruct (q <? 10); lia. }
  rewrite C1, C2, C3. unfold JS.parseNonEmpty. cbn [JS.nonEmpty].
  destruct (JS.parseDigits 10 (String (JS.digitChar q) rest) 0) as [r |] eqn:P; [| reflexivity].
  apply parseDigits10_digits in P. unfold JS.allDigits in Nd. cbn [JS.nonEmpty andb] in Nd.
  congruence.
Qed.

(** X15.  A slot text in hexadecimal without a prefix, as
    [calculateMemberSlot] prints it for the members of a struct variable,
    is read back by [formatSlot] as a decimal numeral whenever it holds no
    letter.  So the slot sent to the node is [x] when the hexadecimal
    numeral of [x] holds a letter or [x] is below 10, and it is the smaller
    number [d] that the same digits denote in decimal otherwise (16 is sent
    as 10, 256 as 100). *)
Theorem unprefixed_hex_slot_is_reread_in_decimal (x : Z) :
  0 <= x ->
  (JS.allDigits (JS.toString 16 x) = false ->
   formatSlot (JS.toString 16 x) = "0x" ++ JS.toString 16 x)
  /\ (JS.allDigits (JS.toString 16 x) = true ->
      exists d, JS.parseDigits 10 (JS.toString 16 x) 0 = Some d
                /\ formatSlot (JS.toString 16 x) = "0x" ++ JS.toString 16 d
                /\ 0 <= d <= x
                /\ (d = x -> x < 10)).
Proof.
  intros Hx. split; intros D.
  - unfold formatSlot.
    rewrite (hex_with_letter_is_no_BigInt x Hx D).
    assert (S : JS.startsWith (JS.toString 16 x) "0x" = false).
    { rewrite toString_nonneg by assumption.
      destruct (toDigits_head (S (Z.to_nat (Z.log2 x))) x "") as [q [rest [Hq E]]].
      { split; [| now apply enough_fuel].
        destruct (Z.eq_dec x 0) as [-> | N]; [discriminate D | lia]. }
      unfold JS.natToString. rewrite E. cbn [JS.startsWith].
      rewrite Ascii.eqb_sym, eqb_by_code; [reflexivity |].
      rewrite digitChar_code by lia. change (JS.code "0") with 48. destruct (q <? 10); lia. }
    now rewrite S.
  - destruct (digits_read _ D) as [d [Hd [Pd [_ Bd]]]].
    unfold JS.parseNonEmpty in Pd.
    unfold JS.allDigits in D. apply andb_true_iff in D. destruct D as [Ne Dg].
    rewrite Ne in Pd. exists d.
    assert (Px : JS.parseDigits 16 (JS.toString 16 x) 0 = Some x).
    { rewrite toString_nonneg by assumption. apply parse_natToString; lia. }
    destruct (hex_reading_same _ d x Pd Px) as [R1 R2].
    split; [exact Pd |]. split; [| split; assumption].
    unfold formatSlot. rewrite allDigits_not_0x, Bd; [reflexivity |].
    unfold JS.allDigits. now rewrite Ne, Dg.
Qed.

Lemma unprefixed_hex_slot_is_reread_in_decimal_witness :
  JS.toString 16 16 = "10"
  /\ exists d, JS.parseDigits 10 (JS.toString 16 16) 0 = Some d
               /\ formatSlot (JS.toString 16 16) = "0x" ++ JS.toString 16 d
               /\ 0 <= d <= 16
               /\ (d = 16 -> 16 < 10).
Proof.
  split; [reflexivity |].
  apply (proj2 (unprefixed_hex_slot_is_reread_in_decimal 16 ltac:(lia))). reflexivity.
Defined.

(** ** Partial writes, one after another *)

Lemma mergeWord_disjoint_commute (c v1 o1 s1 v2 o2 s2 : Z) :
  0 <= o1 -> 0 <= s1 -> o1 + s1 <= o2 -> 0 <= s2 ->
  mergeWord (mergeWord c v1 o1 s1) v2 o2 s2 = mergeWord (mergeWord c v2 o2 s2) v1 o1 s1.
Proof.
  intros H1 H2 H3 H4. apply Z.bits_inj'. intros n Hn.
  rewrite !testbit_mergeWord by lia.
  destruct ((o2 <=? n) && (n <? o2 + s2)) eqn:E2; [| reflexivity].
  apply andb_true_iff in E2. destruct E2 as [A _]. apply Z.leb_le in A.
  assert (E1 : (n <? o1 + s1) = false) by (apply Z.ltb_ge; lia).
  now rewrite E1, andb_false_r.
Qed.

Lemma mergeWord_overwrite (c v1 v2 o s : Z) :
  0 <= o -> 0 <= s -> mergeWord (mergeWord c v1 o s) v2 o s = mergeWord c v2 o s.
Proof.
  intros H1 H2. apply Z.bits_inj'. intros n Hn.
  rewrite !testbit_mergeWord by lia.
  now destruct ((o <=? n) && (n <? o + s)).
Qed.

(** X16.  Partial writes compose.  Two partial writes into byte ranges of
    one word that do not overlap give the same word in either order, and
    in it each field holds its value modulo the width of the field; a
    second partial write into the same range replaces the first. *)
Theorem partial_writes_compose (cur v1 v2 o1 w1 o2 w2 : Z) :
  0 <= cur -> 0 <= v1 -> 0 <= v2 ->
  0 <= o1 -> 0 <= w1 -> o1 + w1 <= o2 -> 0 <= w2 ->
  (exists r,
      (let* a := mergePartialWord (units (word32 cur)) (units (word32 v1)) o1 (JS.JNum w1) in
       mergePartialWord a (units (word32 v2)) o2 (JS.JNum w2)) = Ok (units (word32 r))
      /\ (let* a := mergePartialWord (units (word32 cur)) (units (word32 v2)) o2 (JS.JNum w2) in
          mergePartialWord a (units (word32 v1)) o1 (JS.JNum w1)) = Ok (units (word32 r))
      /\ fieldOf r o1 w1 = v1 mod 2 ^ (8 * w1)
      /\ fieldOf r o2 w2 = v2 mod 2 ^ (8 * w2))
  /\ (let* a := mergePartialWord (units (word32 cur)) (units (word32 v1)) o1 (JS.JNum w1) in
      mergePartialWord a (units (word32 v2)) o1 (JS.JNum w1))
     = mergePartialWord (units (word32 cur)) (units (word32 v2)) o1 (JS.JNum w1).
Proof.
  intros Hc H1 H2 Ho1 Hw1 Hd Hw2.
  pose proof (mergeWord_nonneg cur v1 (o1 * 8) (w1 * 8) Hc H1) as N1.
  pose proof (mergeWord_nonneg cur v2 (o2 * 8) (w2 * 8) Hc H2) as N2.
  split.
  - exists (mergeWord (mergeWord cur v1 (o1 * 8) (w1 * 8)) v2 (o2 * 8) (w2 * 8)).
    rewrite !mergePartialWord_words by assumption. cbn [bind].
    rewrite !mergePartialWord_words by assumption.
    pose proof (mergeWord_disjoint_commute cur v1 (o1 * 8) (w1 * 8) v2 (o2 * 8) (w2 * 8)
                  ltac:(lia) ltac:(lia) ltac:(lia) ltac:(lia)) as C.
    split; [reflexivity |]. split.
    + now rewrite C.
    + split.
      * rewrite C. apply fieldOf_mergeWord; lia.
      * apply fieldOf_mergeWord; lia.
  - rewrite !mergePartialWord_words by assumption. cbn [bind].
    rewrite mergePartialWord_words by assumption.
    now rewrite mergeWord_overwrite by lia.
Qed.

Lemma partial_writes_compose_witness :
  (exists r,
      (let* a := mergePartialWord (units (word32 (2 ^ 255))) (units (word32 511)) 0 (JS.JNum 1) in
       mergePartialWord a (units (word32 7)) 20 (JS.JNum 1)) = Ok (units (word32 r))
      /\ (let* a := mergePartialWord (units (word32 (2 ^ 255))) (units (word32 7)) 20 (JS.JNum 1) in
          mergePartialWord a (units (word32 511)) 0 (JS.JNum 1)) = Ok (units (word32 r))
      /\ fieldOf r 0 1 = 511 mod 2 ^ (8 * 1)
      /\ fieldOf r 20 1 = 7 mod 2 ^ (8 * 1))
  /\ (let* a := mergePartialWord (units (word32 (2 ^ 255))) (units (word32 511)) 0 (JS.JNum 1) in
      mergePartialWord a (units (word32 7)) 0 (JS.JNum 1))
     = mergePartialWord (units (word32 (2 ^ 255))) (units (word32 7)) 0 (JS.JNum 1).
Proof.
  apply (partial_writes_compose (2 ^ 255) 511 7 0 1 20 1); lia.
Defined.

(** ** The signed encoder, read back *)

Lemma repeatChar_app (c : ascii) (a b : nat) :
  JS.repeatChar c a ++ JS.repeatChar c b = JS.repeatChar c (a + b).
Proof. induction a as [| a IH]; [reflexivity | cbn [JS.repeatChar append Nat.add]; now rewrite IH]. Qed.

Lemma padStart_twice (s : string) (n m : nat) (c : ascii) :
  (n <= m)%nat -> JS.padStart (JS.padStart s n c) m c = JS.padStart s m c.
Proof.
  intros H. unfold JS.padStart.
  rewrite length_append, length_repeatChar, <- append_assoc, repeatChar_app.
  f_equal. f_equal. lia.
Qed.

(** X17.  The signed encoder writes two's complement in the width of the
    cell.  For a width of 1 to 32 bytes and a value within the range of
    that width, [encodeIntForStorage] returns the word of a number below
    [2^(8*width)] whose low [width] bytes, read as a two's-complement
    integer, are the value; the bytes above the width are zero also for a
    negative value. *)
Theorem signed_encoding_reads_back (newValue : jsvalue) (v width : Z) :
  1 <= width <= 32 ->
  BigInt_of_value newValue = Ok v ->
  - 2 ^ (8 * width - 1) <= v < 2 ^ (8 * width - 1) ->
  exists r,
    encodeIntForStorage newValue (JS.JNum width) = Ok (units (word32 r))
    /\ 0 <= r < 2 ^ (8 * width)
    /\ signedOf width r = v.
Proof.
  intros Hw Hv Hr.
  assert (P : 2 ^ (8 * width) = 2 * 2 ^ (8 * width - 1)).
  { rewrite <- Z.pow_succ_r by lia. f_equal. lia. }
  assert (Q : 0 < 2 ^ (8 * width - 1)) by (apply Z.pow_pos_nonneg; lia).
  assert (Enc : forall r, 0 <= r ->
            units ("0x" ++ JS.padStart (JS.padStart (JS.toString 16 r)
                                                   (Z.to_nat (width * 2)) "0") 64 "0")
            = units (word32 r)).
  { intros r _. unfold word32. rewrite padStart_twice by lia. reflexivity. }
  unfold encodeIntForStorage. rewrite Hv. cbn [bind].
  destruct (v <? 0) eqn:E; cbn [bind JS.mul_num JS.BigInt_of_number padLength].
  - apply Z.ltb_lt in E.
    replace (Z.shiftl 1 (width * 8) - 1) with (Z.ones (width * 8)) by (unfold Z.ones; lia).
    rewrite Z.land_ones by lia. replace (width * 8) with (8 * width) by lia.
    assert (M : v mod 2 ^ (8 * width) = v + 2 ^ (8 * width)).
    { symmetry. apply Z.mod_unique with (-1); lia. }
    exists (v mod 2 ^ (8 * width)). rewrite M. split; [| split].
    + apply f_equal. apply Enc. lia.
    + lia.
    + unfold signedOf. rewrite Z.mod_small by lia.
      assert (G : (v + 2 ^ (8 * width) <? 2 ^ (8 * width - 1)) = false)
        by (apply Z.ltb_ge; lia).
      rewrite G. lia.
  - apply Z.ltb_ge in E. exists v. split; [| split].
    + apply f_equal. apply Enc. lia.
    + lia.
    + unfold signedOf. rewrite Z.mod_small by lia.
      assert (G : (v <? 2 ^ (8 * width - 1)) = true) by (apply Z.ltb_lt; lia).
      now rewrite G.
Qed.

Lemma signed_encoding_reads_back_witness :
  BigInt_of_value (VNumber (JS.JNum (-2))) = Ok (-2)
  /\ exists r,
      encodeIntForStorage (VNumber (JS.JNum (-2))) (JS.JNum 8) = Ok (units (word32 r))
      /\ 0 <= r < 2 ^ (8 * 8)
      /\ signedOf 8 r = -2.
Proof.
  split; [reflexivity |].
  apply (signed_encoding_reads_back (VNumber (JS.JNum (-2))) (-2) 8).
  - lia.
  - reflexivity.
  - simpl. lia.
Defined.

(** ** The width of an unsigned word *)

Lemma parseDigits16_bound (s : string) :
  forall acc r, JS.parseDigits 16 s acc = Some r -> 0 <= acc ->
    r < (acc + 1) * 16 ^ Z.of_nat (String.length s).
Proof.
  induction s as [| c s IH]; intros acc r P Hacc.
  - cbn in P. injection P as <-. cbn [String.length]. rewrite Z.pow_0_r. lia.
  - cbn [JS.parseDigits] in P.
    destruct (JS.digitVal c) as [d |] eqn:Dc; [| discriminate].
    destruct (d <? 16) eqn:Dr; [| discriminate].
    pose proof (digitVal_range c d Dc) as Rd.
    specialize (IH _ _ P ltac:(lia)).
    cbn [String.length]. rewrite Nat2Z.inj_succ, Z.pow_succ_r by lia.
    assert (0 < 16 ^ Z.of_nat (String.length s)) by (apply Z.pow_pos_nonneg; lia).
    nia.
Qed.

(** X18.  The unsigned encoder returns a 32-byte word exactly for values
    below [2^256].  For a value [v >= 0] the text it returns is [0x]
    followed by the hexadecimal digits of [v], filled to 64 digits: it has
    66 characters when [v < 2^256] and more otherwise, whatever the size of
    the cell. *)
Theorem unsigned_word_has_32_bytes_iff_in_range (newValue : jsvalue) (size : JS.jsnum) (v : Z) :
  BigInt_of_value newValue = Ok v -> 0 <= v ->
  (List.length (encodeUintForStorage newValue size) = 66%nat <-> v < 2 ^ 256)
  /\ BigInt_of_units (encodeUintForStorage newValue size) = Ok v.
Proof.
  intros Hv H0. rewrite (encodeUint_word newValue size v Hv).
  split; [| now apply BigInt_of_units_word32].
  rewrite length_units. split.
  - intros L. unfold word32 in L. cbn [append String.length] in L.
    unfold JS.padStart in L. rewrite length_append, length_repeatChar in L.
    assert (Ls : (String.length (JS.toString 16 v) <= 64)%nat) by lia.
    pose proof (parse_natToString 16 v ltac:(lia) H0) as P.
    rewrite <- toString_nonneg in P by assumption.
    pose proof (parseDigits16_bound _ 0 v P ltac:(lia)) as B.
    apply Z.lt_le_trans with ((0 + 1) * 16 ^ Z.of_nat (String.length (JS.toString 16 v)));
      [exact B |].
    change (2 ^ 256) with (16 ^ 64). rewrite Z.mul_1_l. apply Z.pow_le_mono_r; lia.
  - intros L. apply length_word32. lia.
Qed.

Lemma unsigned_word_has_32_bytes_iff_in_range_witness :
  BigInt_of_value (VBigInt (2 ^ 256)) = Ok (2 ^ 256)
  /\ (List.length (encodeUintForStorage (VBigInt (2 ^ 256)) (JS.JNum 32)) = 66%nat
      <-> 2 ^ 256 < 2 ^ 256)
  /\ List.length (encodeUintForStorage (VBigInt (2 ^ 256)) (JS.JNum 32)) = 67%nat.
Proof.
  split; [reflexivity |]. split; [| reflexivity].
  apply (unsigned_word_has_32_bytes_iff_in_range (VBigInt (2 ^ 256)) (JS.JNum 32) (2 ^ 256)).
  - reflexivity.
  - lia.
Defined.

(** ** Short strings, in place *)

Lemma units_bytes (s : string) : Forall isByte (units s).
Proof.
  induction s as [| c s IH]; [apply Forall_nil |].
  cbn [units]. apply Forall_cons; [apply code_bound | exact IH].
Qed.

(** X19.  A short string is stored in place.  For a string of code units
    below 256, [encodeStringForStorage] returns a 32-byte word that starts
    with the code units, goes on with zero bytes, and ends with twice the
    length in its last byte, when the string has at most 31 code units; a
    longer string is refused. *)
Theorem short_string_is_stored_in_place (u : ustring) :
  Forall isByte u ->
  if (List.length u <=? 31)%nat
  then exists word,
      encodeStringForStorage (VString u) = Ok (units (Ethers.hexlify word))
      /\ List.length word = 32%nat
      /\ firstn (List.length u) word = u
      /\ (forall j, (List.length u <= j < 31)%nat -> nth j word 0 = 0)
      /\ nth 31 word 0 = 2 * Z.of_nat (List.length u)
  else encodeStringForStorage (VString u) = Err LongStringNotSupported.
Proof.
  intros Hb. destruct (List.length u <=? 31)%nat eqn:E.
  - apply Nat.leb_le in E.
    exists (app u (app (repeat 0 (31 - List.length u)) [2 * Z.of_nat (List.length u)])).
    split; [exact (short_byte_string_encoding u Hb E) |]. split; [| split; [| split]].
    + rewrite !length_app, repeat_length. cbn [List.length]. lia.
    + rewrite firstn_app, firstn_all, Nat.sub_diag. cbn [firstn]. apply app_nil_r.
    + intros j Hj. rewrite app_nth2 by lia. rewrite app_nth1 by (rewrite repeat_length; lia).
      apply nth_repeat.
    + rewrite app_assoc.
      assert (Ll : List.length (app u (repeat 0 (31 - List.length u))) = 31%nat)
        by (rewrite length_app, repeat_length; lia).
      remember (app u (repeat 0 (31 - List.length u))) as l eqn:El.
      rewrite <- Ll. apply nth_middle.
  - apply Nat.leb_gt in E. now apply long_string_is_refused.
Qed.

Lemma short_string_is_stored_in_place_witness :
  Forall isByte (units "TestValue")
  /\ exists word,
      encodeStringForStorage (VString (units "TestValue")) = Ok (units (Ethers.hexlify word))
      /\ List.length word = 32%nat
      /\ firstn (List.length (units "TestValue")) word = units "TestValue"
      /\ (forall j, (List.length (units "TestValue") <= j < 31)%nat -> nth j word 0 = 0)
      /\ nth 31 word 0 = 2 * Z.of_nat (List.length (units "TestValue")).
Proof.
  assert (B : Forall isByte (units "TestValue")).
  { apply units_bytes. }
  split; [exact B |].
  exact (short_string_is_stored_in_place (units "TestValue") B).
Defined.

(** ** A path on a variable that has no parts *)

(** X20.  A path on a plain variable is refused.  For a declared variable
    whose type name starts with none of [t_mapping], [t_array] and
    [t_struct], every non-empty path is answered with the error of an
    unsupported variable type; [setNestedState] then answers [false] and
    sends nothing. *)
Theorem path_on_plain_variable_is_refused
        (hreMembers : hreLookup) (artifacts : artifactStore)
        (contract address variable : string)
        (layout : StorageLayoutInfo) (sv : StorageVar) (ti : TypeInfo)
        (segment : string) (rest : list string) (newValue : jsvalue) (net : Network) :
  declares artifacts contract variable layout sv ti -> memberless ti ->
  JS.startsWith (s_type sv) "t_mapping" = false ->
  JS.startsWith (s_type sv) "t_array" = false ->
  JS.startsWith (s_type sv) "t_struct" = false ->
  getStorageLocation hreMembers artifacts contract variable (Some (segment :: rest))
  = Err UnsupportedVariableType
  /\ setNestedState hreMembers artifacts contract address variable (segment :: rest)
                    newValue net
     = (false, net).
Proof.
  intros D M N1 N2 N3.
  assert (L : getStorageLocation hreMembers artifacts contract variable
                                 (Some (segment :: rest)) = Err UnsupportedVariableType).
  { rewrite (getStorageLocation_path _ _ _ _ _ _ _ _ _ D M). cbv zeta.
    now rewrite N1, N2, N3. }
  split; [exact L |].
  unfold setNestedState, stateSetter_setState, setState.
  cbn [contractName varName path]. now rewrite L.
Qed.

Lemma path_on_plain_variable_is_refused_witness :
  declares Token.tokenArtifacts "Token" "totalSupply" Token.tokenLayout
           (mkStorageVar "totalSupply" "0" 0 "t_uint256")
           (mkTypeInfo "uint256" (Some "32") None)
  /\ getStorageLocation Demo.noExtractedLayouts Token.tokenArtifacts "Token" "totalSupply"
                        (Some ["0"])
     = Err UnsupportedVariableType
  /\ setNestedState Demo.noExtractedLayouts Token.tokenArtifacts "Token" Token.tokenAt
                    "totalSupply" ["0"] (VBigInt 1) (Demo.networkHolding 3)
     = (false, Demo.networkHolding 3).
Proof.
  split; [repeat split |].
  apply (path_on_plain_variable_is_refused
           Demo.noExtractedLayouts Token.tokenArtifacts "Token" Token.tokenAt "totalSupply"
           Token.tokenLayout (mkStorageVar "totalSupply" "0" 0 "t_uint256")
           (mkTypeInfo "uint256" (Some "32") None) "0" [] (VBigInt 1) (Demo.networkHolding 3)).
  - repeat split.
  - left. reflexivity.
  - reflexivity.
  - reflexivity.
  - reflexivity.
Defined.

(** ** Text keys *)



(** ** Structs as the values of a mapping *)

Lemma resolveMappingPath_into_struct
      (hreMembers : hreLookup) (varLocation : VarLocation)
      (keyType valueType key h next : string) (rest : list string) :
  mappingKeyValueTypes (type varLocation) = (keyType, valueType) ->
  calculateMappingSlot (slot varLocation) (formatMappingKey keyType key) = Ok h ->
  JS.startsWith valueType "t_struct" = true ->
  resolveMappingPath hreMembers varLocation (key :: next :: rest)
  = let structMatch := TypeName.structMatch valueType in
    let structName := orString structMatch "unknown" in
    let* structChildren :=
      structChildrenOf (structInfo varLocation) structName structMatch h in
    resolveStructPath hreMembers
      (mkVarLocation structName h None (JS.JNum 32) valueType structChildren None None)
      (next :: rest).
Proof.
  intros T S V. destruct (struct_type_is_no_container _ V) as [N1 N2].
  change (resolveMappingPath hreMembers varLocation (key :: next :: rest))
    with (let '(keyType, valueType) := mappingKeyValueTypes (type varLocation) in
          let formattedKey := formatMappingKey keyType key in
          let* mappingSlot := calculateMappingSlot (slot varLocation) formattedKey in
          if JS.startsWith valueType "t_mapping" then
            resolveMappingPath hreMembers
              (mkVarLocation "innerMapping" mappingSlot None (JS.JNum 32) valueType
                             None None None)
              (next :: rest)
          else if JS.startsWith valueType "t_array" then
            resolveArrayPath hreMembers
              (mkVarLocation "innerArray" mappingSlot None (JS.JNum 32) valueType
                             None None None)
              (next :: rest)
          else if JS.startsWith valueType "t_struct" then
            let structMatch := TypeName.structMatch valueType in
            let structName := orString structMatch "unknown" in
            let* structChildren :=
              structChildrenOf (structInfo varLocation) structName structMatch mappingSlot in
            resolveStructPath hreMembers
              (mkVarLocation structName mappingSlot None (JS.JNum 32) valueType
                             structChildren None None)
              (next :: rest)
          else
            Ok (mkStorageLocation mappingSlot None (JS.JNum (getSizeForType valueType))
                                  valueType None)).
  rewrite T. cbv zeta. rewrite S. cbn [bind]. now rewrite N1, N2, V.
Qed.

Lemma relative_slot_of_digest (msg : list Z) (r : Z) :
  0 <= r < 2 ^ 53 ->
  calculateRelativeSlot (keccakHex msg) (JS.toString 10 r)
  = Ok ("0x" ++ JS.toString 16 (keccakWord msg + r)).
Proof.
  intros Hr. unfold calculateRelativeSlot.
  unfold keccakHex at 1, Ethers.hexlify. rewrite startsWith_0x.
  change ("0x" ++ Ethers.hexOfBytes (Keccak.keccak256 msg)) with (keccakHex msg).
  rewrite getBigInt_keccakHex. cbn [bind].
  destruct (decimal_slot_facts r) as [_ [_ [_ P]]]; [lia |].
  rewrite P, roundToDouble_small by lia. reflexivity.
Qed.

Lemma find_by_name (g : Member -> VarLocation) (field : string) (members : list Member) :
  (forall m, name (g m) = m_label m) ->
  find (fun child => String.eqb (name child) field) (map g members)
  = option_map g (find (fun m => String.eqb (m_label m) field) members).
Proof.
  intros G. induction members as [| m ms IH]; [reflexivity |].
  cbn [map find]. rewrite G.
  destruct (String.eqb (m_label m) field); [reflexivity | exact IH].
Qed.

Lemma find_same {A : Type} (f g : A -> bool) (l : list A) :
  (forall a, f a = g a) -> find f l = find g l.
Proof.
  intros H. induction l as [| a l IH]; [reflexivity |].
  cbn [find]. rewrite H, IH. reflexivity.
Qed.

Lemma find_none {A : Type} (f : A -> bool) (l : list A) :
  Forall (fun a => f a = false) l -> find f l = None.
Proof.
  induction 1 as [| a l Ha Hl IH]; [reflexivity |]. cbn [find]. now rewrite Ha.
Qed.

(** The children [resolveMappingPath] builds from the members of the struct
    type it finds. *)
Lemma struct_children_are_located
      (tys : list (string * TypeInfo)) (msg : list Z) (rel : Member -> Z)
      (members : list Member) :
  Forall (fun m => m_slot m = JS.toString 10 (rel m) /\ 0 <= rel m < 2 ^ 53) members ->
  mapM (fun member =>
          let* s := calculateRelativeSlot (keccakHex msg)
                      (orString (Some (m_slot member)) "0") in
          Ok (mkVarLocation
                (m_label member)
                s
                (Some (m_offset member))
                (JS.parseInt10
                   (orString
                      (match lookupType tys (m_type member) with
                       | Some mt => t_numberOfBytes mt
                       | None => None
                       end) "32"))
                (m_type member)
                None None None))
       members
  = Ok (map (fun m =>
               mkVarLocation
                 (m_label m)
                 ("0x" ++ JS.toString 16 (keccakWord msg + rel m))
                 (Some (m_offset m))
                 (JS.parseInt10
                    (orString
                       (match lookupType tys (m_type m) with
                        | Some mt => t_numberOfBytes mt
                        | None => None
                        end) "32"))
                 (m_type m)
                 None None None)
            members).
Proof.
  induction 1 as [| m ms [Hs Hr] Hms IH]; [reflexivity |].
  cbn [mapM map]. rewrite Hs at 1.
  rewrite orString_nonEmpty by apply toString10_nonEmpty.
  rewrite (relative_slot_of_digest msg (rel m) Hr). cbn [bind].
  rewrite IH. reflexivity.
Qed.

(** X22.  A field of a struct held in a mapping.  When the layout has a
    type labelled [struct N] or [struct TestContract.N] for the struct name
    [N] in the value type of the mapping, a path of a key and a field
    resolves to the first member with that label: its slot is the slot of
    the mapping value plus the slot number the layout gives the member, its
    byte offset is the offset of the member, and its size is the byte count
    of the member type, or 32 when the layout does not describe it. *)
Theorem struct_field_in_mapping
        (hreMembers : hreLookup) (artifacts : artifactStore) (contract variable : string)
        (layout : StorageLayoutInfo) (sv : StorageVar) (ti : TypeInfo)
        (keyType valueType key h structName field : string) (kb : list Z)
        (structType : TypeInfo) (members : list Member) (rel : Member -> Z)
        (m : Member) (b : Z) :
  declares artifacts contract variable layout sv ti -> memberless ti ->
  JS.startsWith (s_type sv) "t_mapping" = true ->
  mappingKeyValueTypes (s_type sv) = (keyType, valueType) ->
  JS.includes keyType "t_address" = true ->
  JS.startsWith valueType "t_struct" = true ->
  TypeName.structMatch valueType = Some structName -> structName <> "" ->
  s_slot sv = JS.toString 10 b -> 0 <= b < 1000 ->
  key = "0x" ++ h \/ (key = h /\ JS.startsWith h "0x" = false) ->
  Ethers.bytesOfHex (JS.padStart h 64 "0") = Some kb ->
  find (fun t => String.eqb (t_label t) ("struct " ++ structName)
                 || String.eqb (t_label t) ("struct TestContract." ++ structName))
       (map snd (types layout)) = Some structType ->
  t_members structType = Some members ->
  Forall (fun m => m_slot m = JS.toString 10 (rel m) /\ 0 <= rel m < 2 ^ 53) members ->
  find (fun m => String.eqb (m_label m) field) members = Some m ->
  getStorageLocation hreMembers artifacts contract variable (Some [key; field])
  = Ok (mkStorageLocation
          ("0x" ++ JS.toString 16 (keccakWord (app kb (leftPad32 b)) + rel m))
          (Some (m_offset m))
          (JS.parseInt10
             (orString (match lookupType (types layout) (m_type m) with
                        | Some mt => t_numberOfBytes mt
                        | None => None
                        end) "32"))
          (m_type m) None).
Proof.
  intros D M T KV A V Sm Ne S Hb K B Ft Ms Rs Fd.
  rewrite (getStorageLocation_path _ _ _ _ _ _ _ _ _ D M). cbv zeta. rewrite T.
  rewrite (resolveMappingPath_into_struct
             hreMembers (declaredLocation layout variable sv ti) keyType valueType key
             (keccakHex (app kb (leftPad32 b))) field [] KV).
  2:{ cbn [slot declaredLocation].
      rewrite (formatMappingKey_address keyType key h A K), S.
      apply mapping_slot_of_hex_key; [now apply readsSlotAs_declared | exact B]. }
  2:{ exact V. }
  cbv zeta. rewrite Sm. rewrite (orString_nonEmpty structName "unknown").
  2:{ destruct structName; [contradiction | reflexivity]. }
  cbn [structInfo declaredLocation]. unfold structChildrenOf.
  rewrite (find_same _ (fun t => String.eqb (t_label t) ("struct " ++ structName)
                                 || String.eqb (t_label t)
                                      ("struct TestContract." ++ structName))).
  2:{ intros t. destruct (String.eqb (t_label t) ("struct " ++ structName));
        [reflexivity |].
      cbn [orb]. now destruct (String.eqb (t_label t) ("struct TestContract." ++ structName)). }
  rewrite Ft, Ms.
  rewrite (struct_children_are_located (types layout) (app kb (leftPad32 b)) rel members Rs).
  cbn [bind].
  match goal with
  | |- resolveStructPath _ (mkVarLocation _ _ _ _ _ (Some (map ?g members)) _ _) _ = _ =>
      apply (resolveStructPath_field hreMembers _ (map g members) field (g m));
        [reflexivity | rewrite (find_by_name g) by reflexivity; now rewrite Fd]
  end.
Qed.

Lemma struct_field_in_mapping_witness :
  declares Demo.exampleArtifacts "TestContract" "personByAddress" Demo.exampleLayout
           (mkStorageVar "personByAddress" "13" 0
                         "t_mapping(t_address,t_struct(Person)20_storage)")
           (mkTypeInfo "mapping(address => struct TestContract.Person)" (Some "32") None)
  /\ TypeName.structMatch "t_struct(Person)20_storage" = Some "Person"
  /\ getStorageLocation Demo.noExtractedLayouts Demo.exampleArtifacts "TestContract"
                        "personByAddress" (Some [Token.holder; "active"])
     = Ok (mkStorageLocation
             ("0x" ++ JS.toString 16
                        (keccakWord
                           (app (app (repeat 0 12)
                                     [112; 153; 121; 112; 197; 24; 18; 220; 58; 1; 12; 125;
                                      1; 181; 14; 13; 23; 220; 121; 200])
                                (leftPad32 13)) + 2))
             (Some 20) (JS.JNum 1) "t_bool" None).
Proof.
  split; [repeat split |]. split; [reflexivity |].
  refine (struct_field_in_mapping
            Demo.noExtractedLayouts Demo.exampleArtifacts "TestContract" "personByAddress"
            Demo.exampleLayout
            (mkStorageVar "personByAddress" "13" 0
                          "t_mapping(t_address,t_struct(Person)20_storage)")
            (mkTypeInfo "mapping(address => struct TestContract.Person)" (Some "32") None)
            "t_address" "t_struct(Person)20_storage" Token.holder
            "70997970C51812dc3A010C7d01b50e0d17dc79C8" "Person" "active"
            (app (repeat 0 12)
                 [112; 153; 121; 112; 197; 24; 18; 220; 58; 1; 12; 125; 1; 181; 14; 13; 23;
                  220; 121; 200])
            (mkTypeInfo "struct TestContract.Person" (Some "96")
               (Some [ mkMember "name" "0" 0 "t_string_storage";
                       mkMember "age" "1" 0 "t_uint256";
                       mkMember "wallet" "2" 0 "t_address";
                       mkMember "active" "2" 20 "t_bool" ]))
            [ mkMember "name" "0" 0 "t_string_storage";
              mkMember "age" "1" 0 "t_uint256";
              mkMember "wallet" "2" 0 "t_address";
              mkMember "active" "2" 20 "t_bool" ]
            (fun m => match JS.StringToBigInt (m_slot m) with Some r => r | None => 0 end)
            (mkMember "active" "2" 20 "t_bool") 13
            _ _ _ _ _ _ _ _ _ _ _ _ _ _ _ _).
  - repeat split.
  - left. reflexivity.
  - reflexivity.
  - reflexivity.
  - reflexivity.
  - reflexivity.
  - reflexivity.
  - discriminate.
  - reflexivity.
  - lia.
  - left. reflexivity.
  - reflexivity.
  - reflexivity.
  - reflexivity.
  - repeat (apply Forall_cons;
            [split; [reflexivity | split; vm_compute; [discriminate | reflexivity]] |]).
    apply Forall_nil.
  - reflexivity.
Defined.

(** X23.  A struct in a mapping is found by its label alone.  When no type
    of the layout is labelled [struct N] or [struct TestContract.N] for
    the struct name [N] in the value type of the mapping (as for every
    struct the compiler labels with another contract name), a path that
    goes on below the key fails: with the error for a struct without member
    information when the global lookup knows no members of the value type,
    and with the error of a missing field otherwise. *)
Theorem struct_in_mapping_is_found_by_label
        (hreMembers : hreLookup) (artifacts : artifactStore) (contract variable : string)
        (layout : StorageLayoutInfo) (sv : StorageVar) (ti : TypeInfo)
        (keyType valueType key h structName field : string) (rest : list string)
        (kb : list Z) (b : Z) :
  declares artifacts contract variable layout sv ti -> memberless ti ->
  JS.startsWith (s_type sv) "t_mapping" = true ->
  mappingKeyValueTypes (s_type sv) = (keyType, valueType) ->
  JS.includes keyType "t_address" = true ->
  JS.startsWith valueType "t_struct" = true ->
  TypeName.structMatch valueType = Some structName -> structName <> "" ->
  s_slot sv = JS.toString 10 b -> 0 <= b < 1000 ->
  key = "0x" ++ h \/ (key = h /\ JS.startsWith h "0x" = false) ->
  Ethers.bytesOfHex (JS.padStart h 64 "0") = Some kb ->
  Forall (fun t => t_label t <> "struct " ++ structName
                   /\ t_label t <> "struct TestContract." ++ structName)
         (map snd (types layout)) ->
  getStorageLocation hreMembers artifacts contract variable (Some (key :: field :: rest))
  = Err (match hreMembers valueType with
         | [] => NoStructMembers
         | _ => FieldNotFound
         end).
Proof.
  intros D M T KV A V Sm Ne S Hb K B Nl.
  rewrite (getStorageLocation_path _ _ _ _ _ _ _ _ _ D M). cbv zeta. rewrite T.
  rewrite (resolveMappingPath_into_struct
             hreMembers (declaredLocation layout variable sv ti) keyType valueType key
             (keccakHex (app kb (leftPad32 b))) field rest KV).
  2:{ cbn [slot declaredLocation].
      rewrite (formatMappingKey_address keyType key h A K), S.
      apply mapping_slot_of_hex_key; [now apply readsSlotAs_declared | exact B]. }
  2:{ exact V. }
  cbv zeta. rewrite Sm. rewrite (orString_nonEmpty structName "unknown").
  2:{ destruct structName; [contradiction | reflexivity]. }
  cbn [structInfo declaredLocation]. unfold structChildrenOf.
  rewrite find_none.
  2:{ apply Forall_impl with (2 := Nl). intros t [N1 N2].
      apply String.eqb_neq in N1. apply String.eqb_neq in N2. now rewrite N1, N2. }
  cbn [bind]. cbn [resolveStructPath children]. unfold missingChildren. cbn [parent type].
  now destruct (hreMembers valueType).
Qed.

Lemma struct_in_mapping_is_found_by_label_witness :
  declares Token.tokenArtifacts "Token" "limitsOf" Token.tokenLayout
           (mkStorageVar "limitsOf" "9" 0 "t_mapping(t_address,t_struct(Limits)42_storage)")
           (mkTypeInfo "mapping(address => struct Token.Limits)" (Some "32") None)
  /\ TypeName.structMatch "t_struct(Limits)42_storage" = Some "Limits"
  /\ getStorageLocation Demo.noExtractedLayouts Token.tokenArtifacts "Token" "limitsOf"
                        (Some [Token.holder; "daily"])
     = Err NoStructMembers.
Proof.
  split; [repeat split |]. split; [reflexivity |].
  refine (struct_in_mapping_is_found_by_label
            Demo.noExtractedLayouts Token.tokenArtifacts "Token" "limitsOf"
            Token.tokenLayout
            (mkStorageVar "limitsOf" "9" 0 "t_mapping(t_address,t_struct(Limits)42_storage)")
            (mkTypeInfo "mapping(address => struct Token.Limits)" (Some "32") None)
            "t_address" "t_struct(Limits)42_storage" Token.holder
            "70997970C51812dc3A010C7d01b50e0d17dc79C8" "Limits" "daily" []
            (app (repeat 0 12)
                 [112; 153; 121; 112; 197; 24; 18; 220; 58; 1; 12; 125; 1; 181; 14; 13; 23;
                  220; 121; 200])
            9 _ _ _ _ _ _ _ _ _ _ _ _ _).
  - repeat split.
  - left. reflexivity.
  - reflexivity.
  - reflexivity.
  - reflexivity.
  - reflexivity.
  - reflexivity.
  - discriminate.
  - reflexivity.
  - lia.
  - left. reflexivity.
  - reflexivity.
  - repeat (apply Forall_cons; [split; discriminate |]). apply Forall_nil.
Defined.

(** ** Slot texts that [BigInt] reads *)

(** X24.  [formatSlot] keeps the number of a slot text.  For a slot text
    that [BigInt] reads as a number [n >= 0], decimal or with a prefix, the
    text [formatSlot] returns opens with [0x] and is read as [n] again, and
    formatting it once more changes nothing. *)
Theorem formatSlot_keeps_the_number (slot : string) (n : Z) :
  JS.StringToBigInt slot = Some n -> 0 <= n ->
  JS.startsWith (formatSlot slot) "0x" = true
  /\ JS.StringToBigInt (formatSlot slot) = Some n
  /\ formatSlot (formatSlot slot) = formatSlot slot.
Proof.
  intros B Hn. destruct (JS.startsWith slot "0x") eqn:E.
  - assert (F : formatSlot slot = slot) by (unfold formatSlot; now rewrite E).
    rewrite !F. auto.
  - assert (F : formatSlot slot = "0x" ++ JS.toString 16 n)
      by (unfold formatSlot; now rewrite E, B).
    rewrite !F. split; [apply startsWith_0x |].
    split; [now apply StringToBigInt_hex | apply formatSlot_0x].
Qed.

Lemma formatSlot_keeps_the_number_witness :
  JS.StringToBigInt "255" = Some 255
  /\ formatSlot "255" = "0xff"
  /\ JS.startsWith (formatSlot "255") "0x" = true
  /\ JS.StringToBigInt (formatSlot "255") = Some 255
  /\ formatSlot (formatSlot "255") = formatSlot "255".
Proof.
  split; [reflexivity |]. split; [reflexivity |].
  apply (formatSlot_keeps_the_number "255" 255); [reflexivity | lia].
Defined.

(** ** The slot helpers that stand alone *)

(** X25.  The two helpers that step to a following slot read a base with a
    prefix in hexadecimal and a base without one with [parseInt], in
    decimal, and print the sum in hexadecimal behind [0x]:
    [calculateNextSlot] adds one and [calculateNextStructSlot] adds the
    increment plus one. *)
Theorem next_slot_helpers_add (b k : Z) :
  0 <= b -> 0 <= k < 2 ^ 53 - 1 ->
  calculateNextSlot ("0x" ++ JS.toString 16 b) = Ok ("0x" ++ JS.toString 16 (b + 1))
  /\ calculateNextStructSlot ("0x" ++ JS.toString 16 b) (JS.JNum k)
     = Ok ("0x" ++ JS.toString 16 (b + (k + 1)))
  /\ (b < 2 ^ 53 ->
      calculateNextSlot (JS.toString 10 b) = Ok ("0x" ++ JS.toString 16 (b + 1))
      /\ calculateNextStructSlot (JS.toString 10 b) (JS.JNum k)
         = Ok ("0x" ++ JS.toString 16 (b + (k + 1)))).
Proof.
  intros Hb Hk.
  assert (Sk : succ_num (JS.JNum k) = JS.JNum (k + 1)).
  { cbn [succ_num]. apply roundToDouble_small. lia. }
  split; [| split].
  - unfold calculateNextSlot. now rewrite startsWith_0x, getBigInt_hex.
  - unfold calculateNextStructSlot. now rewrite startsWith_0x, getBigInt_hex, Sk.
  - intros Hs. destruct (decimal_slot_facts b Hb) as [_ [S [_ P]]].
    unfold calculateNextSlot, calculateNextStructSlot.
    rewrite S, P, roundToDouble_small, Sk by lia. split; reflexivity.
Qed.

Lemma next_slot_helpers_add_witness :
  calculateNextSlot ("0x" ++ JS.toString 16 12) = Ok ("0x" ++ JS.toString 16 (12 + 1))
  /\ calculateNextStructSlot ("0x" ++ JS.toString 16 12) (JS.JNum 2)
     = Ok ("0x" ++ JS.toString 16 (12 + (2 + 1)))
  /\ (12 < 2 ^ 53 ->
      calculateNextSlot (JS.toString 10 12) = Ok ("0x" ++ JS.toString 16 (12 + 1))
      /\ calculateNextStructSlot (JS.toString 10 12) (JS.JNum 2)
         = Ok ("0x" ++ JS.toString 16 (12 + (2 + 1)))).
Proof.
  apply (next_slot_helpers_add 12 2); lia.
Defined.

(** ** Fixed-size arrays from a declared slot *)




(** ** A member without a type description *)

Lemma mapM_fails {A B : Type} (f : A -> result B) (l : list A) (a : A) :
  In a l -> isOk (f a) = false -> isOk (mapM f l) = false.
Proof.
  induction l as [| x l IH]; intros Hin Ha; [contradiction |].
  cbn [mapM]. destruct Hin as [-> | Hin].
  - destruct (f a); [discriminate | reflexivity].
  - destruct (f x); [| reflexivity]. cbn [bind].
    specialize (IH Hin Ha). destruct (mapM f l); [discriminate | reflexivity].
Qed.

(** X27.  One member without a type description hides the whole struct.
    When the type of a declared variable lists a member whose type the
    layout does not describe, [getStorageLocation] fails for that variable
    with every path and without a path, also when another member is
    addressed, and [setState] answers [false] and sends nothing. *)
Theorem undescribed_member_hides_the_variable
        (hreMembers : hreLookup) (artifacts : artifactStore) (contract address variable : string)
        (layout : StorageLayoutInfo) (sv : StorageVar) (ti : TypeInfo)
        (members : list Member) (m : Member)
        (somePath : option (list string)) (newValue : jsvalue) (net : Network) :
  declares artifacts contract variable layout sv ti ->
  t_members ti = Some members ->
  In m members ->
  lookupType (types layout) (m_type m) = None ->
  isOk (getStorageLocation hreMembers artifacts contract variable somePath) = false
  /\ setState hreMembers artifacts
              (mkParams contract variable newValue somePath address) net
     = (false, net).
Proof.
  intros [A [F T]] Ms Hin Nt.
  assert (L : isOk (getStorageLocation hreMembers artifacts contract variable somePath)
              = false).
  { unfold getStorageLocation, loadStorageLayout. rewrite A. cbn [bind].
    unfold findVariableLocation. rewrite F, T, Ms.
    destruct members as [| m0 ms]; [contradiction |].
    match goal with
    | |- context [mapM ?f (m0 :: ms)] =>
        pose proof (mapM_fails f (m0 :: ms) m Hin) as Hf
    end.
    cbv beta in Hf. rewrite Nt in Hf.
    match type of Hf with
    | ?P -> _ => assert (Hp : P)
    end.
    { destruct (calculateMemberSlot (s_slot sv) (m_offset m)); reflexivity. }
    specialize (Hf Hp).
    match goal with
    | |- context [mapM ?f (m0 :: ms)] => destruct (mapM f (m0 :: ms))
    end; [discriminate Hf | reflexivity]. }
  split; [exact L |].
  unfold setState. cbn [contractName varName path].
  destruct (getStorageLocation hreMembers artifacts contract variable somePath);
    [discriminate L | reflexivity].
Qed.

Lemma undescribed_member_hides_the_variable_witness :
  declares Token.trimmedArtifacts "Token" "limits" Token.trimmedLayout
           (mkStorageVar "limits" "0" 0 Token.limitsType)
           (mkTypeInfo "struct Token.Limits" (Some "64")
              (Some [ mkMember "daily" "0" 0 "t_uint256";
                      mkMember "perTransfer" "1" 0 "t_uint64" ]))
  /\ lookupType (types Token.trimmedLayout) "t_uint64" = None
  /\ isOk (getStorageLocation Demo.noExtractedLayouts Token.trimmedArtifacts "Token" "limits"
                              (Some ["daily"])) = false
  /\ setState Demo.noExtractedLayouts Token.trimmedArtifacts
              (mkParams "Token" "limits" (VBigInt 1) (Some ["daily"]) Token.tokenAt)
              (Demo.networkHolding 0)
     = (false, Demo.networkHolding 0).
Proof.
  split; [repeat split |]. split; [reflexivity |].
  apply (undescribed_member_hides_the_variable
           Demo.noExtractedLayouts Token.trimmedArtifacts "Token" Token.tokenAt "limits"
           Token.trimmedLayout (mkStorageVar "limits" "0" 0 Token.limitsType)
           (mkTypeInfo "struct Token.Limits" (Some "64")
              (Some [ mkMember "daily" "0" 0 "t_uint256";
                      mkMember "perTransfer" "1" 0 "t_uint64" ]))
           [ mkMember "daily" "0" 0 "t_uint256"; mkMember "perTransfer" "1" 0 "t_uint64" ]
           (mkMember "perTransfer" "1" 0 "t_uint64")
           (Some ["daily"]) (VBigInt 1) (Demo.networkHolding 0)).
  - repeat split.
  - reflexivity.
  - right. left. reflexivity.
  - reflexivity.
Defined.
